(** * JavadocToMarkdown: a shallow embedding of the comment extractor
      and Markdown renderer of [JavadocToMarkdown.py].

    Python strings are sequences of Unicode code points; they are
    modelled as lists of code points ([N]).  The regular expressions of
    the source are kept as syntax trees and run by a backtracking
    matcher that follows the priorities of Python's [re] module. *)

From Stdlib Require Import String Ascii.
From Stdlib Require Import List NArith ZArith Bool Arith Lia.
Import ListNotations.

(** ** Strings *)

Module Str.

Definition char := N.
Definition str := list char.

(** An ASCII literal of the source as a list of code points. *)
Definition lit (s : string) : str :=
  List.map N_of_ascii (list_ascii_of_string s).

Definition ch (a : ascii) : char := N_of_ascii a.

Fixpoint eqb (a b : str) : bool :=
  match a, b with
  | [], [] => true
  | x :: a', y :: b' => N.eqb x y && eqb a' b'
  | _, _ => false
  end.

(** [c in "..."] for a set of characters. *)
Definition mem (c : char) (l : list char) : bool :=
  existsb (N.eqb c) l.

(** [s in [l1, l2, ...]] on strings. *)
Definition str_in (s : str) (l : list str) : bool :=
  existsb (eqb s) l.

(** [Py_UNICODE_ISSPACE]: the code points that [str.strip], [str.isspace]
    and the [\s] class of a [str] pattern treat as white space. *)
Definition isspace (c : char) : bool :=
  ((9 <=? c) && (c <=? 13) || (28 <=? c) && (c <=? 32)
   || (c =? 133) || (c =? 160) || (c =? 5760)
   || (8192 <=? c) && (c <=? 8202)
   || (c =? 8232) || (c =? 8233) || (c =? 8239) || (c =? 8287)
   || (c =? 12288))%N.

Definition is_lower (c : char) : bool := ((97 <=? c) && (c <=? 122))%N.
Definition is_upper (c : char) : bool := ((65 <=? c) && (c <=? 90))%N.
Definition is_alpha (c : char) : bool := is_lower c || is_upper c.

Definition to_upper (c : char) : char := if is_lower c then (c - 32)%N else c.
Definition to_lower (c : char) : char := if is_upper c then (c + 32)%N else c.

(** [s.lstrip()], [s.rstrip()], [s.strip()] *)
Fixpoint lstrip (s : str) : str :=
  match s with
  | c :: s' => if isspace c then lstrip s' else s
  | [] => []
  end.

Definition rstrip (s : str) : str := rev (lstrip (rev s)).

Definition strip (s : str) : str := rstrip (lstrip s).

(** [s.startswith(p)] *)
Fixpoint startswith (s p : str) : bool :=
  match p, s with
  | [], _ => true
  | a :: p', b :: s' => N.eqb a b && startswith s' p'
  | _ :: _, [] => false
  end.

(** [s.split(sep)] for a one-character separator: empty fields are kept. *)
Fixpoint split_on (sep : char) (s : str) : list str :=
  match s with
  | [] => [[]]
  | c :: s' =>
      if N.eqb c sep then [] :: split_on sep s'
      else match split_on sep s' with
           | f :: fs => (c :: f) :: fs
           | [] => [[c]]
           end
  end.

(** [sep.join(l)] *)
Fixpoint join (sep : str) (l : list str) : str :=
  match l with
  | [] => []
  | [x] => x
  | x :: l' => x ++ sep ++ join sep l'
  end.

(** [s.replace(old, new)] for a non-empty [old]: occurrences are replaced
    from left to right and do not overlap. *)
Fixpoint replace_aux (old new : str) (skip : nat) (s : str) : str :=
  match s with
  | [] => []
  | c :: s' =>
      match skip with
      | S k => replace_aux old new k s'
      | O =>
          if startswith s old
          then new ++ replace_aux old new (List.length old - 1) s'
          else c :: replace_aux old new 0 s'
      end
  end.

Definition replace (old new s : str) : str := replace_aux old new 0 s.

(** [s.title()]: a cased character is upper-cased when the character
    before it is not cased, lower-cased otherwise.  Only the ASCII
    letters are taken as cased here; the source calls [title] on keys
    that were just found equal to an all-lower-case ASCII literal. *)
Fixpoint title_aux (prev_cased : bool) (s : str) : str :=
  match s with
  | [] => []
  | c :: s' =>
      if is_alpha c
      then (if prev_cased then to_lower c else to_upper c) :: title_aux true s'
      else c :: title_aux false s'
  end.

Definition title (s : str) : str := title_aux false s.

(** ["c" * n] *)
Definition times (c : str) (n : Z) : str :=
  concat (repeat c (Z.to_nat n)).

End Str.

(** ** Regular expressions

    The patterns of the source are kept as syntax trees.  The flags a
    pattern is compiled with ([re.DOTALL], [re.M]) are recorded at the
    nodes they change: [Dot], [Bol] and [Eol]. *)

Module Re.
Import Str.

Inductive set_item :=
| IRange (lo hi : char)      (* a-z; a single character is a-a *)
| ISpace                     (* \s *)
| INotSpace.                 (* \S *)

Inductive cls :=
| Dot (dotall : bool)        (* .  *)
| Lit (c : char)             (* a literal character *)
| Space                      (* \s *)
| CSet (negated : bool) (items : list set_item).  (* [...] and [^...] *)

Inductive re :=
| Eps
| Chr (c : cls)
| Seq (r1 r2 : re)
| Alt (r1 r2 : re)                                   (* r1|r2 *)
| Rep (lo : nat) (hi : option nat) (greedy : bool) (r : re)
                                 (* r{lo,hi}, r{lo,}; lazy when not greedy *)
| Grp (i : nat) (r : re)                             (* i-th capturing group *)
| Look (r : re)                                      (* (?=r) *)
| Bol (multiline : bool)                             (* ^ *)
| Eol (multiline : bool).                            (* $ *)

Definition item_test (i : set_item) (c : char) : bool :=
  match i with
  | IRange lo hi => ((lo <=? c) && (c <=? hi))%N
  | ISpace => isspace c
  | INotSpace => negb (isspace c)
  end.

Definition cls_test (k : cls) (c : char) : bool :=
  match k with
  | Dot dotall => dotall || negb (N.eqb c 10)
  | Lit a => N.eqb c a
  | Space => isspace c
  | CSet negated items => xorb negated (existsb (fun i => item_test i c) items)
  end.

(** The matcher's state: the position in the subject, the character
    before it, the text from it on, and the groups captured so far. *)
Record state := mkState {
  pos : nat;
  prev : option char;
  rest : str;
  caps : list (nat * str)
}.

Definition advance (st : state) (a : char) (t : str) : state :=
  mkState (S (pos st)) (Some a) t (caps st).

Definition set_cap (i : nat) (v : str) (st : state) : state :=
  mkState (pos st) (prev st) (rest st) ((i, v) :: caps st).

Definition with_caps (c : list (nat * str)) (st : state) : state :=
  mkState (pos st) (prev st) (rest st) c.

Fixpoint lookup (i : nat) (c : list (nat * str)) : option str :=
  match c with
  | [] => None
  | (j, v) :: c' => if Nat.eqb i j then Some v else lookup i c'
  end.

Definition at_bol (multiline : bool) (st : state) : bool :=
  match prev st with
  | None => true
  | Some c => multiline && N.eqb c 10
  end.

Definition at_eol (multiline : bool) (st : state) : bool :=
  match rest st with
  | [] => true
  | c :: t => N.eqb c 10 && (multiline || match t with [] => true | _ => false end)
  end.

Definition below (hi : option nat) (n : nat) : bool :=
  match hi with
  | None => true
  | Some h => Nat.ltb n h
  end.

(** A repetition [r{lo,hi}].  [body] runs one iteration of [r]; [n] counts
    the iterations done.  Below [lo] one more iteration is the only way
    on; from [lo] on a greedy repetition first tries one more iteration
    and then the continuation [k], a lazy one the other way round.  An
    iteration beyond the minimum that consumes nothing is abandoned, so
    [lo + 1 +] the number of remaining characters bounds the depth. *)
Fixpoint rep_loop (body : state -> (state -> option state) -> option state)
    (lo : nat) (hi : option nat) (greedy : bool) (k : state -> option state)
    (fuel n : nat) (st : state) {struct fuel} : option state :=
  match fuel with
  | O => None
  | S fuel' =>
      let again :=
        if below hi n
        then body st (fun st' =>
               if Nat.ltb n lo || Nat.ltb (pos st) (pos st')
               then rep_loop body lo hi greedy k fuel' (S n) st'
               else None)
        else None in
      if Nat.ltb n lo then again
      else if greedy
           then match again with Some e => Some e | None => k st end
           else match k st with Some e => Some e | None => again end
  end.

(** Backtracking matcher in continuation-passing style: [run r st k]
    tries the ways [r] can match at [st] in the order of preference of
    [re] (left alternative first, more iterations first when greedy,
    fewer first when lazy) and returns the first result that the
    continuation [k] accepts. *)
Fixpoint run (r : re) (st : state) (k : state -> option state) {struct r}
  : option state :=
  match r with
  | Eps => k st
  | Chr c =>
      match rest st with
      | a :: t => if cls_test c a then k (advance st a t) else None
      | [] => None
      end
  | Seq r1 r2 => run r1 st (fun st1 => run r2 st1 k)
  | Alt r1 r2 =>
      match run r1 st k with
      | Some e => Some e
      | None => run r2 st k
      end
  | Rep lo hi greedy r1 =>
      rep_loop (run r1) lo hi greedy k (lo + S (List.length (rest st))) O st
  | Grp i r1 =>
      run r1 st (fun st' =>
        k (set_cap i (firstn (pos st' - pos st) (rest st)) st'))
  | Look r1 =>
      match run r1 st (fun st' => Some st') with
      | Some st' => k (with_caps (caps st') st)
      | None => None
      end
  | Bol m => if at_bol m st then k st else None
  | Eol m => if at_eol m st then k st else None
  end.

(** A match object: [m.start()], [m.end()], [m.group(0)] and the groups. *)
Record mtch := mkMatch {
  m_start : nat;
  m_end : nat;
  m_text : str;
  m_caps : list (nat * str)
}.

(** [m.group(i)]; [None] when the group took no part in the match. *)
Definition group (i : nat) (m : mtch) : option str := lookup i (m_caps m).

Definition mk_match (st e : state) : mtch :=
  mkMatch (pos st) (pos e) (firstn (pos e - pos st) (rest st)) (caps e).

(** One attempt at the position of [st].  With [must_advance] an empty
    match is refused, and the matcher backtracks for a longer one. *)
Definition match_at (r : re) (must_advance : bool) (st : state) : option state :=
  run r st (fun e => if must_advance && Nat.eqb (pos e) (pos st)
                     then None else Some e).

(** The matches that start at the position of [st], and how many of the
    following characters the last of them covers beyond the first.  After
    an empty match the same position is tried once more for a non-empty
    one, as [re] does since Python 3.7. *)
Definition matches_here (r : re) (st : state) : list mtch * nat :=
  match match_at r false st with
  | None => ([], O)
  | Some e =>
      if Nat.eqb (pos e) (pos st)
      then match match_at r true st with
           | Some e2 => ([mk_match st e; mk_match st e2], pos e2 - pos st - 1)
           | None => ([mk_match st e], O)
           end
      else ([mk_match st e], pos e - pos st - 1)
  end.

(** The scan of [re.finditer]: left to right, matches do not overlap.
    [skip] counts the characters still covered by the last match. *)
Fixpoint scan (r : re) (p : nat) (pv : option char) (s : str) (skip : nat)
  : list mtch :=
  let here :=
    match skip with
    | S k => ([], k)
    | O => matches_here r (mkState p pv s [])
    end in
  fst here ++
  match s with
  | [] => []
  | c :: s' => scan r (S p) (Some c) s' (snd here)
  end.

(** [re.finditer(r, s)] *)
Definition finditer (r : re) (s : str) : list mtch := scan r O None s O.

(** [re.match(r, s)] *)
Definition rmatch (r : re) (s : str) : option mtch :=
  let st := mkState O None s [] in
  option_map (mk_match st) (match_at r false st).

(** A replacement template: literal text and group references. *)
Inductive titem :=
| TLit (s : str)
| TGrp (i : nat).

Definition expand (t : list titem) (m : mtch) : str :=
  concat (List.map (fun i =>
            match i with
            | TLit s => s
            | TGrp g => match group g m with Some v => v | None => [] end
            end) t).

(** The text between the matches and the replacement of each: the
    pieces are cut out of [s], whose first character is at [p]. *)
Fixpoint sub_pieces (t : list titem) (ms : list mtch) (p : nat) (s : str) : str :=
  match ms with
  | [] => s
  | m :: ms' =>
      firstn (m_start m - p) s ++ expand t m
      ++ sub_pieces t ms' (m_end m) (skipn (m_end m - p) s)
  end.

(** [re.sub(r, t, s)] *)
Definition sub (r : re) (t : list titem) (s : str) : str :=
  sub_pieces t (finditer r s) O s.

Fixpoint split_pieces (ms : list mtch) (p : nat) (s : str) : list str :=
  match ms with
  | [] => [s]
  | m :: ms' =>
      firstn (m_start m - p) s :: split_pieces ms' (m_end m) (skipn (m_end m - p) s)
  end.

(** [re.split(r, s, maxsplit)] for a pattern without capturing groups;
    [maxsplit = 0] asks for every split. *)
Definition split (r : re) (s : str) (maxsplit : nat) : list str :=
  let ms := finditer r s in
  split_pieces (match maxsplit with O => ms | S _ => firstn maxsplit ms end) O s.

(** Helpers to write patterns. *)
Definition cat (l : list re) : re := fold_right Seq Eps l.
Definition lits (s : string) : re := cat (List.map (fun c => Chr (Lit c)) (lit s)).
Definition star (r : re) : re := Rep 0 None true r.
Definition star_lazy (r : re) : re := Rep 0 None false r.
Definition plus (r : re) : re := Rep 1 None true r.
Definition one (c : ascii) : set_item := IRange (ch c) (ch c).

End Re.

(** ** The converter *)

Module JavadocToMarkdown.
Import Str Re.

Definition nl : char := 10%N.
Definition tab : char := 9%N.
Definition cr : char := 13%N.
(** The dash of the entries of a parameter or an exception, U+2014. *)
Definition emdash : char := 8212%N.

(** A tag [{'key': ..., 'value': ...}] and a section
    [{'line': ..., 'doc': ...}]. *)
Record tag := mkTag { key : str; value : str }.
Record section := mkSection { line : str; doc : str }.

(** [assoc_buffer]: a [dict] from group name to its entries; a [dict]
    keeps its keys in the order they were inserted, which the renderer
    observes, so it is an association list with distinct keys.  An entry
    is a string or [None]. *)
Definition buffer := list (str * list (option str)).

(** [add_to_buffer]: the entry goes to the end of its group's list; a
    group that is not there yet is added after the others. *)
Fixpoint add_to_buffer (k : str) (v : option str) (assoc_buffer : buffer)
  : buffer :=
  match assoc_buffer with
  | [] => [(k, [v])]
  | (k', es) :: b' =>
      if Str.eqb k k' then (k', es ++ [v]) :: b'
      else (k', es) :: add_to_buffer k v b'
  end.

(** [\s+] *)
Definition re_spaces : re := plus (Chr Space).

(** [_tokenize(text, split_by_regex, limit)].  Nothing in the guarded
    block raises on a string, so the handler is never entered. *)
Definition _tokenize (text : str) (split_by_regex : re) (limit : nat)
  : list str :=
  match text with
  | [] => repeat [] limit
  | _ :: _ =>
      firstn limit
        (Re.split split_by_regex (strip text) (limit - 1) ++ repeat [] limit)
  end.

(** [f'`{tokens[0]}` — {tokens[1]}']; [None] stands for the [IndexError]
    of an index out of range. *)
Definition type_entry (tokens : list str) : option str :=
  match nth_error tokens 0, nth_error tokens 1 with
  | Some t0, Some t1 =>
      Some (lit "`" ++ t0 ++ lit "` " ++ [emdash] ++ lit " " ++ t1)
  | _, _ => None
  end.

(** [process_tags(tag, assoc_buffer)]: the new contents of the buffer, or
    [None] when the call raises. *)
Definition process_tags (t : tag) (assoc_buffer : buffer) : option buffer :=
  let key := key t in
  let value := value t in
  if str_in key [lit "abstract"; lit "access"; lit "author"; lit "copyright";
                 lit "exports"; lit "license"; lit "link"; lit "package";
                 lit "since"; lit "static"; lit "subpackage"]
  then Some (add_to_buffer (title key) (Some value) assoc_buffer)
  else if str_in key [lit "constructor"; lit "deprecated"; lit "private"]
  then Some (add_to_buffer (title key) None assoc_buffer)
  else if str_in key [lit "exception"; lit "throws"]
  then
    let tokens := _tokenize value re_spaces 2 in
    match type_entry tokens with
    | Some e => Some (add_to_buffer (lit "Exceptions") (Some e) assoc_buffer)
    | None => None
    end
  else if Str.eqb key (lit "param")
  then
    let tokens := _tokenize value re_spaces 2 in
    match type_entry tokens with
    | Some e => Some (add_to_buffer (lit "Parameters") (Some e) assoc_buffer)
    | None => None
    end
  else if str_in key [lit "return"; lit "returns"]
  then Some (add_to_buffer (lit "Returns") (Some value) assoc_buffer)
  else if Str.eqb key (lit "see")
  then Some (add_to_buffer (lit "See also") (Some value) assoc_buffer)
  else if Str.eqb key (lit "this")
  then Some (add_to_buffer (lit "This")
               (Some (lit "`" ++ value ++ lit "`")) assoc_buffer)
  else if Str.eqb key (lit "todo")
  then Some (add_to_buffer (lit "To-do") (Some value) assoc_buffer)
  else if Str.eqb key (lit "version")
  then Some (add_to_buffer (lit "Version") (Some value) assoc_buffer)
  else Some assoc_buffer.

(** [f"{entry}"]: [None] is formatted as its name. *)
Definition fmt (e : option str) : str :=
  match e with
  | Some s => s
  | None => lit "None"
  end.

(** [_from_tag_group(name, entries)] *)
Definition _from_tag_group (name : str) (entries : list (option str)) : str :=
  [nl] ++
  match entries with
  | [None] => lit " * **" ++ name ++ lit "**"
  | _ =>
      lit " * **" ++ name ++ lit ":**" ++
      match entries with
      | _ :: _ :: _ =>
          concat (List.map (fun entry => [nl] ++ lit "   * " ++ fmt entry) entries)
      | [e] => lit " " ++ fmt e
      | [] => []
      end
  end.

(** [_clean_line(line)] *)
Definition _clean_line (line : str) : str :=
  Re.sub re_spaces [TLit (lit " ")] (strip line).

(** [_clean_single_line(line)], with the pattern [[\n\r\t]] *)
Definition _clean_single_line (line : str) : str :=
  Re.sub (Chr (CSet false [IRange nl nl; IRange cr cr; IRange tab tab]))
    [TLit (lit " ")] (_clean_line line).

(** [[{;]\s*$] *)
Definition re_decl_end : re :=
  cat [Chr (CSet false [one "{"; one ";"]); star (Chr Space); Eol false].

(** [_get_field_declaration(line)] *)
Definition _get_field_declaration (line : str) : str :=
  _clean_single_line (Re.sub re_decl_end [] line).

(** [<\s*?code\s*?>(.*?)<\s*?/\s*?code\s*?>] *)
Definition re_code : re :=
  cat [lits "<"; star_lazy (Chr Space); lits "code"; star_lazy (Chr Space);
       lits ">"; Grp 1 (star_lazy (Chr (Dot false)));
       lits "<"; star_lazy (Chr Space); lits "/"; star_lazy (Chr Space);
       lits "code"; star_lazy (Chr Space); lits ">"].

(** [_replace_html_with_markdown(html)] *)
Definition _replace_html_with_markdown (html : str) : str :=
  Re.sub re_code [TLit (lit "`"); TGrp 1; TLit (lit "`")] html.

(** [^\s*\*\s*], [^\s*/\*+\s*] and [\s*\*+/\s*$] *)
Definition re_lead_star : re :=
  cat [Bol false; star (Chr Space); lits "*"; star (Chr Space)].
Definition re_open : re :=
  cat [Bol false; star (Chr Space); lits "/"; plus (Chr (Lit (ch "*")));
       star (Chr Space)].
Definition re_close : re :=
  cat [star (Chr Space); plus (Chr (Lit (ch "*"))); lits "/";
       star (Chr Space); Eol false].

Definition clean_description_line (line : str) : str :=
  Re.sub re_close [] (Re.sub re_open [] (Re.sub re_lead_star [] line)).

(** [_get_doc_description(doc_lines)] *)
Definition _get_doc_description (doc_lines : str) : str :=
  let clean_lines :=
    flat_map (fun line =>
                let line := clean_description_line line in
                match strip line with
                | [] => []
                | _ :: _ => [strip line]
                end)
             (split_on nl doc_lines) in
  let description := join (lit " ") clean_lines in
  let description := _clean_line description in
  let description := _replace_html_with_markdown description in
  replace (lit "</p>") [nl; nl] (replace (lit "<p>") [nl; nl] description).

(** The pattern of a tag block: [^(?:\t| )*?@], then the key [[a-zA-Z]+] as
    group 1 and the remainder [[\s\S]*] as group 2. *)
Definition blank : re := Alt (Chr (Lit tab)) (Chr (Lit (ch " "))).
Definition re_tag : re :=
  cat [Bol false; star_lazy blank; lits "@";
       Grp 1 (plus (Chr (CSet false [IRange (ch "a") (ch "z");
                                     IRange (ch "A") (ch "Z")])));
       Grp 2 (star (Chr (CSet false [ISpace; INotSpace])))].

(** [[\r\n]{1,2}(?:\t| )*?\*(?:\t| )*] *)
Definition re_wrap : re :=
  cat [Rep 1 (Some 2) true (Chr (CSet false [IRange cr cr; IRange nl nl]));
       star_lazy blank; lits "*"; star blank].

(** The body of the loop of [_get_doc_tags]: the tag of one block, if
    the block has the shape of a tag. *)
Definition doc_tag (line : str) : option tag :=
  match rmatch re_tag line with
  | Some m =>
      let k := match group 1 m with Some g => g | None => [] end in
      let v := match group 2 m with Some g => g | None => [] end in
      let v := match v with [] => [] | _ :: _ => strip v end in
      let v := Re.sub re_wrap [TLit ([nl; nl] ++ lit "     ")] v in
      Some (mkTag (_clean_single_line k) v)
  | None => None
  end.

(** [_get_doc_tags(doc_lines)] *)
Definition _get_doc_tags (doc_lines : list str) : list tag :=
  flat_map (fun line => match doc_tag line with
                        | Some t => [t]
                        | None => []
                        end) doc_lines.

(** [^(?:\t| )*?\*(?:\t| )*?(?=@)] with [re.M] *)
Definition re_tag_start : re :=
  cat [Bol true; star_lazy blank; lits "*"; star_lazy blank; Look (lits "@")].

(** The loop [for tag in tags: fn_add_tags_markdown(tag, assoc_buffer)];
    it stops at the first call that raises. *)
Fixpoint add_tags (fn_add_tags_markdown : tag -> buffer -> option buffer)
    (tags : list tag) (assoc_buffer : buffer) : option buffer :=
  match tags with
  | [] => Some assoc_buffer
  | t :: tags' =>
      match fn_add_tags_markdown t assoc_buffer with
      | Some b => add_tags fn_add_tags_markdown tags' b
      | None => None
      end
  end.

(** The groups of the buffer, rendered in the order of the buffer. *)
Definition render_groups (assoc_buffer : buffer) : str :=
  concat (List.map (fun g => _from_tag_group (fst g) (snd g)) assoc_buffer).

(** [_from_section(section, headings_level, fn_add_tags_markdown)]; [None]
    when the tag callback raises. *)
Definition _from_section (s : section) (headings_level : Z)
    (fn_add_tags_markdown : tag -> buffer -> option buffer) : option str :=
  let field := _get_field_declaration (line s) in
  match field with
  | [] => Some []
  | _ :: _ =>
      let out := [nl; nl] ++ times (lit "#") (headings_level + 1)
                 ++ lit " `" ++ field ++ lit "`" in
      let doc_comment_parts := Re.split re_tag_start (doc s) 0 in
      let raw_main_description := hd [] doc_comment_parts in
      let raw_tags := tl doc_comment_parts in
      let description := _get_doc_description raw_main_description in
      let out :=
        match description with
        | [] => out
        | _ :: _ => out ++ [nl; nl] ++ description
        end in
      let tags := _get_doc_tags raw_tags in
      match tags with
      | [] => Some out
      | _ :: _ =>
          match add_tags fn_add_tags_markdown tags [] with
          | Some assoc_buffer => Some (out ++ [nl] ++ render_groups assoc_buffer)
          | None => None
          end
      end
  end.

(** [/\*\*(.*?)\*/\s*([^{;]*(?:[{;]|$))] with [re.DOTALL] *)
Definition re_section : re :=
  cat [lits "/**"; Grp 1 (star_lazy (Chr (Dot true))); lits "*/";
       star (Chr Space);
       Grp 2 (cat [star (Chr (CSet true [one "{"; one ";"]));
                   Alt (Chr (CSet false [one "{"; one ";"])) (Eol false)])].

(** [/\*\*(.*?)\*/] with [re.DOTALL] *)
Definition re_comment : re :=
  cat [lits "/**"; Grp 1 (star_lazy (Chr (Dot true))); lits "*/"].

(** [match.group(i) if match.group(i) else ""] *)
Definition group_or_empty (i : nat) (m : mtch) : str :=
  match group i m with
  | Some g => g
  | None => []
  end.

Definition is_empty (s : str) : bool :=
  match s with
  | [] => true
  | _ :: _ => false
  end.

(** The body of the first loop of [_get_sections]: the section a match of
    the primary pattern appends, or [None] when the loop goes on to the
    next match without appending. *)
Definition primary_section (m : mtch) : option section :=
  let doc_comment := group_or_empty 1 m in
  let code_section := group_or_empty 2 m in
  if is_empty doc_comment || is_empty code_section then None
  else
    let code_section := strip code_section in
    if startswith code_section (lit "import") then None
    else
      let doc_comment :=
        if negb (startswith (strip doc_comment) (lit "*"))
        then lit "* " ++ strip doc_comment
        else doc_comment in
      Some (mkSection code_section doc_comment).

(** The inner loop of the fallback: the first line that is not blank. *)
Fixpoint first_nonblank (next_lines : list str) : option str :=
  match next_lines with
  | [] => None
  | l :: ls =>
      match strip l with
      | [] => first_nonblank ls
      | _ :: _ => Some (strip l)
      end
  end.

(** The body of the fallback loop of [_get_sections]. *)
Definition fallback_section (code : str) (m : mtch) : option section :=
  let doc_comment := group_or_empty 1 m in
  if is_empty doc_comment then None
  else
    let end_pos := m_end m in
    let next_lines := split_on nl (skipn end_pos code) in
    match first_nonblank next_lines with
    | Some l => Some (mkSection l doc_comment)
    | None => None
    end.

(** A loop that appends what its body yields. *)
Definition collect {A B : Type} (body : A -> option B) (l : list A) : list B :=
  flat_map (fun x => match body x with
                     | Some y => [y]
                     | None => []
                     end) l.

(** [_get_sections(code)] *)
Definition _get_sections (code : str) : list section :=
  let sections := collect primary_section (finditer re_section code) in
  match sections with
  | [] => collect (fallback_section code) (finditer re_comment code)
  | _ :: _ => sections
  end.

(** The loop of [_from_doc] over the sections; it stops when rendering one
    raises. *)
Fixpoint from_sections (sections : list section) (headings_level : Z)
    (fn_add_tags_markdown : tag -> buffer -> option buffer)
  : option (list str) :=
  match sections with
  | [] => Some []
  | s :: rest =>
      match _from_section s headings_level fn_add_tags_markdown with
      | Some f =>
          option_map (cons f)
            (from_sections rest headings_level fn_add_tags_markdown)
      | None => None
      end
  end.

(** [_from_doc(code, headings_level, fn_add_tags_markdown)] *)
Definition _from_doc (code : str) (headings_level : Z)
    (fn_add_tags_markdown : tag -> buffer -> option buffer) : option str :=
  let sections := _get_sections code in
  match from_sections sections headings_level fn_add_tags_markdown with
  | Some frags =>
      Some (times (lit "#") headings_level ++ lit " Documentation"
            ++ concat frags ++ [nl])
  | None => None
  end.

(** [from_javadoc(code, headings_level)] *)
Definition from_javadoc (code : str) (headings_level : Z) : option str :=
  _from_doc code headings_level process_tags.

End JavadocToMarkdown.

(** ** Notions used to state the properties *)

Module Spec.
Import Str Re JavadocToMarkdown.

(** What one tag contributes to the buffer: the group it goes to and
    its entry, read off [process_tags] run on an empty buffer. *)
Definition contribution (t : tag) : option (str * option str) :=
  match process_tags t [] with
  | Some [(g, [e])] => Some (g, e)
  | _ => None
  end.

Definition contributions (tags : list tag) : list (str * option str) :=
  flat_map (fun t => match contribution t with
                     | Some c => [c]
                     | None => []
                     end) tags.

(** The distinct names of a list, each at the place of its first
    occurrence. *)
Fixpoint first_occurrences (l : list str) : list str :=
  match l with
  | [] => []
  | x :: l' => x :: filter (fun y => negb (Str.eqb y x)) (first_occurrences l')
  end.

(** The entries of group [g], in the order of the list. *)
Definition entries_of (g : str) (cs : list (str * option str))
  : list (option str) :=
  List.map snd (filter (fun c => Str.eqb (fst c) g) cs).

(** Groups in first-occurrence order, each with its entries in source
    order. *)
Definition grouped (cs : list (str * option str)) : buffer :=
  List.map (fun g => (g, entries_of g cs)) (first_occurrences (List.map fst cs)).

(** The tags of a section and the part of its fragment before the tag
    groups, as [_from_section] computes them. *)
Definition section_tags (s : section) : list tag :=
  _get_doc_tags (tl (Re.split re_tag_start (doc s) 0)).

Definition section_head (s : section) (headings_level : Z) : str :=
  let out := [nl; nl] ++ times (lit "#") (headings_level + 1)
             ++ lit " `" ++ _get_field_declaration (line s) ++ lit "`" in
  match _get_doc_description (hd [] (Re.split re_tag_start (doc s) 0)) with
  | [] => out
  | d => out ++ [nl; nl] ++ d
  end.

(** The keys of the policy of [process_tags]. *)
Definition marker_keys : list str :=
  [lit "constructor"; lit "deprecated"; lit "private"].

Definition policy_keys : list str :=
  [lit "abstract"; lit "access"; lit "author"; lit "copyright";
   lit "exports"; lit "license"; lit "link"; lit "package";
   lit "since"; lit "static"; lit "subpackage";
   lit "constructor"; lit "deprecated"; lit "private";
   lit "exception"; lit "throws"; lit "param"; lit "return"; lit "returns";
   lit "see"; lit "this"; lit "todo"; lit "version"].

(** Lines joined by newlines, to write inputs. *)
Definition lines (l : list string) : str := join [nl] (List.map lit l).

#[local] Set Warnings "-register-all".

(** Declarative reading of the patterns: [Matches r st e] when [r] can
    take the matcher from [st] to [e], whatever the order of
    preference. *)
Inductive iter (R : state -> state -> Prop) : nat -> state -> state -> Prop :=
| iter_O st : iter R O st st
| iter_S n st st1 st2 : R st st1 -> iter R n st1 st2 -> iter R (S n) st st2.

Inductive Matches : re -> state -> state -> Prop :=
| MEps st : Matches Eps st st
| MChr c st a t :
    rest st = a :: t -> cls_test c a = true ->
    Matches (Chr c) st (advance st a t)
| MSeq r1 r2 st st1 st2 :
    Matches r1 st st1 -> Matches r2 st1 st2 -> Matches (Seq r1 r2) st st2
| MAltL r1 r2 st e : Matches r1 st e -> Matches (Alt r1 r2) st e
| MAltR r1 r2 st e : Matches r2 st e -> Matches (Alt r1 r2) st e
| MRep lo hi g r n st e :
    iter (Matches r) n st e -> lo <= n ->
    (forall h, hi = Some h -> n <= h) ->
    Matches (Rep lo hi g r) st e
| MGrp i r st e :
    Matches r st e ->
    Matches (Grp i r) st (set_cap i (firstn (pos e - pos st) (rest st)) e)
| MLook r st e : Matches r st e -> Matches (Look r) st (with_caps (caps e) st)
| MBol m st : at_bol m st = true -> Matches (Bol m) st st
| MEol m st : at_eol m st = true -> Matches (Eol m) st st.

(** The matcher moved over one character, and over [n] characters. *)
Definition step (st : state) : state :=
  match rest st with
  | a :: t => advance st a t
  | [] => st
  end.

Fixpoint steps (n : nat) (st : state) : state :=
  match n with
  | O => st
  | S n' => steps n' (step st)
  end.

(** The number of leading characters of [s] in the class [c]. *)
Fixpoint span (c : cls) (s : str) : nat :=
  match s with
  | a :: s' => if cls_test c a then S (span c s') else O
  | [] => O
  end.

(** The text before the first white space, and the text from it on. *)
Fixpoint take_nonspace (s : str) : str :=
  match s with
  | c :: s' => if isspace c then [] else c :: take_nonspace s'
  | [] => []
  end.

Fixpoint drop_nonspace (s : str) : str :=
  match s with
  | c :: s' => if isspace c then s else drop_nonspace s'
  | [] => []
  end.

(** The start and end of each match. *)
Definition spans (ms : list mtch) : list (nat * nat) :=
  List.map (fun m => (m_start m, m_end m)) ms.

(** The number of entries of a buffer, over all its groups. *)
Definition entry_count (b : buffer) : nat :=
  list_sum (List.map (fun g => List.length (snd g)) b).

(** The tags whose key is in the policy. *)
Definition recognised (tags : list tag) : list tag :=
  filter (fun t => str_in (key t) policy_keys) tags.

(** [p in s] for strings: [p] occurs in [s]. *)
Fixpoint has_sub (p s : str) : bool :=
  startswith s p ||
  match s with
  | [] => false
  | _ :: s' => has_sub p s'
  end.

(** The words of a string, as [s.split()] gives them: the maximal runs
    of characters that are not white space. *)
Fixpoint words (s : str) : list str :=
  match s with
  | [] => []
  | c :: s' =>
      if isspace c then words s'
      else match s' with
           | [] => [[c]]
           | d :: _ =>
               if isspace d then [c] :: words s'
               else match words s' with
                    | w :: ws => (c :: w) :: ws
                    | [] => [[c]]
                    end
           end
  end.

(** Each run of white space replaced by one space; [in_space] tells that
    the run has begun. *)
Fixpoint collapse_aux (in_space : bool) (s : str) : str :=
  match s with
  | [] => []
  | c :: s' =>
      if isspace c
      then if in_space then collapse_aux true s'
           else ch " " :: collapse_aux true s'
      else c :: collapse_aux false s'
  end.

(** The characters that end a declaration. *)
Definition is_terminator (c : char) : bool :=
  N.eqb c (ch "{") || N.eqb c (ch ";").

(** A line of a comment without the star that leads it, if it has one. *)
Definition unstar (l : str) : str :=
  match lstrip l with
  | c :: r => if N.eqb c (ch "*") then r else l
  | [] => l
  end.

(** A tab or a space. *)
Definition is_blank (c : char) : bool := N.eqb c tab || N.eqb c (ch " ").

(** The character before the position that follows [x], when the one
    before [x] is [pv]. *)
Definition prev_after (x : str) (pv : option char) : option char :=
  last (List.map Some x) pv.

(** A tag line of a comment: blanks, a star, blanks, and the block that
    begins with [@]. *)
Record tag_line := mkTagLine { lead1 : str; lead2 : str; block : str }.

Definition line_text (t : tag_line) : str :=
  lead1 t ++ ch "*" :: lead2 t ++ block t.

Definition lines_text (ts : list tag_line) : str :=
  concat (List.map line_text ts).

(** The tag lines are well formed: blanks around the star, a block that
    begins with its only [@], and a newline at the end of every block
    but the last. *)
Fixpoint tag_lines_ok (ts : list tag_line) : Prop :=
  match ts with
  | [] => True
  | t :: ts' =>
      forallb is_blank (lead1 t) = true
      /\ forallb is_blank (lead2 t) = true
      /\ (exists r, block t = ch "@" :: r /\ ~ In (ch "@") r)
      /\ (ts' = [] \/ last (block t) nl = nl)
      /\ tag_lines_ok ts'
  end.

(** The key of a tag block [@key text]: the letters after the [@]; and
    its text, what follows them. *)
Definition tag_key (b : str) : str :=
  firstn (span (CSet false [IRange (ch "a") (ch "z"); IRange (ch "A") (ch "Z")])
            (tl b)) (tl b).

Definition tag_text (b : str) : str :=
  skipn (span (CSet false [IRange (ch "a") (ch "z"); IRange (ch "A") (ch "Z")])
           (tl b)) (tl b).

Definition tag_of_block (b : str) : tag := mkTag (tag_key b) (strip (tag_text b)).

(** A block with a key, whose trimmed text is on one line. *)
Definition one_line_block (b : str) : Prop :=
  tag_key b <> []
  /\ forall a, In a (strip (tag_text b)) -> a <> cr /\ a <> nl.

(** A documented declaration in a source: the text before the comment,
    the body of the comment, the white space after it, the declaration
    and its terminator. *)
Record documented := mkDocumented {
  before : str; comment : str; gap : str; declaration : str; terminator : char
}.

Definition documented_text (d : documented) : str :=
  before d ++ lit "/**" ++ comment d ++ lit "*/" ++ gap d
  ++ declaration d ++ [terminator d].

Definition documented_ok (d : documented) : Prop :=
  has_sub (lit "/**") (before d) = false
  /\ comment d <> []
  /\ has_sub (lit "*/") (comment d) = false
  /\ forallb isspace (gap d) = true
  /\ span Space (declaration d) = 0
  /\ forallb (fun a => negb (is_terminator a)) (declaration d) = true
  /\ is_terminator (terminator d) = true
  /\ startswith (declaration d ++ [terminator d]) (lit "import") = false.

Definition documented_section (d : documented) : section :=
  mkSection (declaration d ++ [terminator d])
    (if startswith (strip (comment d)) (lit "*") then comment d
     else lit "* " ++ strip (comment d)).

(** The characters that break a line. *)
Definition is_break (c : char) : bool := N.eqb c cr || N.eqb c nl.

(** A continuation line in the value of a tag: the line break of one or
    two characters, the blanks before the star, the blanks after it,
    and the text, which has no line break and begins with no blank. *)
Record continuation := mkContinuation {
  cbreak : str; cindent : str; cmargin : str; ctext : str
}.

Definition continuation_text (c : continuation) : str :=
  cbreak c ++ cindent c ++ ch "*" :: cmargin c ++ ctext c.

Definition continuation_ok (c : continuation) : bool :=
  (Nat.eqb (List.length (cbreak c)) 1 || Nat.eqb (List.length (cbreak c)) 2)
  && forallb is_break (cbreak c)
  && forallb is_blank (cindent c)
  && forallb is_blank (cmargin c)
  && forallb (fun a => negb (is_break a)) (ctext c)
  && match ctext c with
     | [] => true
     | a :: _ => negb (is_blank a)
     end.

End Spec.

(** * Properties *)

Import Str Re JavadocToMarkdown Spec.
Local Open Scope string_scope.
Local Open Scope list_scope.

(** ** The matcher on small subjects *)

(** [a*] on [baac]: empty matches are found next to non-empty ones. *)
Example finditer_star_a :
  spans (finditer (star (Chr (Lit (ch "a")))) (lit "baac"))
  = [(0, 0); (1, 3); (3, 3); (4, 4)]%nat.
Proof. vm_compute. reflexivity. Qed.

Example split_star_x :
  Re.split (star (Chr (Lit (ch "x")))) (lit "axbc") 0
  = [lit ""; lit "a"; lit ""; lit "b"; lit "c"; lit ""].
Proof. vm_compute. reflexivity. Qed.

(** [$] without [re.M] also matches before a final newline, and a greedy
    [\s*] before it takes the newlines. *)
Example sub_decl_end :
  Re.sub re_decl_end [] (lines ["int x; "; ""]) = lit "int x".
Proof. vm_compute. reflexivity. Qed.

Example tokenize_two :
  _tokenize (lit "x the input value") re_spaces 2 = [lit "x"; lit "the input value"].
Proof. vm_compute. reflexivity. Qed.

Example sections_of_add :
  _get_sections
    (lines ["/** Adds two numbers."; " * @param a first"; " * @param b second";
            " * @return sum */"; "int add(int a, int b) {"])
  = [mkSection (lit "int add(int a, int b) {")
       (lines ["* Adds two numbers."; " * @param a first"; " * @param b second";
               " * @return sum"])].
Proof. vm_compute. reflexivity. Qed.

Example javadoc_of_add :
  from_javadoc
    (lines ["/** Adds two numbers."; " * @param a first"; " * @param b second";
            " * @return sum */"; "int add(int a, int b) {"]) 1
  = Some (lines ["# Documentation"; ""; "## `int add(int a, int b)`"; "";
                 "Adds two numbers."; ""; " * **Parameters:**"]
          ++ [nl] ++ lit "   * `a` " ++ [emdash] ++ lit " first"
          ++ [nl] ++ lit "   * `b` " ++ [emdash] ++ lit " second"
          ++ [nl] ++ lit " * **Returns:** sum" ++ [nl]).
Proof. vm_compute. reflexivity. Qed.

(** ** Strings *)

Lemma eqb_eq (a b : str) : Str.eqb a b = true <-> a = b.
Proof.
  revert b; induction a as [|x a IH]; intros [|y b]; simpl;
    try (split; [discriminate | congruence]); try tauto.
  rewrite andb_true_iff, N.eqb_eq, IH. split.
  - intros [-> ->]; reflexivity.
  - intros H; inversion H; auto.
Qed.

Lemma eqb_refl (a : str) : Str.eqb a a = true.
Proof. apply eqb_eq; reflexivity. Qed.

Lemma eqb_neq (a b : str) : Str.eqb a b = false <-> a <> b.
Proof.
  split.
  - intros H E. apply eqb_eq in E. congruence.
  - intros H. destruct (Str.eqb a b) eqn:E; auto. apply eqb_eq in E. contradiction.
Qed.

Lemma eqb_sym (a b : str) : Str.eqb a b = Str.eqb b a.
Proof.
  destruct (Str.eqb b a) eqn:E.
  - apply eqb_eq in E. subst. apply eqb_refl.
  - apply eqb_neq. apply eqb_neq in E. congruence.
Qed.

Lemma str_in_In (s : str) (l : list str) : str_in s l = true <-> In s l.
Proof.
  unfold str_in. rewrite existsb_exists. split.
  - intros [x [Hx E]]. apply eqb_eq in E. subst; auto.
  - intros H. exists s. split; auto using eqb_refl.
Qed.

(** ** Classification of tags *)

(** An upper-case letter in the key keeps it out of every list of the
    policy. *)
Lemma upper_not_policy (k : str) :
  existsb is_upper k = true -> str_in k policy_keys = false.
Proof.
  intros H. destruct (str_in k policy_keys) eqn:E; auto.
  apply str_in_In in E. unfold policy_keys in E. simpl in E.
  repeat (destruct E as [E|E]; [subst k; vm_compute in H; discriminate|]).
  contradiction.
Qed.

(** A key outside the policy leaves the buffer as it is. *)
Lemma process_tags_unknown (t : tag) (b : buffer) :
  str_in (key t) policy_keys = false -> process_tags t b = Some b.
Proof.
  intros H. unfold policy_keys, str_in in H. simpl in H.
  repeat (apply orb_false_iff in H; destruct H as [? H]).
  unfold process_tags, str_in. simpl.
  repeat match goal with
         | E : Str.eqb _ _ = false |- _ => rewrite E; clear E
         end.
  reflexivity.
Qed.

(** C1, as amended: [process_tags] compares the key with the lower-case
    literals of the policy by plain equality, so a key with an
    upper-case letter, like [Param] or [RETURN], is in no group: the
    tag is dropped and the buffer is left unchanged. *)
Theorem process_tags_case_sensitive (t : tag) (b : buffer) :
  existsb is_upper (key t) = true -> process_tags t b = Some b.
Proof.
  intros H. apply process_tags_unknown. apply upper_not_policy. exact H.
Qed.

Lemma process_tags_case_sensitive_witness :
  existsb is_upper (lit "RETURN") = true /\
  process_tags (mkTag (lit "RETURN") (lit "sum")) [] = Some [].
Proof.
  split; [reflexivity|].
  apply (process_tags_case_sensitive (mkTag (lit "RETURN") (lit "sum")) []).
  reflexivity.
Defined.

(** C1, as stated, fails: the key [Param] is not classified like
    [param]. *)
Lemma process_tags_Param_dropped :
  process_tags (mkTag (lit "Param") (lit "x the input value")) [] = Some []
  /\ process_tags (mkTag (lit "param") (lit "x the input value")) []
     = Some [(lit "Parameters",
              [Some (lit "`x` " ++ [emdash] ++ lit " the input value")])]
  /\ process_tags (mkTag (lit "Param") (lit "x the input value")) []
     <> process_tags (mkTag (List.map to_lower (lit "Param"))
                        (lit "x the input value")) [].
Proof.
  split; [|split]; try (vm_compute; reflexivity).
  vm_compute. discriminate.
Qed.

(** ** The extractor on an import *)

(** C2: a comment block followed by an import statement, alone in the
    input.  The first loop skips the match, the list of sections stays
    empty, and the fallback loop then appends a section whose
    declaration is the import line. *)
Theorem import_only_block_yields_section :
  collect primary_section
    (finditer re_section (lines ["/** doc */"; "import foo;"])) = []
  /\ _get_sections (lines ["/** doc */"; "import foo;"])
     = [mkSection (lit "import foo;") (lit " doc ")].
Proof. split; vm_compute; reflexivity. Qed.

(** With a documented declaration after it the same block yields
    nothing: the fallback loop is not entered. *)
Example import_block_then_class :
  _get_sections (lines ["/** doc */"; "import foo;"; "/** d2 */ class A {"])
  = [mkSection (lit "class A {") (lit "* d2")].
Proof. vm_compute. reflexivity. Qed.

(** C3, as stated, fails: a comment body of one space is empty after
    trimming, and the match is kept. *)
Lemma blank_comment_body_kept :
  List.map (fun m => (strip (group_or_empty 1 m), primary_section m))
    (finditer re_section (lit "/** */ int x;"))
  = [([], Some (mkSection (lit "int x;") (lit "* ")))]
  /\ _get_sections (lit "/** */ int x;")
     = [mkSection (lit "int x;") (lit "* ")].
Proof. split; vm_compute; reflexivity. Qed.

(** ** Marker tags *)

Lemma marker_keys_in (k : str) :
  str_in k marker_keys = true ->
  k = lit "constructor" \/ k = lit "deprecated" \/ k = lit "private".
Proof.
  intros H. apply str_in_In in H. simpl in H.
  destruct H as [H|[H|[H|H]]]; auto. contradiction.
Qed.

Lemma process_tags_marker (k v : str) (b : buffer) :
  str_in k marker_keys = true ->
  process_tags (mkTag k v) b = Some (add_to_buffer (title k) None b).
Proof.
  intros H. apply marker_keys_in in H.
  destruct H as [-> | [-> | ->]]; reflexivity.
Qed.

(** C9: the text after a marker key is discarded.  Whatever the value,
    the tag puts [None] in the group named after the key, so two tags
    with the same marker key change the buffer alike; and a comment
    [@deprecated use foo instead] renders as [@deprecated] does, for
    every declaration and level. *)
Theorem marker_payload_discarded :
  (forall (k v v' : str) (b : buffer),
      str_in k marker_keys = true ->
      process_tags (mkTag k v) b = Some (add_to_buffer (title k) None b)
      /\ process_tags (mkTag k v) b = process_tags (mkTag k v') b)
  /\ (forall (l : str) (h : Z),
         _from_section (mkSection l (lit "* @deprecated use foo instead")) h
           process_tags
         = _from_section (mkSection l (lit "* @deprecated")) h process_tags)
  /\ _from_section (mkSection (lit "void f();")
                      (lit "* @deprecated use foo instead")) 1 process_tags
     = Some ([nl; nl] ++ lit "## `void f()`" ++ [nl; nl]
             ++ lit " * **Deprecated**").
Proof.
  split; [|split].
  - intros k v v' b H. split.
    + apply process_tags_marker; exact H.
    + rewrite !process_tags_marker by exact H. reflexivity.
  - intros l h. unfold _from_section. cbn [line doc].
    destruct (_get_field_declaration l); [reflexivity|].
    reflexivity.
  - vm_compute. reflexivity.
Qed.

Lemma marker_payload_discarded_witness :
  str_in (lit "deprecated") marker_keys = true /\
  process_tags (mkTag (lit "deprecated") (lit "use foo instead")) []
  = process_tags (mkTag (lit "deprecated") []) [].
Proof.
  split; [reflexivity|].
  apply (proj1 marker_payload_discarded
           (lit "deprecated") (lit "use foo instead") [] []).
  reflexivity.
Defined.

(** ** The split of a value never fails *)

Lemma tokenize_length (text : str) (r : re) (limit : nat) :
  List.length (_tokenize text r limit) = limit.
Proof.
  unfold _tokenize. destruct text.
  - apply repeat_length.
  - rewrite length_firstn, length_app, repeat_length. lia.
Qed.

Lemma tokenize_two_tokens (text : str) (r : re) :
  exists t0 t1, _tokenize text r 2 = [t0; t1].
Proof.
  pose proof (tokenize_length text r 2) as H.
  destruct (_tokenize text r 2) as [|t0 [|t1 [|]]]; simpl in H; try discriminate.
  eauto.
Qed.

Lemma type_entry_tokenize (text : str) (r : re) :
  exists e, type_entry (_tokenize text r 2) = Some e.
Proof.
  destruct (tokenize_two_tokens text r) as [t0 [t1 ->]].
  eexists. reflexivity.
Qed.

(** ** Groups and their order *)

(** [process_tags] adds the contribution of the tag, if it has one. *)
Lemma process_tags_contribution (t : tag) (b : buffer) :
  process_tags t b
  = Some (match contribution t with
          | Some (g, e) => add_to_buffer g e b
          | None => b
          end).
Proof.
  unfold contribution, process_tags.
  repeat match goal with
         | |- context [if ?c then _ else _] => destruct c; [simpl; try reflexivity|]
         end;
    try reflexivity;
    destruct (type_entry_tokenize (value t) re_spaces) as [e ->]; reflexivity.
Qed.

Lemma add_tags_contributions (tags : list tag) (b : buffer) :
  add_tags process_tags tags b
  = Some (fold_left (fun b c => add_to_buffer (fst c) (snd c) b)
            (contributions tags) b).
Proof.
  revert b; induction tags as [|t tags IH]; intros b; simpl; [reflexivity|].
  rewrite process_tags_contribution, IH. unfold contributions at 2. simpl.
  destruct (contribution t) as [[g e]|]; reflexivity.
Qed.

Lemma first_occurrences_In (x : str) (l : list str) :
  In x (first_occurrences l) <-> In x l.
Proof.
  induction l as [|y l IH]; simpl; [tauto|].
  rewrite filter_In, IH, negb_true_iff, eqb_neq.
  destruct (Str.eqb x y) eqn:E.
  - apply eqb_eq in E. subst. tauto.
  - apply eqb_neq in E. split; [tauto|]. intros [H|H]; [congruence|tauto].
Qed.

Lemma first_occurrences_NoDup (l : list str) : NoDup (first_occurrences l).
Proof.
  induction l as [|y l IH]; simpl; constructor.
  - rewrite filter_In, negb_true_iff, eqb_neq. tauto.
  - apply NoDup_filter. exact IH.
Qed.

Lemma filter_all (A : Type) (f : A -> bool) (l : list A) :
  (forall x, In x l -> f x = true) -> filter f l = l.
Proof.
  induction l; simpl; intros H; [reflexivity|].
  rewrite H by auto. rewrite IHl; auto.
Qed.

Lemma first_occurrences_snoc (l : list str) (g : str) :
  first_occurrences (l ++ [g])
  = if str_in g l then first_occurrences l else first_occurrences l ++ [g].
Proof.
  induction l as [|x l IH]; simpl; [reflexivity|].
  rewrite IH. rewrite (eqb_sym g x).
  destruct (Str.eqb x g) eqn:E; simpl.
  - apply eqb_eq in E. subst x.
    destruct (str_in g l); [reflexivity|].
    rewrite filter_app. simpl. rewrite eqb_refl. simpl.
    rewrite app_nil_r. reflexivity.
  - destruct (str_in g l); [reflexivity|].
    rewrite filter_app. simpl. rewrite (eqb_sym g x), E. reflexivity.
Qed.

Lemma entries_of_snoc (g' : str) (cs : list (str * option str)) (g : str)
    (e : option str) :
  entries_of g' (cs ++ [(g, e)])
  = entries_of g' cs ++ (if Str.eqb g g' then [e] else []).
Proof.
  unfold entries_of. rewrite filter_app, map_app. simpl.
  destruct (Str.eqb g g'); reflexivity.
Qed.

Lemma entries_of_absent (g : str) (cs : list (str * option str)) :
  str_in g (List.map fst cs) = false -> entries_of g cs = [].
Proof.
  unfold entries_of. induction cs as [|[g' e] cs IH]; simpl; [reflexivity|].
  rewrite (eqb_sym g g'). intros H. apply orb_false_iff in H. destruct H as [-> H].
  auto.
Qed.

(** Adding to a buffer whose names are distinct: the entry goes to the
    group of its name, or a new group is put last. *)
Lemma add_to_buffer_map (g : str) (e : option str)
    (f : str -> list (option str)) (L : list str) :
  NoDup L ->
  add_to_buffer g e (List.map (fun g' => (g', f g')) L)
  = if str_in g L
    then List.map (fun g' => (g', f g' ++ if Str.eqb g g' then [e] else [])) L
    else List.map (fun g' => (g', f g' ++ if Str.eqb g g' then [e] else [])) L
         ++ [(g, [e])].
Proof.
  induction L as [|x L IH]; intros ND; simpl; [reflexivity|].
  inversion ND as [|? ? Hx ND']; subst.
  destruct (Str.eqb g x) eqn:E; simpl.
  - apply eqb_eq in E. subst x. f_equal.
    apply map_ext_in.
    intros a Ha. destruct (Str.eqb g a) eqn:E'.
    + apply eqb_eq in E'. subst. contradiction.
    + rewrite app_nil_r. reflexivity.
  - rewrite IH by assumption. rewrite app_nil_r.
    destruct (str_in g L); reflexivity.
Qed.

Lemma grouped_snoc (cs : list (str * option str)) (g : str) (e : option str) :
  grouped (cs ++ [(g, e)]) = add_to_buffer g e (grouped cs).
Proof.
  unfold grouped. rewrite map_app. simpl. rewrite first_occurrences_snoc.
  rewrite add_to_buffer_map by apply first_occurrences_NoDup.
  assert (Hin : str_in g (first_occurrences (List.map fst cs))
                = str_in g (List.map fst cs)).
  { destruct (str_in g (List.map fst cs)) eqn:E.
    - apply str_in_In. apply first_occurrences_In. apply str_in_In. exact E.
    - destruct (str_in g (first_occurrences (List.map fst cs))) eqn:E'; auto.
      apply (proj1 (str_in_In _ _)) in E'.
      apply (proj1 (first_occurrences_In _ _)) in E'.
      apply (proj2 (str_in_In _ _)) in E'. congruence. }
  rewrite Hin. destruct (str_in g (List.map fst cs)) eqn:E.
  - apply map_ext. intros a. rewrite entries_of_snoc. reflexivity.
  - rewrite map_app. simpl. f_equal.
    + apply map_ext. intros a. rewrite entries_of_snoc. reflexivity.
    + rewrite entries_of_snoc, eqb_refl, entries_of_absent by exact E. reflexivity.
Qed.

Lemma fold_add_grouped (cs : list (str * option str)) :
  fold_left (fun b c => add_to_buffer (fst c) (snd c) b) cs [] = grouped cs.
Proof.
  induction cs as [|[g e] cs IH] using rev_ind; [reflexivity|].
  rewrite fold_left_app. simpl. rewrite IH. symmetry. apply grouped_snoc.
Qed.

Lemma add_tags_grouped (tags : list tag) :
  add_tags process_tags tags [] = Some (grouped (contributions tags)).
Proof. rewrite add_tags_contributions, fold_add_grouped. reflexivity. Qed.

(** The fragment of a section: nothing for an empty declaration, else
    the head and, when there are tags, the groups of the buffer in its
    order. *)
Lemma from_section_groups (s : section) (h : Z) :
  _from_section s h process_tags
  = Some (match _get_field_declaration (line s) with
          | [] => []
          | _ :: _ =>
              section_head s h ++
              match section_tags s with
              | [] => []
              | _ :: _ =>
                  [nl] ++ concat
                    (List.map (fun g => _from_tag_group (fst g) (snd g))
                       (grouped (contributions (section_tags s))))
              end
          end).
Proof.
  unfold _from_section, section_head, section_tags.
  destruct (_get_field_declaration (line s)) as [|c f]; [reflexivity|].
  set (d := _get_doc_description _).
  set (tags := _get_doc_tags _).
  destruct tags as [|t tags'] eqn:Et.
  - destruct d; rewrite ?app_nil_r; reflexivity.
  - rewrite <- Et. rewrite add_tags_grouped. unfold render_groups.
    destruct d; reflexivity.
Qed.

Lemma from_section_total (s : section) (h : Z) :
  exists out, _from_section s h process_tags = Some out.
Proof. rewrite from_section_groups. eauto. Qed.

(** C4: the tags of a section leave in the buffer the groups in the
    order of their first occurrence among the tags, each with its
    entries in the order of the tags, and the fragment of the section
    ends with the groups rendered one after the other in that order. *)
Theorem groups_in_first_occurrence_order :
  (forall tags : list tag,
      add_tags process_tags tags [] = Some (grouped (contributions tags)))
  /\ (forall (s : section) (h : Z),
         _from_section s h process_tags
         = Some (match _get_field_declaration (line s) with
                 | [] => []
                 | _ :: _ =>
                     section_head s h ++
                     match section_tags s with
                     | [] => []
                     | _ :: _ =>
                         [nl] ++ concat
                           (List.map (fun g => _from_tag_group (fst g) (snd g))
                              (grouped (contributions (section_tags s))))
                     end
                 end)).
Proof.
  split; [exact add_tags_grouped|exact from_section_groups].
Qed.

(** Source order, not alphabetical order and not the order of the
    policy: [return] before [param] before [author]. *)
Example groups_order_example :
  add_tags process_tags
    [mkTag (lit "return") (lit "r"); mkTag (lit "param") (lit "b two");
     mkTag (lit "author") (lit "me"); mkTag (lit "param") (lit "a one")] []
  = Some [(lit "Returns", [Some (lit "r")]);
          (lit "Parameters", [Some (lit "`b` " ++ [emdash] ++ lit " two");
                              Some (lit "`a` " ++ [emdash] ++ lit " one")]);
          (lit "Author", [Some (lit "me")])].
Proof. vm_compute. reflexivity. Qed.

(** ** The matcher: positions *)

Lemma step_cons (st : state) (a : char) (t : str) :
  rest st = a :: t -> step st = advance st a t.
Proof. unfold step. intros ->. reflexivity. Qed.

Lemma steps_rest (n : nat) (st : state) : rest (steps n st) = skipn n (rest st).
Proof.
  revert st; induction n as [|n IH]; intros st; simpl; [reflexivity|].
  rewrite IH. unfold step. destruct (rest st) eqn:E; simpl.
  - rewrite E. destruct n; reflexivity.
  - reflexivity.
Qed.

Lemma steps_caps (n : nat) (st : state) : caps (steps n st) = caps st.
Proof.
  revert st; induction n as [|n IH]; intros st; simpl; [reflexivity|].
  rewrite IH. unfold step. destruct (rest st); reflexivity.
Qed.

Lemma steps_pos (n : nat) (st : state) :
  n <= List.length (rest st) -> pos (steps n st) = pos st + n.
Proof.
  revert st; induction n as [|n IH]; intros st H; simpl; [lia|].
  unfold step. destruct (rest st) eqn:E; simpl in H; [lia|].
  rewrite IH; simpl; lia.
Qed.

Lemma span_le (c : cls) (s : str) : span c s <= List.length s.
Proof. induction s; simpl; [lia|]. destruct (cls_test c a); simpl; lia. Qed.

(** ** The matcher: a greedy repetition of one class *)

Lemma rep_loop_S body lo hi greedy k fuel n st :
  rep_loop body lo hi greedy k (S fuel) n st
  = let again :=
      if below hi n
      then body st (fun st' =>
             if Nat.ltb n lo || Nat.ltb (pos st) (pos st')
             then rep_loop body lo hi greedy k fuel (S n) st'
             else None)
      else None in
    if Nat.ltb n lo then again
    else if greedy
         then match again with Some e => Some e | None => k st end
         else match k st with Some e => Some e | None => again end.
Proof. reflexivity. Qed.

Lemma run_Chr c st k :
  run (Chr c) st k
  = match rest st with
    | a :: t => if cls_test c a then k (advance st a t) else None
    | [] => None
    end.
Proof. reflexivity. Qed.

Lemma run_Rep lo hi g r st k :
  run (Rep lo hi g r) st k
  = rep_loop (run r) lo hi g k (lo + S (List.length (rest st))) O st.
Proof. reflexivity. Qed.

(** When the continuation accepts the state after the longest run of
    the class, that is the result. *)
Lemma greedy_max (c : cls) (lo : nat) (k : state -> option state)
    (e : state) (fuel n : nat) (st : state) :
  List.length (rest st) < fuel ->
  lo <= n + span c (rest st) ->
  k (steps (span c (rest st)) st) = Some e ->
  rep_loop (run (Chr c)) lo None true k fuel n st = Some e.
Proof.
  revert n st. induction fuel as [|fuel IH]; intros n st Hf Hlo Hk; [lia|].
  rewrite rep_loop_S, run_Chr. cbv zeta. cbn [below].
  destruct (rest st) as [|a t] eqn:E.
  - simpl in Hlo, Hk.
    assert (Nat.ltb n lo = false) as -> by (apply Nat.ltb_ge; lia). exact Hk.
  - simpl in Hlo, Hk, Hf. destruct (cls_test c a) eqn:Ea.
    + assert (Nat.ltb (pos st) (pos (advance st a t)) = true) as ->
        by (apply Nat.ltb_lt; simpl; lia).
      rewrite orb_true_r.
      rewrite (IH (S n) (advance st a t)).
      * destruct (Nat.ltb n lo); reflexivity.
      * simpl. lia.
      * simpl. lia.
      * cbn [steps] in Hk. rewrite (step_cons st a t E) in Hk. exact Hk.
    + simpl in Hlo, Hk.
      assert (Nat.ltb n lo = false) as -> by (apply Nat.ltb_ge; lia). exact Hk.
Qed.

(** The first match of [\s+] in a subject. *)
Lemma spaces_fail (b : bool) (st : state) :
  span Space (rest st) = 0 -> match_at re_spaces b st = None.
Proof.
  intros H. unfold match_at, re_spaces, plus. rewrite run_Rep.
  cbn [Nat.add]. rewrite rep_loop_S, run_Chr. cbv zeta.
  cbn [below Nat.ltb Nat.leb].
  destruct (rest st) as [|a t]; [reflexivity|].
  cbn [span] in H. destruct (cls_test Space a); [discriminate|reflexivity].
Qed.

Lemma spaces_match (b : bool) (st : state) :
  0 < span Space (rest st) ->
  match_at re_spaces b st = Some (steps (span Space (rest st)) st).
Proof.
  intros H. unfold match_at, re_spaces, plus. rewrite run_Rep.
  apply greedy_max; try lia.
  assert (Hp : pos (steps (span Space (rest st)) st)
               = pos st + span Space (rest st))
    by (apply steps_pos, span_le).
  rewrite Hp.
  assert (Nat.eqb (pos st + span Space (rest st)) (pos st) = false) as ->
    by (apply Nat.eqb_neq; lia).
  rewrite andb_false_r. reflexivity.
Qed.

(** ** The scan of a subject *)

Lemma scan_0 (r : re) (p : nat) (pv : option char) (s : str) :
  scan r p pv s 0
  = fst (matches_here r (mkState p pv s [])) ++
    match s with
    | [] => []
    | c :: s' => scan r (S p) (Some c) s' (snd (matches_here r (mkState p pv s [])))
    end.
Proof. destruct s; reflexivity. Qed.

Lemma spaces_here_none (st : state) :
  span Space (rest st) = 0 -> matches_here re_spaces st = ([], 0).
Proof.
  intros H. unfold matches_here. rewrite spaces_fail by exact H. reflexivity.
Qed.

Lemma spaces_here_some (st : state) :
  0 < span Space (rest st) ->
  matches_here re_spaces st
  = ([mkMatch (pos st) (pos st + span Space (rest st))
        (firstn (span Space (rest st)) (rest st)) (caps st)],
     span Space (rest st) - 1).
Proof.
  intros H. unfold matches_here. rewrite spaces_match by exact H.
  pose proof (steps_pos (span Space (rest st)) st (span_le _ _)) as Hp.
  rewrite Hp.
  assert (Nat.eqb (pos st + span Space (rest st)) (pos st) = false) as ->
    by (apply Nat.eqb_neq; lia).
  unfold mk_match. rewrite Hp, steps_caps.
  repeat f_equal; lia.
Qed.

(** ** Strings: trimming *)

Lemma lstrip_skipn (s : str) : lstrip s = skipn (span Space s) s.
Proof.
  induction s as [|c s IH]; simpl; [reflexivity|].
  destruct (isspace c); simpl; auto.
Qed.

Lemma take_drop_nonspace (s : str) : take_nonspace s ++ drop_nonspace s = s.
Proof.
  induction s as [|c s IH]; simpl; [reflexivity|].
  destruct (isspace c); simpl; congruence.
Qed.

Lemma drop_nonspace_head (s : str) :
  drop_nonspace s = [] \/ 0 < span Space (drop_nonspace s).
Proof.
  induction s as [|c s IH]; simpl; [auto|].
  destruct (isspace c) eqn:E; [|exact IH].
  right. simpl. rewrite E. lia.
Qed.

(** The first match of [\s+]: the first run of white space. *)
Lemma first_spaces (p : nat) (pv : option char) (s : str) :
  firstn 1 (scan re_spaces p pv s 0)
  = match drop_nonspace s with
    | [] => []
    | _ :: _ =>
        [mkMatch (p + List.length (take_nonspace s))
           (p + List.length (take_nonspace s) + span Space (drop_nonspace s))
           (firstn (span Space (drop_nonspace s)) (drop_nonspace s)) []]
    end.
Proof.
  revert p pv. induction s as [|c s IH]; intros p pv; rewrite scan_0.
  - rewrite spaces_here_none by reflexivity. reflexivity.
  - cbn [take_nonspace drop_nonspace]. destruct (isspace c) eqn:E.
    + rewrite spaces_here_some by (simpl; rewrite E; lia).
      cbn [fst snd rest pos caps List.length app firstn].
      repeat f_equal; lia.
    + rewrite spaces_here_none by (simpl; rewrite E; reflexivity).
      cbn [fst snd app]. rewrite IH.
      destruct (drop_nonspace s); [reflexivity|].
      cbn [List.length]. do 2 f_equal; lia.
Qed.

(** [re.split(r'\s+', s, maxsplit=1)] cuts [s] at its first run of white
    space. *)
Lemma split_spaces_once (s : str) :
  Re.split re_spaces s 1
  = match drop_nonspace s with
    | [] => [s]
    | _ :: _ => [take_nonspace s; lstrip (drop_nonspace s)]
    end.
Proof.
  unfold Re.split, finditer. rewrite first_spaces.
  pose proof (take_drop_nonspace s) as Hs.
  destruct (drop_nonspace s) as [|c r] eqn:E; [reflexivity|].
  cbn [split_pieces m_start m_end]. rewrite !Nat.sub_0_r, Nat.add_0_l.
  rewrite lstrip_skipn. clear E.
  set (t := take_nonspace s) in *. clearbody t. subst s.
  rewrite firstn_app, Nat.sub_diag, firstn_all, app_nil_r. cbn [firstn].
  rewrite skipn_app, skipn_all2 by lia.
  replace (List.length t + span Space (c :: r) - List.length t)
    with (span Space (c :: r)) by lia.
  reflexivity.
Qed.

Lemma lstrip_length (s : str) : List.length (lstrip s) <= List.length s.
Proof.
  induction s as [|c s IH]; simpl; [lia|]. destruct (isspace c); simpl; lia.
Qed.

Lemma lstrip_fixed (s : str) :
  List.length (lstrip s) = List.length s -> lstrip s = s.
Proof.
  destruct s as [|c s]; simpl; [reflexivity|].
  destruct (isspace c); [|reflexivity].
  intros H. pose proof (lstrip_length s). lia.
Qed.

Lemma lstrip_head (c : char) (s : str) :
  isspace c = false -> lstrip (c :: s) = c :: s.
Proof. simpl. intros ->. reflexivity. Qed.

Lemma lstrip_fixed_head (s : str) :
  lstrip s = s -> s <> [] -> exists c t, s = c :: t /\ isspace c = false.
Proof.
  destruct s as [|c s]; [congruence|]. intros H _. exists c, s. split; auto.
  simpl in H. destruct (isspace c); auto.
  pose proof (lstrip_length s) as L. rewrite H in L. simpl in L. lia.
Qed.

Lemma lstrip_spaces_app (ws s : str) :
  forallb isspace ws = true -> lstrip (ws ++ s) = lstrip s.
Proof.
  induction ws as [|c ws IH]; simpl; [reflexivity|].
  intros H. apply andb_true_iff in H. destruct H as [-> H]. auto.
Qed.

Lemma lstrip_nospace (s : str) :
  forallb (fun c => negb (isspace c)) s = true -> lstrip s = s.
Proof.
  destruct s as [|c s]; simpl; [reflexivity|].
  intros H. apply andb_true_iff in H. destruct H as [H _].
  apply negb_true_iff in H. rewrite H. reflexivity.
Qed.

Lemma lstrip_nospace_app (tok r : str) :
  tok <> [] -> forallb (fun c => negb (isspace c)) tok = true ->
  lstrip (tok ++ r) = tok ++ r.
Proof.
  destruct tok as [|c tok]; [congruence|]. intros _ H. simpl in H.
  apply andb_true_iff in H. destruct H as [H _]. apply negb_true_iff in H.
  apply lstrip_head. exact H.
Qed.

Lemma forallb_rev (A : Type) (f : A -> bool) (l : list A) :
  forallb f (rev l) = forallb f l.
Proof.
  induction l; simpl; [reflexivity|].
  rewrite forallb_app, IHl. simpl. rewrite andb_true_r. apply andb_comm.
Qed.

Lemma rstrip_length (s : str) : List.length (rstrip s) <= List.length s.
Proof.
  unfold rstrip. rewrite length_rev.
  pose proof (lstrip_length (rev s)). rewrite length_rev in *. lia.
Qed.

Lemma strip_nospace (s : str) :
  forallb (fun c => negb (isspace c)) s = true -> strip s = s.
Proof.
  intros H. unfold strip, rstrip. rewrite (lstrip_nospace s H).
  rewrite lstrip_nospace by (rewrite forallb_rev; exact H).
  apply rev_involutive.
Qed.

(** A trimmed string has no white space at either end. *)
Lemma strip_fixed (s : str) :
  strip s = s -> lstrip s = s /\ rstrip s = s.
Proof.
  intros H. assert (L : lstrip s = s).
  { apply lstrip_fixed. pose proof (lstrip_length s).
    pose proof (rstrip_length (lstrip s)). unfold strip in H.
    rewrite H in *. lia. }
  split; [exact L|]. unfold strip in H. rewrite L in H. exact H.
Qed.

Lemma nospace_take_drop (s : str) :
  forallb (fun c => negb (isspace c)) s = true ->
  take_nonspace s = s /\ drop_nonspace s = [].
Proof.
  induction s as [|c s IH]; simpl; [auto|].
  intros H. apply andb_true_iff in H. destruct H as [Hc H].
  apply negb_true_iff in Hc. rewrite Hc. destruct (IH H) as [-> ->]. auto.
Qed.

Lemma take_drop_app (tok r : str) :
  forallb (fun c => negb (isspace c)) tok = true ->
  0 < span Space r ->
  take_nonspace (tok ++ r) = tok /\ drop_nonspace (tok ++ r) = r.
Proof.
  intros H Hr. induction tok as [|c tok IH]; simpl.
  - destruct r as [|a r]; simpl in *; [lia|].
    destruct (isspace a); [auto|lia].
  - simpl in H. apply andb_true_iff in H. destruct H as [Hc H].
    apply negb_true_iff in Hc. rewrite Hc. destruct (IH H) as [-> ->]. auto.
Qed.

(** ** The split of a tag value *)

(** A value without white space is its own first token; the second is
    empty. *)
Lemma tokenize_single (v : str) :
  forallb (fun c => negb (isspace c)) v = true ->
  _tokenize v re_spaces 2 = [v; []].
Proof.
  intros H. unfold _tokenize. destruct v as [|c v]; [reflexivity|].
  rewrite strip_nospace by exact H. cbn [Nat.sub]. rewrite split_spaces_once.
  destruct (nospace_take_drop _ H) as [_ ->]. reflexivity.
Qed.

(** A token, white space and a trimmed description are cut into the
    token and the description. *)
Lemma tokenize_pair (tok ws desc : str) :
  tok <> [] -> forallb (fun c => negb (isspace c)) tok = true ->
  ws <> [] -> forallb isspace ws = true ->
  strip desc = desc ->
  _tokenize (tok ++ ws ++ desc) re_spaces 2 = [tok; desc].
Proof.
  intros Htok Hns Hws Hsp Hd.
  destruct (strip_fixed desc Hd) as [Hl Hr].
  assert (Hspan : 0 < span Space (ws ++ desc)).
  { destruct ws as [|a ws]; [congruence|]. simpl in Hsp |- *.
    apply andb_true_iff in Hsp. destruct Hsp as [-> _]. lia. }
  unfold _tokenize. destruct (tok ++ ws ++ desc) as [|c0 v0] eqn:Ev.
  { destruct tok; [congruence|discriminate]. }
  rewrite <- Ev. clear Ev c0 v0. cbn [Nat.sub].
  assert (Hstrip : strip (tok ++ ws ++ desc)
                   = tok ++ match desc with [] => [] | _ :: _ => ws ++ desc end).
  { unfold strip. rewrite (lstrip_nospace_app tok (ws ++ desc) Htok Hns).
    unfold rstrip. rewrite !rev_app_distr.
    destruct desc as [|d desc'] eqn:Ed.
    - simpl. rewrite lstrip_spaces_app by (rewrite forallb_rev; exact Hsp).
      rewrite lstrip_nospace by (rewrite forallb_rev; exact Hns).
      rewrite rev_involutive, app_nil_r. reflexivity.
    - rewrite <- Ed in *. unfold rstrip in Hr.
      assert (Hrev : lstrip (rev desc) = rev desc).
      { rewrite <- (rev_involutive (lstrip (rev desc))), Hr. reflexivity. }
      destruct (lstrip_fixed_head (rev desc) Hrev) as [c [t [Ec Hc]]].
      { intros E. apply (f_equal (@rev char)) in E. rewrite rev_involutive in E.
        rewrite Ed in E. discriminate. }
      rewrite <- app_assoc. rewrite Ec. cbn [app]. rewrite lstrip_head by exact Hc.
      change (c :: t ++ rev ws ++ rev tok) with ((c :: t) ++ rev ws ++ rev tok).
      rewrite <- Ec. rewrite !rev_app_distr, !rev_involutive.
      rewrite <- app_assoc. reflexivity. }
  rewrite Hstrip, split_spaces_once.
  destruct desc as [|d desc'].
  - rewrite app_nil_r. destruct (nospace_take_drop _ Hns) as [_ ->]. reflexivity.
  - destruct (take_drop_app tok (ws ++ d :: desc') Hns Hspan) as [-> ->].
    rewrite lstrip_spaces_app by exact Hsp. rewrite Hl.
    destruct ws; [congruence|]. reflexivity.
Qed.

(** ** The matcher returns matches *)

Lemma rep_loop_sound (body : state -> (state -> option state) -> option state)
    (R : state -> state -> Prop) (lo : nat) (hi : option nat) (g : bool)
    (k : state -> option state) (e : state) :
  (forall st k' e', body st k' = Some e' ->
                    exists st', R st st' /\ k' st' = Some e') ->
  forall fuel n st,
    (forall h, hi = Some h -> n <= h) ->
    rep_loop body lo hi g k fuel n st = Some e ->
    exists j st', iter R j st st' /\ lo <= n + j
                  /\ (forall h, hi = Some h -> n + j <= h)
                  /\ k st' = Some e.
Proof.
  intros Hbody. induction fuel as [|fuel IH]; intros n st Hn H; [discriminate|].
  rewrite rep_loop_S in H. cbv zeta in H.
  assert (Hagain :
    (if below hi n
     then body st (fun st' =>
            if Nat.ltb n lo || Nat.ltb (pos st) (pos st')
            then rep_loop body lo hi g k fuel (S n) st' else None)
     else None) = Some e ->
    exists j st', iter R j st st' /\ lo <= n + j
                  /\ (forall h, hi = Some h -> n + j <= h) /\ k st' = Some e).
  { intros A. destruct (below hi n) eqn:B; [|discriminate].
    apply Hbody in A. destruct A as [st1 [HR A]].
    destruct (Nat.ltb n lo || Nat.ltb (pos st) (pos st1)); [|discriminate].
    apply IH in A.
    - destruct A as [j [st' [Hi [Hlo [Hhi Hk]]]]].
      exists (S j), st'. repeat split.
      + econstructor; eassumption.
      + lia.
      + intros h Hh. specialize (Hhi h Hh). lia.
      + exact Hk.
    - intros h Hh. subst hi. simpl in B. apply Nat.ltb_lt in B. lia. }
  assert (Hstop : Nat.ltb n lo = false -> k st = Some e ->
    exists j st', iter R j st st' /\ lo <= n + j
                  /\ (forall h, hi = Some h -> n + j <= h) /\ k st' = Some e).
  { intros L K. apply Nat.ltb_ge in L. exists 0, st. repeat split.
    - constructor.
    - lia.
    - intros h Hh. specialize (Hn h Hh). lia.
    - exact K. }
  destruct (Nat.ltb n lo) eqn:L; [auto|].
  destruct g.
  - destruct (if below hi n then _ else None) eqn:A.
    + apply Hagain. congruence.
    + auto.
  - destruct (k st) eqn:K.
    + apply Hstop; congruence.
    + auto.
Qed.

Theorem run_sound (r : re) :
  forall st k e, run r st k = Some e ->
                 exists st', Matches r st st' /\ k st' = Some e.
Proof.
  induction r as [|c|r1 IH1 r2 IH2|r1 IH1 r2 IH2|lo hi g r IH|i r IH|r IH|m|m];
    intros st k e H.
  - exists st. split; [constructor|exact H].
  - rewrite run_Chr in H. destruct (rest st) as [|a t] eqn:E; [discriminate|].
    destruct (cls_test c a) eqn:Ea; [|discriminate].
    exists (advance st a t). split; [constructor; assumption|exact H].
  - cbn [run] in H. apply IH1 in H. destruct H as [st1 [M1 H]].
    apply IH2 in H. destruct H as [st2 [M2 H]].
    exists st2. split; [econstructor; eassumption|exact H].
  - cbn [run] in H. destruct (run r1 st k) eqn:E1.
    + injection H as ->. apply IH1 in E1. destruct E1 as [st' [M K]].
      exists st'. split; [apply MAltL; exact M|exact K].
    + apply IH2 in H. destruct H as [st' [M K]].
      exists st'. split; [apply MAltR; exact M|exact K].
  - rewrite run_Rep in H.
    apply (rep_loop_sound (run r) (Matches r) lo hi g k e IH) in H.
    + destruct H as [j [st' [Hi [Hlo [Hhi Hk]]]]].
      exists st'. split; [|exact Hk].
      apply MRep with (n := j); [exact Hi|lia|].
      intros h Hh. specialize (Hhi h Hh). lia.
    + intros h _. lia.
  - cbn [run] in H. apply IH in H. destruct H as [st' [M K]].
    eexists. split; [apply MGrp; exact M|exact K].
  - cbn [run] in H. destruct (run r st (fun st' => Some st')) as [st'|] eqn:E;
      [|discriminate].
    apply IH in E. destruct E as [st'' [M K]]. injection K as ->.
    eexists. split; [apply MLook; exact M|exact H].
  - cbn [run] in H. destruct (at_bol m st) eqn:E; [|discriminate].
    exists st. split; [constructor; exact E|exact H].
  - cbn [run] in H. destruct (at_eol m st) eqn:E; [|discriminate].
    exists st. split; [constructor; exact E|exact H].
Qed.

(** ** Reading a match back *)

Lemma Matches_Seq_inv r1 r2 st e :
  Matches (Seq r1 r2) st e -> exists st1, Matches r1 st st1 /\ Matches r2 st1 e.
Proof. intros H. inversion H; subst. eauto. Qed.

Lemma Matches_Eps_inv st e : Matches Eps st e -> e = st.
Proof. intros H. inversion H; subst. reflexivity. Qed.

Lemma Matches_Chr_inv c st e :
  Matches (Chr c) st e ->
  exists a t, rest st = a :: t /\ cls_test c a = true /\ e = advance st a t.
Proof. intros H. inversion H; subst. eauto. Qed.

Lemma Matches_Grp_inv i r st e :
  Matches (Grp i r) st e ->
  exists e', Matches r st e'
             /\ e = set_cap i (firstn (pos e' - pos st) (rest st)) e'.
Proof. intros H. inversion H; subst. eauto. Qed.

Lemma Matches_Rep_inv lo hi g r st e :
  Matches (Rep lo hi g r) st e ->
  exists n, iter (Matches r) n st e /\ lo <= n.
Proof. intros H. inversion H; subst. eauto. Qed.

(** Iterations of one class move over that many characters of the
    class and leave the groups alone. *)
Lemma iter_Chr (c : cls) (n : nat) (st e : state) :
  iter (Matches (Chr c)) n st e ->
  e = steps n st /\ n <= List.length (rest st)
  /\ forallb (cls_test c) (firstn n (rest st)) = true.
Proof.
  induction 1 as [st|n st st1 st2 HM Hi IH].
  - simpl. auto with arith.
  - apply Matches_Chr_inv in HM. destruct HM as [a [t [E [Ha ->]]]].
    destruct IH as [-> [Hn Hall]]. simpl in Hn, Hall.
    cbn [steps]. rewrite (step_cons st a t E). rewrite E. simpl.
    rewrite Ha, Hall. repeat split; auto. lia.
Qed.

Lemma cls_alpha (c : char) :
  cls_test (CSet false [IRange (ch "a") (ch "z"); IRange (ch "A") (ch "Z")]) c
  = is_alpha c.
Proof.
  unfold cls_test, is_alpha, is_lower, is_upper. simpl.
  rewrite orb_false_r. reflexivity.
Qed.

Lemma alpha_not_space (c : char) : is_alpha c = true -> isspace c = false.
Proof.
  unfold is_alpha, is_lower, is_upper, isspace. intros H.
  assert (B : (65 <= c <= 122)%N).
  { apply orb_true_iff in H. destruct H as [H|H];
      apply andb_true_iff in H; destruct H as [H1 H2];
      apply N.leb_le in H1; apply N.leb_le in H2; lia. }
  assert ((c <=? 13)%N = false) as -> by (apply N.leb_gt; lia).
  assert ((c <=? 32)%N = false) as -> by (apply N.leb_gt; lia).
  assert ((c =? 133)%N = false) as -> by (apply N.eqb_neq; lia).
  assert ((c =? 160)%N = false) as -> by (apply N.eqb_neq; lia).
  assert ((c =? 5760)%N = false) as -> by (apply N.eqb_neq; lia).
  assert ((8192 <=? c)%N = false) as -> by (apply N.leb_gt; lia).
  assert ((c =? 8232)%N = false) as -> by (apply N.eqb_neq; lia).
  assert ((c =? 8233)%N = false) as -> by (apply N.eqb_neq; lia).
  assert ((c =? 8239)%N = false) as -> by (apply N.eqb_neq; lia).
  assert ((c =? 8287)%N = false) as -> by (apply N.eqb_neq; lia).
  assert ((c =? 12288)%N = false) as -> by (apply N.eqb_neq; lia).
  rewrite !andb_false_r. reflexivity.
Qed.

Lemma alpha_nospace (s : str) :
  forallb is_alpha s = true -> forallb (fun c => negb (isspace c)) s = true.
Proof.
  induction s as [|c s IH]; simpl; [reflexivity|].
  intros H. apply andb_true_iff in H. destruct H as [Hc H].
  rewrite (alpha_not_space c Hc), IH by exact H. reflexivity.
Qed.

(** The key and the remainder of a tag block, read off a match. *)
Lemma tag_match_key (st e : state) :
  caps st = [] ->
  Matches re_tag st e ->
  exists g, lookup 1 (caps e) = Some g /\ g <> []
            /\ forallb is_alpha g = true.
Proof.
  intros Hc H. unfold re_tag, cat, lits, star_lazy, plus, star in H.
  cbn [fold_right List.map lit list_ascii_of_string] in H.
  apply Matches_Seq_inv in H. destruct H as [s1 [_ H]].
  apply Matches_Seq_inv in H. destruct H as [s2 [_ H]].
  apply Matches_Seq_inv in H. destruct H as [s3 [_ H]].
  apply Matches_Seq_inv in H. destruct H as [s4 [H1 H]].
  apply Matches_Seq_inv in H. destruct H as [s5 [H2 H]].
  apply Matches_Eps_inv in H. subst e.
  apply Matches_Grp_inv in H1. destruct H1 as [e1 [H1 ->]].
  apply Matches_Grp_inv in H2. destruct H2 as [e2 [H2 ->]].
  apply Matches_Rep_inv in H1. destruct H1 as [n1 [H1 Hn1]].
  apply Matches_Rep_inv in H2. destruct H2 as [n2 [H2 _]].
  apply iter_Chr in H1. destruct H1 as [-> [Hlen Hall]].
  apply iter_Chr in H2. destruct H2 as [-> _].
  cbn [set_cap caps rest pos]. rewrite steps_caps. cbn [caps lookup Nat.eqb].
  rewrite steps_pos by exact Hlen.
  replace (pos s3 + n1 - pos s3) with n1 by lia.
  exists (firstn n1 (rest s3)). split; [reflexivity|]. split.
  - intros E. apply (f_equal (@List.length char)) in E.
    rewrite length_firstn in E. simpl in E. lia.
  - rewrite <- Hall. clear. induction (firstn n1 (rest s3)) as [|a l IH];
      simpl; [reflexivity|]. rewrite IH, orb_false_r. reflexivity.
Qed.

(** ** Cleaning a key *)

Lemma scan_spaces_nil (p : nat) (pv : option char) (s : str) :
  forallb (fun c => negb (isspace c)) s = true ->
  scan re_spaces p pv s 0 = [].
Proof.
  revert p pv. induction s as [|c s IH]; intros p pv H; rewrite scan_0.
  - rewrite spaces_here_none by reflexivity. reflexivity.
  - simpl in H. apply andb_true_iff in H. destruct H as [Hc H].
    apply negb_true_iff in Hc.
    rewrite spaces_here_none by (simpl; rewrite Hc; reflexivity).
    cbn [fst snd app]. apply IH. exact H.
Qed.

Lemma chr_here_none (c : cls) (st : state) :
  span c (rest st) = 0 -> matches_here (Chr c) st = ([], 0).
Proof.
  intros H. unfold matches_here, match_at. rewrite run_Chr.
  destruct (rest st) as [|a t]; [reflexivity|].
  cbn [span] in H. destruct (cls_test c a); [discriminate|reflexivity].
Qed.

Lemma scan_chr_nil (c : cls) (p : nat) (pv : option char) (s : str) :
  forallb (fun a => negb (cls_test c a)) s = true ->
  scan (Chr c) p pv s 0 = [].
Proof.
  revert p pv. induction s as [|a s IH]; intros p pv H; rewrite scan_0.
  - rewrite chr_here_none by reflexivity. reflexivity.
  - simpl in H. apply andb_true_iff in H. destruct H as [Ha H].
    apply negb_true_iff in Ha.
    rewrite chr_here_none by (cbn [rest span]; rewrite Ha; reflexivity).
    cbn [fst snd app]. apply IH. exact H.
Qed.

Lemma control_is_space (a : char) :
  cls_test (CSet false [IRange nl nl; IRange cr cr; IRange tab tab]) a = true ->
  isspace a = true.
Proof.
  unfold cls_test, item_test. cbn [existsb xorb]. intros H.
  repeat (apply orb_true_iff in H; destruct H as [H|H]);
    try discriminate;
    apply andb_true_iff in H; destruct H as [H1 H2];
    apply N.leb_le in H1; apply N.leb_le in H2;
    pose proof (N.le_antisymm _ _ H1 H2) as <-; reflexivity.
Qed.

(** A key made of letters comes out of [_clean_single_line] as it went
    in. *)
Lemma clean_single_line_alpha (g : str) :
  forallb is_alpha g = true -> _clean_single_line g = g.
Proof.
  intros H. pose proof (alpha_nospace g H) as Hn.
  unfold _clean_single_line, _clean_line, Re.sub, finditer.
  rewrite strip_nospace by exact Hn.
  rewrite scan_spaces_nil by exact Hn. cbn [sub_pieces].
  rewrite scan_chr_nil; [reflexivity|].
  clear H. induction g as [|a g IH]; [reflexivity|].
  simpl in Hn. apply andb_true_iff in Hn. destruct Hn as [Ha Hn].
  cbn [forallb]. rewrite IH by exact Hn. rewrite andb_true_r.
  apply negb_true_iff in Ha. apply negb_true_iff.
  destruct (cls_test _ a) eqn:E; [|reflexivity].
  apply control_is_space in E. congruence.
Qed.

Lemma doc_tag_key (l : str) (t : tag) :
  doc_tag l = Some t -> key t <> [] /\ forallb is_alpha (key t) = true.
Proof.
  unfold doc_tag, rmatch, match_at. intros H.
  destruct (run re_tag _ _) as [e|] eqn:E; [|discriminate].
  cbn [option_map] in H. injection H as <-. cbn [key].
  apply run_sound in E. destruct E as [e' [M K]].
  cbn [andb] in K. injection K as ->.
  apply tag_match_key in M; [|reflexivity].
  destruct M as [g [Hg [Hne Hal]]].
  unfold group, mk_match. cbn [m_caps]. rewrite Hg.
  rewrite clean_single_line_alpha by exact Hal. auto.
Qed.

(** C8: every tag that [_get_doc_tags] yields has a key that is not
    empty and is made of letters; a block that is not of the shape of
    a tag yields nothing. *)
Theorem doc_tags_key_nonempty_alpha (doc_lines : list str) (t : tag) :
  In t (_get_doc_tags doc_lines) ->
  key t <> [] /\ forallb is_alpha (key t) = true.
Proof.
  unfold _get_doc_tags. intros H. apply in_flat_map in H.
  destruct H as [l [_ H]]. destruct (doc_tag l) as [t'|] eqn:E; [|contradiction].
  destruct H as [<-|[]]. exact (doc_tag_key l t' E).
Qed.

Lemma doc_tags_key_nonempty_alpha_witness :
  In (mkTag (lit "param") (lit "x the input"))
     (_get_doc_tags [lit "@ nothing"; lit "@param x the input"])
  /\ key (mkTag (lit "param") (lit "x the input")) <> [].
Proof.
  assert (H : In (mkTag (lit "param") (lit "x the input"))
                (_get_doc_tags [lit "@ nothing"; lit "@param x the input"])).
  { vm_compute. left. reflexivity. }
  split; [exact H|].
  exact (proj1 (doc_tags_key_nonempty_alpha _ _ H)).
Defined.

Example doc_tags_skip_malformed :
  _get_doc_tags [lit "@"; lit "@1abc x"; lit "no tag"; lit "  @since 1.2 "]
  = [mkTag (lit "since") (lit "1.2")].
Proof. vm_compute. reflexivity. Qed.

(** ** Positions only grow *)

Lemma iter_pos (R : state -> state -> Prop) :
  (forall st e, R st e -> pos st <= pos e) ->
  forall n st e, iter R n st e -> pos st <= pos e.
Proof.
  intros HR. induction 1 as [st|n st st1 st2 H1 _ IH]; [lia|].
  apply HR in H1. lia.
Qed.

Lemma Matches_pos (r : re) :
  forall st e, Matches r st e -> pos st <= pos e.
Proof.
  induction r as [|c|r1 IH1 r2 IH2|r1 IH1 r2 IH2|lo hi g r IH|i r IH|r IH|m|m];
    intros st e H; inversion H; subst; simpl; try lia;
    try match goal with
        | H1 : Matches r1 _ ?x, H2 : Matches r2 ?x _ |- _ =>
            apply IH1 in H1; apply IH2 in H2; lia
        | H1 : iter _ _ _ _ |- _ => eapply iter_pos; eauto
        end; auto.
Qed.

Lemma steps_pos_le (n : nat) (st : state) : pos st <= pos (steps n st).
Proof.
  revert st. induction n as [|n IH]; intros st; simpl; [lia|].
  specialize (IH (step st)). unfold step in *.
  destruct (rest st); simpl in *; lia.
Qed.

(** ** Every match of a scan is a match of the pattern *)

Lemma matches_here_In (r : re) (st : state) (m : mtch) :
  In m (fst (matches_here r st)) ->
  exists b e, match_at r b st = Some e /\ m = mk_match st e.
Proof.
  unfold matches_here. destruct (match_at r false st) as [e|] eqn:E1;
    [|intros []].
  destruct (Nat.eqb (pos e) (pos st)).
  - destruct (match_at r true st) as [e2|] eqn:E2; simpl.
    + intros [<-|[<-|[]]]; eauto.
    + intros [<-|[]]; eauto.
  - simpl. intros [<-|[]]; eauto.
Qed.

Lemma scan_In (r : re) (m : mtch) (s : str) :
  forall p pv skip,
    In m (scan r p pv s skip) ->
    exists st b e, caps st = [] /\ match_at r b st = Some e /\ m = mk_match st e.
Proof.
  induction s as [|c s IH]; intros p pv skip H.
  - destruct skip; simpl in H.
    + rewrite app_nil_r in H. apply matches_here_In in H.
      destruct H as [b [e [H1 H2]]]. eexists _, b, e. split; [|eauto]. reflexivity.
    + contradiction.
  - destruct skip; cbn [scan] in H; apply in_app_or in H; destruct H as [H|H].
    + apply matches_here_In in H.
      destruct H as [b [e [H1 H2]]]. eexists _, b, e. split; [|eauto]. reflexivity.
    + eapply IH; eauto.
    + contradiction.
    + eapply IH; eauto.
Qed.

(** ** The declaration of a section match *)

Lemma span_lstrip (s : str) : span Space (lstrip s) = 0.
Proof.
  induction s as [|c s IH]; simpl; [reflexivity|].
  destruct (isspace c) eqn:E; [exact IH|]. simpl. rewrite E. reflexivity.
Qed.

Lemma span_firstn_0 (c : cls) (n : nat) (s : str) :
  span c s = 0 -> span c (firstn n s) = 0.
Proof.
  destruct s as [|a s]; destruct n; simpl; auto.
  destruct (cls_test c a); [discriminate|reflexivity].
Qed.

Lemma span_skipn (c : cls) (s : str) : span c (skipn (span c s) s) = 0.
Proof.
  induction s as [|a s IH]; simpl; [reflexivity|].
  destruct (cls_test c a) eqn:E; simpl; [exact IH|]. rewrite E. reflexivity.
Qed.

(** The declaration part of the section pattern, [[^{;]*(?:[{;]|$)] as
    group 2, matches wherever it is tried. *)
Lemma run_declaration (st : state) (k : state -> option state) :
  (forall e, pos st <= pos e -> k e = Some e) ->
  exists e, run (Grp 2 (cat [star (Chr (CSet true [one "{"; one ";"]));
                            Alt (Chr (CSet false [one "{"; one ";"]))
                                (Eol false)])) st k
            = Some (set_cap 2 (firstn (pos e - pos st) (rest st)) e).
Proof.
  intros Hk. set (NB := CSet true [one "{"; one ";"]).
  set (B := CSet false [one "{"; one ";"]).
  set (sN := steps (span NB (rest st)) st).
  assert (HposN : pos st <= pos sN) by apply steps_pos_le.
  assert (Hrest : span NB (rest sN) = 0).
  { unfold sN. rewrite steps_rest. apply span_skipn. }
  unfold cat, star. cbn [fold_right]. cbn [run].
  change (fun (st0 : state) (k0 : state -> option state) =>
            match rest st0 with
            | [] => None
            | a :: t => if cls_test NB a then k0 (advance st0 a t) else None
            end) with (run (Chr NB)).
  destruct (rest sN) as [|a t] eqn:E.
  - exists sN. apply greedy_max; [simpl; lia|lia|]. fold sN. cbv beta.
    rewrite E. unfold at_eol. rewrite E. apply Hk. exact HposN.
  - assert (HB : cls_test B a = true).
    { cbn [span] in Hrest. destruct (cls_test NB a) eqn:EN; [discriminate|].
      unfold NB, B, cls_test in *. destruct (existsb _ _); [reflexivity|discriminate]. }
    exists (advance sN a t). apply greedy_max; [simpl; lia|lia|]. fold sN. cbv beta.
    rewrite E, HB. rewrite Hk by (simpl; lia). reflexivity.
Qed.

(** In a match of the section pattern the declaration, group 2, begins
    after all the white space that follows the comment. *)
Lemma section_match_declaration (b : bool) (st e : state) :
  match_at re_section b st = Some e ->
  exists g, lookup 2 (caps e) = Some g /\ span Space g = 0.
Proof.
  unfold match_at, re_section. intros H.
  unfold cat at 1 in H. cbn [fold_right] in H.
  cbn [run] in H.
  apply run_sound in H. destruct H as [s1 [M1 H]].
  apply run_sound in H. destruct H as [s2 [M2 H]].
  apply run_sound in H. destruct H as [s3 [M3 H]].
  assert (P1 : pos st < pos s1).
  { unfold lits, cat in M1. cbn [fold_right List.map lit list_ascii_of_string] in M1.
    apply Matches_Seq_inv in M1. destruct M1 as [x [Mx M1]].
    apply Matches_Chr_inv in Mx. destruct Mx as [a [t [_ [_ ->]]]].
    apply Matches_pos in M1. simpl in M1. lia. }
  apply Matches_pos in M2. apply Matches_pos in M3. simpl in M2, M3.
  change (run (star (Chr Space)) s3
            (fun s4 => run (Grp 2 (cat [star (Chr (CSet true [one "{"; one ";"]));
                                        Alt (Chr (CSet false [one "{"; one ";"]))
                                            (Eol false)])) s4
                         (fun s5 => if b && Nat.eqb (pos s5) (pos st)
                                    then None else Some s5))
          = Some e) in H.
  set (sM := steps (span Space (rest s3)) s3).
  assert (PM : pos s3 <= pos sM) by apply steps_pos_le.
  destruct (run_declaration sM
              (fun s5 => if b && Nat.eqb (pos s5) (pos st) then None else Some s5))
    as [e' He'].
  { intros x Hx. assert (Nat.eqb (pos x) (pos st) = false) as ->
      by (apply Nat.eqb_neq; lia).
    rewrite andb_false_r. reflexivity. }
  unfold star in H. rewrite run_Rep in H.
  rewrite (greedy_max Space 0 _ (set_cap 2 (firstn (pos e' - pos sM) (rest sM)) e')) in H.
  - injection H as <-. eexists. split; [simpl; reflexivity|].
    apply span_firstn_0. unfold sM. rewrite steps_rest. apply span_skipn.
  - simpl. lia.
  - lia.
  - exact He'.
Qed.

Lemma lstrip_snoc_nonempty (l : str) (c : char) :
  isspace c = false -> lstrip (l ++ [c]) <> [].
Proof.
  intros Hc. induction l as [|a l IH]; simpl.
  - rewrite Hc. discriminate.
  - destruct (isspace a); [exact IH|discriminate].
Qed.

(** A string that does not begin with white space is empty as soon as
    trimming leaves nothing of it. *)
Lemma strip_empty_span (g : str) :
  span Space g = 0 -> strip g = [] -> g = [].
Proof.
  destruct g as [|c t]; [reflexivity|]. cbn [span cls_test].
  destruct (isspace c) eqn:Hc; [discriminate|]. intros _ H.
  unfold strip in H. rewrite lstrip_head in H by exact Hc.
  unfold rstrip in H. simpl in H.
  apply (f_equal (@rev char)) in H. rewrite rev_involutive in H. simpl in H.
  apply lstrip_snoc_nonempty in H; [contradiction|exact Hc].
Qed.

(** The first loop of the extractor skips a match whose declaration
    begins with [import]. *)
Lemma primary_skips_import (m : mtch) :
  startswith (strip (group_or_empty 2 m)) (lit "import") = true ->
  primary_section m = None.
Proof.
  intros H. unfold primary_section.
  destruct (is_empty _ || is_empty _); [reflexivity|].
  rewrite H. reflexivity.
Qed.

(** C3, as amended: a match of the primary pattern is discarded when
    its comment body is the empty string, and when its declaration is
    empty or white space only (the pattern gives the white space after
    the comment to no group, so such a declaration is the empty
    string).  The comment body is tested before it is trimmed. *)
Theorem empty_half_discarded (code : str) (m : mtch) :
  In m (finditer re_section code) ->
  group_or_empty 1 m = [] \/ strip (group_or_empty 2 m) = [] ->
  primary_section m = None.
Proof.
  intros Hin H. unfold primary_section.
  destruct H as [-> | H]; [reflexivity|].
  apply scan_In in Hin. destruct Hin as [st [b [e [_ [He ->]]]]].
  apply section_match_declaration in He. destruct He as [g [Hg Hs]].
  unfold group_or_empty, group, mk_match in *. cbn [m_caps] in *.
  rewrite Hg in *. rewrite (strip_empty_span g Hs H).
  rewrite orb_true_r. reflexivity.
Qed.

Lemma empty_half_discarded_witness :
  In (mkMatch 0 10 (lit "/** a */  ") [(2, []); (1, lit " a ")])
     (finditer re_section (lit "/** a */  "))
  /\ primary_section (mkMatch 0 10 (lit "/** a */  ") [(2, []); (1, lit " a ")])
     = None.
Proof.
  assert (H : In (mkMatch 0 10 (lit "/** a */  ") [(2, []); (1, lit " a ")])
                (finditer re_section (lit "/** a */  "))).
  { vm_compute. left. reflexivity. }
  split; [exact H|].
  apply (empty_half_discarded (lit "/** a */  ") _ H).
  right. reflexivity.
Defined.

(** ** Entries of parameters and exceptions *)

Lemma process_tags_param (v : str) (b : buffer) :
  process_tags (mkTag (lit "param") v) b
  = match type_entry (_tokenize v re_spaces 2) with
    | Some e => Some (add_to_buffer (lit "Parameters") (Some e) b)
    | None => None
    end.
Proof. reflexivity. Qed.

Lemma process_tags_exception (v : str) (b : buffer) :
  process_tags (mkTag (lit "exception") v) b
  = match type_entry (_tokenize v re_spaces 2) with
    | Some e => Some (add_to_buffer (lit "Exceptions") (Some e) b)
    | None => None
    end.
Proof. reflexivity. Qed.

Lemma process_tags_throws (v : str) (b : buffer) :
  process_tags (mkTag (lit "throws") v) b
  = match type_entry (_tokenize v re_spaces 2) with
    | Some e => Some (add_to_buffer (lit "Exceptions") (Some e) b)
    | None => None
    end.
Proof. reflexivity. Qed.

(** C5: a value made of a token, white space and a description.  A
    [param] tag adds the entry [`token` — description] to the group
    [Parameters]; [exception] and [throws] add the same entry to the
    group [Exceptions]. *)
Theorem type_and_description_entry (tok ws desc : str) (b : buffer) :
  tok <> [] -> forallb (fun c => negb (isspace c)) tok = true ->
  ws <> [] -> forallb isspace ws = true ->
  strip desc = desc ->
  process_tags (mkTag (lit "param") (tok ++ ws ++ desc)) b
  = Some (add_to_buffer (lit "Parameters")
            (Some (lit "`" ++ tok ++ lit "` " ++ [emdash] ++ lit " " ++ desc)) b)
  /\ process_tags (mkTag (lit "exception") (tok ++ ws ++ desc)) b
     = Some (add_to_buffer (lit "Exceptions")
               (Some (lit "`" ++ tok ++ lit "` " ++ [emdash] ++ lit " " ++ desc)) b)
  /\ process_tags (mkTag (lit "throws") (tok ++ ws ++ desc)) b
     = Some (add_to_buffer (lit "Exceptions")
               (Some (lit "`" ++ tok ++ lit "` " ++ [emdash] ++ lit " " ++ desc)) b).
Proof.
  intros H1 H2 H3 H4 H5.
  rewrite process_tags_param, process_tags_exception, process_tags_throws.
  rewrite (tokenize_pair tok ws desc H1 H2 H3 H4 H5). cbn [type_entry nth_error].
  auto.
Qed.

Lemma type_and_description_entry_witness :
  process_tags (mkTag (lit "param") (lit "x" ++ lit " " ++ lit "the input value")) []
  = Some [(lit "Parameters",
           [Some (lit "`" ++ lit "x" ++ lit "` " ++ [emdash] ++ lit " "
                  ++ lit "the input value")])].
Proof.
  destruct (type_and_description_entry (lit "x") (lit " ")
              (lit "the input value") []) as [H _];
    [discriminate|reflexivity|discriminate|reflexivity|reflexivity|exact H].
Defined.

Example param_rendered :
  _from_section (mkSection (lit "void f(int x);")
                   (lit "* @param x the input value")) 1 process_tags
  = Some ([nl; nl] ++ lit "## `void f(int x)`" ++ [nl; nl]
          ++ lit " * **Parameters:** `x` " ++ [emdash] ++ lit " the input value").
Proof. vm_compute. reflexivity. Qed.

(** C10: the split of a value always has two tokens, so [process_tags]
    never fails on an index; a value without white space, the empty
    value among them, is the first token and the second is empty, and
    the entry is [`value` — ] with nothing after the dash. *)
Theorem single_token_padded :
  (forall (text : str) (r : re) (limit : nat),
      List.length (_tokenize text r limit) = limit)
  /\ (forall (t : tag) (b : buffer), exists b', process_tags t b = Some b')
  /\ (forall (v : str) (b : buffer),
         forallb (fun c => negb (isspace c)) v = true ->
         _tokenize v re_spaces 2 = [v; []]
         /\ process_tags (mkTag (lit "param") v) b
            = Some (add_to_buffer (lit "Parameters")
                      (Some (lit "`" ++ v ++ lit "` " ++ [emdash] ++ lit " ")) b)
         /\ process_tags (mkTag (lit "exception") v) b
            = Some (add_to_buffer (lit "Exceptions")
                      (Some (lit "`" ++ v ++ lit "` " ++ [emdash] ++ lit " ")) b)
         /\ process_tags (mkTag (lit "throws") v) b
            = Some (add_to_buffer (lit "Exceptions")
                      (Some (lit "`" ++ v ++ lit "` " ++ [emdash] ++ lit " ")) b)).
Proof.
  split; [exact tokenize_length|]. split.
  - intros t b. rewrite process_tags_contribution. eauto.
  - intros v b H.
    rewrite process_tags_param, process_tags_exception, process_tags_throws.
    rewrite (tokenize_single v H). cbn [type_entry nth_error].
    rewrite !app_nil_r. auto.
Qed.

Lemma single_token_padded_witness :
  forallb (fun c => negb (isspace c)) (lit "x") = true
  /\ process_tags (mkTag (lit "param") (lit "x")) []
     = Some [(lit "Parameters", [Some (lit "`x` " ++ [emdash] ++ lit " ")])].
Proof.
  split; [reflexivity|].
  destruct single_token_padded as [_ [_ H]].
  destruct (H (lit "x") [] (eq_refl true)) as [_ [Hp _]]. exact Hp.
Defined.

(** ** Marker groups *)

Lemma render_groups_In (name : str) (es : list (option str)) (b : buffer) :
  In (name, es) b ->
  exists pre post, render_groups b = pre ++ _from_tag_group name es ++ post.
Proof.
  intros H. apply in_split in H. destruct H as [b1 [b2 ->]].
  exists (render_groups b1), (render_groups b2).
  unfold render_groups. rewrite map_app, concat_app. reflexivity.
Qed.

(** C6: a group whose entries are one [None] is rendered as the bold
    name alone, after a newline and the bullet: no colon and no value.
    So is each such group among the groups of a section, and a lone
    [@deprecated] gives [**Deprecated**]. *)
Theorem lone_marker_bold_label :
  (forall name : str,
      _from_tag_group name [None] = [nl] ++ lit " * **" ++ name ++ lit "**")
  /\ (forall (tags : list tag) (b : buffer) (name : str),
         add_tags process_tags tags [] = Some b ->
         In (name, [None]) b ->
         exists pre post,
           render_groups b
           = pre ++ ([nl] ++ lit " * **" ++ name ++ lit "**") ++ post)
  /\ (forall v : str,
         add_tags process_tags [mkTag (lit "deprecated") v] []
         = Some [(lit "Deprecated", [None])])
  /\ _from_section (mkSection (lit "void f();") (lit "* @deprecated")) 1
       process_tags
     = Some ([nl; nl] ++ lit "## `void f()`" ++ [nl; nl]
             ++ lit " * **Deprecated**").
Proof.
  split; [reflexivity|]. split; [|split].
  - intros tags b name _ H. apply (render_groups_In name [None] b H).
  - intros v. reflexivity.
  - vm_compute. reflexivity.
Qed.

Lemma lone_marker_bold_label_witness :
  exists pre post,
    render_groups [(lit "Returns", [Some (lit "r")]); (lit "Private", [None])]
    = pre ++ ([nl] ++ lit " * **" ++ lit "Private" ++ lit "**") ++ post.
Proof.
  apply (proj1 (proj2 lone_marker_bold_label)
           [mkTag (lit "return") (lit "r"); mkTag (lit "private") (lit "")]
           [(lit "Returns", [Some (lit "r")]); (lit "Private", [None])]
           (lit "Private")).
  - reflexivity.
  - right. left. reflexivity.
Defined.

(** ** Rendering is a function of the section *)

(** C7: rendering a section returns a fragment, and rendering the same
    section twice, one after the other as the loop over the sections
    does, returns the same fragment twice. *)
Theorem rendering_twice_identical (s : section) (h : Z) :
  exists out,
    _from_section s h process_tags = Some out
    /\ from_sections [s; s] h process_tags = Some [out; out].
Proof.
  destruct (from_section_total s h) as [out E].
  exists out. split; [exact E|].
  cbn [from_sections]. rewrite E. reflexivity.
Qed.

(** ** The whole document *)

Lemma from_sections_total (sections : list section) (h : Z) :
  from_sections sections h process_tags
  = Some (List.map (fun s => match _from_section s h process_tags with
                             | Some f => f
                             | None => []
                             end) sections).
Proof.
  induction sections as [|s l IH]; [reflexivity|].
  cbn [from_sections List.map]. destruct (from_section_total s h) as [out E].
  rewrite E, IH. reflexivity.
Qed.

(** [from_javadoc] returns on every input: the heading, the fragment of
    each extracted section in the order of extraction, and a final
    newline. *)
Theorem from_javadoc_shape (code : str) (h : Z) :
  exists frags,
    from_sections (_get_sections code) h process_tags = Some frags
    /\ List.length frags = List.length (_get_sections code)
    /\ from_javadoc code h
       = Some (times (lit "#") h ++ lit " Documentation" ++ concat frags ++ [nl]).
Proof.
  eexists. split; [apply from_sections_total|]. split.
  - apply length_map.
  - unfold from_javadoc, _from_doc. rewrite from_sections_total. reflexivity.
Qed.

(** ** The buffer is a dictionary *)

Lemma add_to_buffer_keys (k : str) (v : option str) (b : buffer) :
  List.map fst (add_to_buffer k v b)
  = if str_in k (List.map fst b) then List.map fst b else List.map fst b ++ [k].
Proof.
  induction b as [|[k' es] b IH]; [reflexivity|].
  cbn [add_to_buffer List.map fst str_in existsb].
  destruct (Str.eqb k k') eqn:E; [reflexivity|].
  cbn [List.map fst orb]. rewrite IH.
  unfold str_in. destruct (existsb (Str.eqb k) (List.map fst b)); reflexivity.
Qed.

Lemma add_to_buffer_NoDup (k : str) (v : option str) (b : buffer) :
  NoDup (List.map fst b) -> NoDup (List.map fst (add_to_buffer k v b)).
Proof.
  intros H. rewrite add_to_buffer_keys.
  destruct (str_in k (List.map fst b)) eqn:E; [exact H|].
  apply NoDup_app; [exact H|repeat constructor; intros []|].
  intros x Hx [Ex|[]]. subst x.
  apply (proj2 (str_in_In k (List.map fst b))) in Hx. congruence.
Qed.

Lemma add_to_buffer_count (k : str) (v : option str) (b : buffer) :
  entry_count (add_to_buffer k v b) = S (entry_count b).
Proof.
  unfold entry_count. induction b as [|[k' es] b IH]; [reflexivity|].
  cbn [add_to_buffer]. destruct (Str.eqb k k').
  - simpl. rewrite length_app. simpl. lia.
  - simpl. simpl in IH. rewrite IH. lia.
Qed.

Lemma add_to_buffer_nonempty (k : str) (v : option str) (b : buffer) :
  Forall (fun g => snd g <> []) b ->
  Forall (fun g => snd g <> []) (add_to_buffer k v b).
Proof.
  induction 1 as [|[k' es] b H1 H2 IH]; cbn [add_to_buffer].
  - repeat constructor. discriminate.
  - destruct (Str.eqb k k'); constructor; auto.
    cbn [snd]. destruct es; discriminate.
Qed.

(** A tag contributes an entry exactly when its key is in the policy. *)
Lemma contribution_recognised (t : tag) :
  str_in (key t) policy_keys = true ->
  exists c, contribution t = Some c.
Proof.
  intros H. destruct t as [k v]. cbn [key] in H.
  apply str_in_In in H. unfold policy_keys in H. cbn [In] in H.
  unfold contribution.
  repeat (destruct H as [H|H];
          [subst k;
           first [ eexists; reflexivity
                 | rewrite ?process_tags_param, ?process_tags_exception,
                     ?process_tags_throws;
                   destruct (type_entry_tokenize v re_spaces) as [e ->];
                   eexists; reflexivity ]
          |]).
  contradiction.
Qed.

Lemma contribution_unknown (t : tag) :
  str_in (key t) policy_keys = false -> contribution t = None.
Proof.
  intros H. unfold contribution. rewrite (process_tags_unknown t [] H). reflexivity.
Qed.

Lemma contributions_length (tags : list tag) :
  List.length (contributions tags) = List.length (recognised tags).
Proof.
  unfold contributions, recognised.
  induction tags as [|t tags IH]; [reflexivity|].
  cbn [flat_map filter]. rewrite length_app, IH.
  destruct (str_in (key t) policy_keys) eqn:E.
  - destruct (contribution_recognised t E) as [c ->]. reflexivity.
  - rewrite (contribution_unknown t E). reflexivity.
Qed.

Lemma fold_add_invariants (cs : list (str * option str)) (b : buffer) :
  NoDup (List.map fst b) -> Forall (fun g => snd g <> []) b ->
  let b' := fold_left (fun b c => add_to_buffer (fst c) (snd c) b) cs b in
  NoDup (List.map fst b') /\ Forall (fun g => snd g <> []) b'
  /\ entry_count b' = entry_count b + List.length cs.
Proof.
  revert b. induction cs as [|c cs IH]; intros b H1 H2; cbn [fold_left List.length].
  - repeat split; auto.
  - destruct (IH (add_to_buffer (fst c) (snd c) b)) as [A [B C]].
    + apply add_to_buffer_NoDup; exact H1.
    + apply add_to_buffer_nonempty; exact H2.
    + repeat split; auto. cbv zeta in C. rewrite C, add_to_buffer_count. lia.
Qed.

(** The buffer filled from the tags of a section: its group names are
    distinct, no group is empty, and it holds one entry for each tag
    whose key is in the policy, none for the others. *)
Theorem buffer_invariants (tags : list tag) :
  exists b,
    add_tags process_tags tags [] = Some b
    /\ NoDup (List.map fst b)
    /\ Forall (fun g => snd g <> []) b
    /\ entry_count b = List.length (recognised tags).
Proof.
  eexists. split; [apply add_tags_contributions|].
  destruct (fold_add_invariants (contributions tags) []) as [A [B C]].
  - constructor.
  - constructor.
  - repeat split; auto. cbv zeta in C. rewrite C, contributions_length. reflexivity.
Qed.

(** ** Trimming twice *)

Lemma lstrip_idem (s : str) : lstrip (lstrip s) = lstrip s.
Proof.
  induction s as [|c s IH]; [reflexivity|]. simpl.
  destruct (isspace c) eqn:E; [exact IH|]. simpl. rewrite E. reflexivity.
Qed.

Lemma rstrip_idem (s : str) : rstrip (rstrip s) = rstrip s.
Proof. unfold rstrip. rewrite rev_involutive, lstrip_idem. reflexivity. Qed.

Lemma lstrip_app_nonempty (x y : str) :
  lstrip x <> [] -> lstrip (x ++ y) = lstrip x ++ y.
Proof.
  induction x as [|c x IH]; simpl; [congruence|].
  destruct (isspace c); auto.
Qed.

Lemma lstrip_app_empty (x y : str) :
  lstrip x = [] -> lstrip (x ++ y) = lstrip y.
Proof.
  induction x as [|c x IH]; simpl; [reflexivity|].
  destruct (isspace c); [exact IH|discriminate].
Qed.

Lemma rev_nil (A : Type) (l : list A) : rev l = [] -> l = [].
Proof.
  intros H. apply (f_equal (@rev A)) in H. rewrite rev_involutive in H. exact H.
Qed.

Lemma rstrip_app_nonempty (x y : str) :
  rstrip y <> [] -> rstrip (x ++ y) = x ++ rstrip y.
Proof.
  unfold rstrip. intros H. rewrite rev_app_distr.
  rewrite lstrip_app_nonempty.
  - rewrite rev_app_distr, rev_involutive. reflexivity.
  - intros E. apply H. rewrite E. reflexivity.
Qed.

Lemma rstrip_app_empty (x y : str) :
  rstrip y = [] -> rstrip (x ++ y) = rstrip x.
Proof.
  unfold rstrip. intros H. apply rev_nil in H.
  rewrite rev_app_distr, lstrip_app_empty by exact H. reflexivity.
Qed.

(** A suffix of a string without white space at its end has none
    either. *)
Lemma rstrip_app_fixed (x y : str) :
  rstrip (x ++ y) = x ++ y -> rstrip y = y.
Proof.
  intros H. destruct (rstrip y) as [|c r] eqn:E.
  - rewrite rstrip_app_empty in H by exact E.
    pose proof (rstrip_length x) as L. rewrite H, length_app in L.
    destruct y; [reflexivity|simpl in L; lia].
  - rewrite rstrip_app_nonempty in H by (rewrite E; discriminate).
    apply app_inv_head in H. congruence.
Qed.

Lemma lstrip_rstrip (s : str) : lstrip (rstrip (lstrip s)) = rstrip (lstrip s).
Proof.
  destruct (lstrip s) as [|c t] eqn:E; [reflexivity|].
  assert (Hc : isspace c = false).
  { pose proof (span_lstrip s) as H. rewrite E in H. cbn [span cls_test] in H.
    destruct (isspace c); [discriminate|reflexivity]. }
  destruct (rstrip (c :: t)) as [|c' t'] eqn:R.
  - reflexivity.
  - assert (c' = c) as ->.
    { unfold rstrip in R. simpl in R.
      destruct (lstrip (rev t ++ [c])) as [|a l] eqn:L; [discriminate|].
      assert (Hl : exists l', lstrip (rev t ++ [c]) = l' ++ [c]).
      { clear -Hc. induction (rev t) as [|a l IH]; simpl.
        - rewrite Hc. exists []. reflexivity.
        - destruct (isspace a); [exact IH|]. exists (a :: l). reflexivity. }
      destruct Hl as [l' Hl]. rewrite L in Hl. rewrite Hl in R.
      rewrite rev_app_distr in R. simpl in R. congruence. }
    apply lstrip_head. exact Hc.
Qed.

Lemma strip_idem (s : str) : strip (strip s) = strip s.
Proof.
  unfold strip. rewrite lstrip_rstrip. apply rstrip_idem.
Qed.

Lemma strip_rstrip_fixed (s : str) : rstrip (strip s) = strip s.
Proof. unfold strip. apply rstrip_idem. Qed.

(** ** The two tokens of a value *)

Lemma take_nonspace_nospace (s : str) :
  forallb (fun c => negb (isspace c)) (take_nonspace s) = true.
Proof.
  induction s as [|c s IH]; [reflexivity|]. simpl.
  destruct (isspace c) eqn:E; [reflexivity|]. simpl. rewrite E. exact IH.
Qed.

Lemma firstn_span_spaces (s : str) :
  forallb isspace (firstn (span Space s) s) = true.
Proof.
  induction s as [|c s IH]; [reflexivity|]. cbn [span cls_test].
  destruct (isspace c) eqn:E; [|reflexivity]. simpl. rewrite E. exact IH.
Qed.

(** The value of a [param], [exception] or [throws] tag is cut into two
    tokens: the first has no white space, the second has none at its
    ends, and the trimmed value is the first token, a run of white
    space and the second token; the run is empty exactly when the
    second token is. *)
Theorem tokenize_parts (text : str) :
  exists t0 ws t1,
    _tokenize text re_spaces 2 = [t0; t1]
    /\ forallb (fun c => negb (isspace c)) t0 = true
    /\ forallb isspace ws = true
    /\ strip t1 = t1
    /\ strip text = t0 ++ ws ++ t1
    /\ (ws = [] <-> t1 = []).
Proof.
  destruct text as [|c0 text0] eqn:Et.
  { exists [], [], []. repeat split; reflexivity. }
  rewrite <- Et. clear Et text0 c0.
  assert (Htok : _tokenize text re_spaces 2
                 = firstn 2 (Re.split re_spaces (strip text) 1 ++ repeat [] 2)).
  { unfold _tokenize. destruct text; [|reflexivity].
    vm_compute. reflexivity. }
  rewrite Htok, split_spaces_once. clear Htok.
  set (T := strip text). assert (HT : rstrip T = T) by apply strip_rstrip_fixed.
  clearbody T. pose proof (take_drop_nonspace T) as Hs.
  destruct (drop_nonspace T) as [|d r] eqn:Ed.
  - exists T, [], []. rewrite app_nil_r in Hs.
    split; [reflexivity|]. split.
    { rewrite <- Hs. apply take_nonspace_nospace. }
    split; [reflexivity|]. split; [reflexivity|]. split.
    { rewrite !app_nil_r. reflexivity. }
    split; reflexivity.
  - rewrite <- Ed in *.
    exists (take_nonspace T), (firstn (span Space (drop_nonspace T)) (drop_nonspace T)),
      (lstrip (drop_nonspace T)).
    assert (Hcut : firstn (span Space (drop_nonspace T)) (drop_nonspace T)
                   ++ lstrip (drop_nonspace T) = drop_nonspace T).
    { rewrite lstrip_skipn. apply firstn_skipn. }
    assert (Hr : rstrip (lstrip (drop_nonspace T)) = lstrip (drop_nonspace T)).
    { apply (rstrip_app_fixed
               (take_nonspace T
                ++ firstn (span Space (drop_nonspace T)) (drop_nonspace T))).
      rewrite <- app_assoc, Hcut, Hs. exact HT. }
    assert (Hne : lstrip (drop_nonspace T) <> []).
    { intros E. rewrite E, app_nil_r in Hcut.
      assert (Hsp : rstrip (drop_nonspace T) = []).
      { unfold rstrip. rewrite <- Hcut at 1.
        assert (A : forall l, forallb isspace l = true -> lstrip l = []).
        { induction l as [|a l IH]; simpl; [reflexivity|].
          intros H. apply andb_true_iff in H. destruct H as [-> H]. auto. }
        rewrite A; [reflexivity|]. rewrite forallb_rev. apply firstn_span_spaces. }
      pose proof (rstrip_app_fixed (take_nonspace T) (drop_nonspace T)) as F.
      rewrite Hs in F. specialize (F HT). rewrite Hsp in F.
      rewrite Ed in F. discriminate. }
    split; [reflexivity|]. split; [apply take_nonspace_nospace|].
    split; [apply firstn_span_spaces|]. split.
    { unfold strip. rewrite lstrip_idem. exact Hr. }
    split.
    { rewrite Hcut, Hs. reflexivity. }
    split.
    + intros E. exfalso. destruct (drop_nonspace_head T) as [H|H]; [congruence|].
      destruct (span Space (drop_nonspace T)); [lia|].
      destruct (drop_nonspace T); discriminate.
    + intros E. contradiction.
Qed.

(** ** A match consumes a prefix of the text *)

Lemma iter_suffix (R : state -> state -> Prop) :
  (forall st e, R st e -> exists w, rest st = w ++ rest e) ->
  forall n st e, iter R n st e -> exists w, rest st = w ++ rest e.
Proof.
  intros HR. induction 1 as [st|n st st1 st2 H1 _ IH].
  - exists []. reflexivity.
  - apply HR in H1. destruct H1 as [w1 E1]. destruct IH as [w2 E2].
    exists (w1 ++ w2). rewrite E1, E2, app_assoc. reflexivity.
Qed.

Lemma Matches_suffix (r : re) :
  forall st e, Matches r st e -> exists w, rest st = w ++ rest e.
Proof.
  induction r as [|c|r1 IH1 r2 IH2|r1 IH1 r2 IH2|lo hi g r IH|i r IH|r IH|m|m];
    intros st e H; inversion H; subst; cbn [rest set_cap with_caps advance];
    try (exists []; reflexivity);
    try match goal with
        | H1 : Matches r1 _ ?x, H2 : Matches r2 ?x _ |- _ =>
            apply IH1 in H1; apply IH2 in H2;
            destruct H1 as [w1 E1]; destruct H2 as [w2 E2];
            exists (w1 ++ w2); rewrite E1, E2, app_assoc; reflexivity
        | H1 : iter _ _ _ _ |- _ => eapply iter_suffix; eauto
        | E : rest _ = ?a :: _ |- _ => exists [a]; exact E
        end; auto.
Qed.

Lemma Matches_Look_inv r st e :
  Matches (Look r) st e -> exists e', Matches r st e' /\ e = with_caps (caps e') st.
Proof. intros H. inversion H; subst. eauto. Qed.

(** ** Subjects without a match *)

Lemma scan_nil (r : re) (P : str -> Prop) :
  (forall c s, P (c :: s) -> P s) ->
  (forall st, P (rest st) -> match_at r false st = None) ->
  forall s p pv, P s -> scan r p pv s 0 = [].
Proof.
  intros Htl Hno. induction s as [|c s IH]; intros p pv H; rewrite scan_0;
    unfold matches_here; rewrite Hno by exact H; cbn [fst snd app].
  - reflexivity.
  - apply IH. apply (Htl c). exact H.
Qed.

(** A match of the pattern that starts a tag needs an [@] in the text. *)
Lemma tag_start_needs_at (st e : state) :
  Matches re_tag_start st e -> In (ch "@") (rest st).
Proof.
  unfold re_tag_start, cat. cbn [fold_right]. intros H.
  apply Matches_Seq_inv in H. destruct H as [s1 [M1 H]].
  apply Matches_Seq_inv in H. destruct H as [s2 [M2 H]].
  apply Matches_Seq_inv in H. destruct H as [s3 [M3 H]].
  apply Matches_Seq_inv in H. destruct H as [s4 [M4 H]].
  apply Matches_Seq_inv in H. destruct H as [s5 [M5 _]].
  apply Matches_Look_inv in M5. destruct M5 as [e' [M5 _]].
  unfold lits, cat in M5. cbn [fold_right List.map lit list_ascii_of_string] in M5.
  apply Matches_Seq_inv in M5. destruct M5 as [x [M5 _]].
  apply Matches_Chr_inv in M5. destruct M5 as [a [t [E [Ha _]]]].
  cbn [cls_test] in Ha. apply N.eqb_eq in Ha. subst a.
  apply Matches_suffix in M1, M2, M3, M4.
  destruct M1 as [w1 E1], M2 as [w2 E2], M3 as [w3 E3], M4 as [w4 E4].
  rewrite E1, E2, E3, E4, E. rewrite !in_app_iff. do 4 right. left. reflexivity.
Qed.

Lemma split_tags_none (d : str) :
  ~ In (ch "@") d -> Re.split re_tag_start d 0 = [d].
Proof.
  intros H. unfold Re.split, finditer.
  rewrite (scan_nil re_tag_start (fun s => ~ In (ch "@") s)); auto.
  - intros c s Hn Hin. apply Hn. right. exact Hin.
  - intros st Hn. unfold match_at.
    destruct (run re_tag_start st _) as [e|] eqn:E; [|reflexivity].
    apply run_sound in E. destruct E as [e' [M _]].
    apply tag_start_needs_at in M. contradiction.
Qed.

(** A comment without [@] has no tags: the fragment is the heading and
    the description, and the function given for the tags is not
    called. *)
Theorem no_at_no_tag_block (s : section) (h : Z)
    (fn : tag -> buffer -> option buffer) :
  ~ In (ch "@") (doc s) ->
  _from_section s h fn
  = Some (match _get_field_declaration (line s) with
          | [] => []
          | f =>
              [nl; nl] ++ times (lit "#") (h + 1) ++ lit " `" ++ f ++ lit "`"
              ++ match _get_doc_description (doc s) with
                 | [] => []
                 | d => [nl; nl] ++ d
                 end
          end).
Proof.
  intros H. unfold _from_section. rewrite (split_tags_none (doc s) H).
  cbn [hd tl _get_doc_tags flat_map].
  destruct (_get_field_declaration (line s)); [reflexivity|].
  destruct (_get_doc_description (doc s)).
  - rewrite !app_nil_r. reflexivity.
  - rewrite <- !app_assoc. reflexivity.
Qed.

Lemma no_at_no_tag_block_witness :
  _from_section (mkSection (lit "int x;") (lit "* The x.")) 1 process_tags
  = Some ([nl; nl] ++ lit "## `int x`" ++ [nl; nl] ++ lit "The x.").
Proof.
  rewrite (no_at_no_tag_block (mkSection (lit "int x;") (lit "* The x.")) 1
             process_tags).
  - vm_compute. reflexivity.
  - vm_compute. intros H.
    repeat (destruct H as [H|H]; [discriminate|]). contradiction.
Defined.

(** ** Code without a documentation comment *)

Lemma has_sub_tail (p : str) (c : char) (s : str) :
  has_sub p (c :: s) = false -> has_sub p s = false.
Proof. cbn [has_sub]. intros H. apply orb_false_iff in H. tauto. Qed.

Lemma has_sub_head (p s : str) :
  has_sub p s = false -> startswith s p = false.
Proof.
  destruct s; cbn [has_sub]; intros H; apply orb_false_iff in H; tauto.
Qed.

(** Both patterns of the extractor begin with the opening of a
    documentation comment. *)
Lemma opener_needed (r : re) (st : state) (k : state -> option state) :
  startswith (rest st) (lit "/**") = false ->
  run (Seq (lits "/**") r) st k = None.
Proof.
  intros H. unfold lits, cat.
  cbn [fold_right List.map lit list_ascii_of_string run].
  unfold lit in H. cbn [List.map list_ascii_of_string] in H.
  destruct (rest st) as [|a t]; [reflexivity|].
  cbn [cls_test startswith] in *. rewrite (N.eqb_sym _ a) in H.
  destruct (N.eqb a (N_of_ascii "/")); [|reflexivity].
  cbn [advance rest andb] in *.
  destruct t as [|b t]; [reflexivity|].
  cbn [cls_test startswith] in *. rewrite (N.eqb_sym _ b) in H.
  destruct (N.eqb b (N_of_ascii "*")); [|reflexivity].
  cbn [advance rest andb] in *.
  destruct t as [|c t]; [reflexivity|].
  cbn [cls_test startswith] in *. rewrite (N.eqb_sym _ c) in H.
  destruct (N.eqb c (N_of_ascii "*")); [|reflexivity].
  destruct t; simpl in H; discriminate.
Qed.

Lemma finditer_section_nil (code : str) :
  has_sub (lit "/**") code = false -> finditer re_section code = [].
Proof.
  intros H. unfold finditer.
  apply (scan_nil re_section (fun s => has_sub (lit "/**") s = false)); auto.
  - intros c s. apply has_sub_tail.
  - intros st Hs. unfold match_at, re_section, cat. cbn [fold_right].
    apply opener_needed. apply has_sub_head. exact Hs.
Qed.

Lemma finditer_comment_nil (code : str) :
  has_sub (lit "/**") code = false -> finditer re_comment code = [].
Proof.
  intros H. unfold finditer.
  apply (scan_nil re_comment (fun s => has_sub (lit "/**") s = false)); auto.
  - intros c s. apply has_sub_tail.
  - intros st Hs. unfold match_at, re_comment, cat. cbn [fold_right].
    apply opener_needed. apply has_sub_head. exact Hs.
Qed.

(** Code in which [/**] does not occur, the empty text among it, has no
    sections, and its document is the heading alone. *)
Theorem no_comment_no_sections (code : str) (h : Z) :
  has_sub (lit "/**") code = false ->
  _get_sections code = []
  /\ from_javadoc code h
     = Some (times (lit "#") h ++ lit " Documentation" ++ [nl]).
Proof.
  intros H. assert (E : _get_sections code = []).
  { unfold _get_sections.
    rewrite finditer_section_nil, finditer_comment_nil by exact H. reflexivity. }
  split; [exact E|]. unfold from_javadoc, _from_doc. rewrite E. reflexivity.
Qed.

Lemma no_comment_no_sections_witness :
  _get_sections (lit "int x; /* plain */ int y;") = []
  /\ from_javadoc (lit "int x; /* plain */ int y;") 2
     = Some (lit "## Documentation" ++ [nl]).
Proof.
  apply (no_comment_no_sections (lit "int x; /* plain */ int y;") 2).
  reflexivity.
Defined.

(** ** What every section holds *)

Lemma collect_In {A B : Type} (body : A -> option B) (l : list A) (y : B) :
  In y (collect body l) <-> exists x, In x l /\ body x = Some y.
Proof.
  unfold collect. rewrite in_flat_map. split.
  - intros [x [Hx H]]. exists x. split; [exact Hx|].
    destruct (body x); [|contradiction]. destruct H as [->|[]]. reflexivity.
  - intros [x [Hx H]]. exists x. split; [exact Hx|]. rewrite H. left. reflexivity.
Qed.

Lemma first_nonblank_some (ls : list str) (l : str) :
  first_nonblank ls = Some l -> l <> [] /\ strip l = l.
Proof.
  induction ls as [|x ls IH]; cbn [first_nonblank]; [discriminate|].
  destruct (strip x) as [|c t] eqn:E; [exact IH|].
  intros H. injection H as <-. rewrite <- E. split.
  - rewrite E. discriminate.
  - apply strip_idem.
Qed.

Lemma primary_section_some (code : str) (m : mtch) (s : section) :
  In m (finditer re_section code) ->
  primary_section m = Some s ->
  line s <> [] /\ strip (line s) = line s /\ doc s <> []
  /\ startswith (line s) (lit "import") = false.
Proof.
  intros Hin H. unfold primary_section in H.
  destruct (is_empty (group_or_empty 1 m)) eqn:E1; [discriminate|].
  destruct (is_empty (group_or_empty 2 m)) eqn:E2; [discriminate|].
  cbn [orb] in H.
  destruct (startswith (strip (group_or_empty 2 m)) (lit "import")) eqn:E3;
    [discriminate|].
  injection H as <-. cbn [line doc].
  apply scan_In in Hin. destruct Hin as [st [b [e [_ [He ->]]]]].
  apply section_match_declaration in He. destruct He as [g [Hg Hs]].
  unfold group_or_empty, group, mk_match in *. cbn [m_caps] in *.
  rewrite Hg in *. repeat split.
  - intros E. apply (strip_empty_span g Hs) in E. subst g. discriminate.
  - apply strip_idem.
  - destruct (negb _).
    + discriminate.
    + destruct (lookup 1 (caps e)) as [[|? ?]|]; discriminate.
  - exact E3.
Qed.

Lemma fallback_section_some (code : str) (m : mtch) (s : section) :
  fallback_section code m = Some s ->
  line s <> [] /\ strip (line s) = line s /\ doc s <> [].
Proof.
  unfold fallback_section.
  destruct (is_empty (group_or_empty 1 m)) eqn:E1; [discriminate|].
  destruct (first_nonblank _) as [l|] eqn:E; [|discriminate].
  intros H. injection H as <-. cbn [line doc].
  apply first_nonblank_some in E. destruct E as [A B].
  repeat split; auto. destruct (group_or_empty 1 m); discriminate.
Qed.

(** Every section the extractor returns has a declaration that is not
    empty and has no white space at its ends, and a comment that is
    not empty; the sections of the first loop do not begin with
    [import]. *)
Theorem sections_well_formed (code : str) (s : section) :
  In s (_get_sections code) ->
  line s <> [] /\ strip (line s) = line s /\ doc s <> []
  /\ (In s (collect primary_section (finditer re_section code)) ->
      startswith (line s) (lit "import") = false).
Proof.
  intros H.
  assert (P : In s (collect primary_section (finditer re_section code)) ->
              line s <> [] /\ strip (line s) = line s /\ doc s <> []
              /\ startswith (line s) (lit "import") = false).
  { intros Hp. apply collect_In in Hp. destruct Hp as [m [Hm Hs]].
    exact (primary_section_some code m s Hm Hs). }
  unfold _get_sections in H.
  destruct (collect primary_section (finditer re_section code)) as [|s0 l] eqn:E.
  - apply collect_In in H. destruct H as [m [_ Hs]].
    apply fallback_section_some in Hs. destruct Hs as [A [B C]].
    repeat split; auto. intros [].
  - destruct (P H) as [A [B [C D]]]. repeat split; auto.
Qed.

Lemma sections_well_formed_witness :
  In (mkSection (lit "int x;") (lit "* doc"))
     (_get_sections (lit "/** doc */ int x;"))
  /\ strip (lit "int x;") = lit "int x;"
  /\ startswith (lit "int x;") (lit "import") = false.
Proof.
  assert (H : In (mkSection (lit "int x;") (lit "* doc"))
                (_get_sections (lit "/** doc */ int x;"))).
  { vm_compute. left. reflexivity. }
  destruct (sections_well_formed (lit "/** doc */ int x;")
              (mkSection (lit "int x;") (lit "* doc")) H) as [_ [A [_ B]]].
  split; [exact H|]. split; [exact A|]. apply B. vm_compute. left. reflexivity.
Defined.

Lemma run_Seq r1 r2 st k :
  run (Seq r1 r2) st k = run r1 st (fun st1 => run r2 st1 k).
Proof. reflexivity. Qed.

(** ** Lazy repetitions *)

(** A lazy repetition past its minimum stops where the continuation
    first accepts. *)
Lemma lazy_zero (body : state -> (state -> option state) -> option state)
    (lo : nat) (hi : option nat) (k : state -> option state) (e : state)
    (fuel n : nat) (st : state) :
  lo <= n -> k st = Some e ->
  rep_loop body lo hi false k (S fuel) n st = Some e.
Proof.
  intros Hlo Hk. rewrite rep_loop_S. cbv zeta.
  assert (Nat.ltb n lo = false) as -> by (apply Nat.ltb_ge; exact Hlo).
  rewrite Hk. reflexivity.
Qed.

Lemma lazy_first (c : cls) (k : state -> option state) (e : state) (n : nat) :
  forall fuel m st,
    List.length (rest st) < fuel ->
    n <= span c (rest st) ->
    (forall j, j < n -> k (steps j st) = None) ->
    k (steps n st) = Some e ->
    rep_loop (run (Chr c)) 0 None false k fuel m st = Some e.
Proof.
  induction n as [|n IH]; intros fuel m st Hf Hn Hnone Hk;
    (destruct fuel as [|fuel]; [lia|]).
  - apply lazy_zero; [lia|exact Hk].
  - rewrite rep_loop_S, run_Chr. cbv zeta. cbn [below].
    assert (Nat.ltb m 0 = false) as -> by (apply Nat.ltb_ge; lia).
    pose proof (Hnone 0 ltac:(lia)) as H0. cbn [steps] in H0. rewrite H0.
    destruct (rest st) as [|a t] eqn:E; [simpl in Hn; lia|].
    cbn [span] in Hn. destruct (cls_test c a) eqn:Ea; [|lia].
    assert (Nat.ltb (pos st) (pos (advance st a t)) = true) as ->
      by (apply Nat.ltb_lt; simpl; lia).
    rewrite orb_true_r. apply IH.
    + simpl in *. lia.
    + simpl. lia.
    + intros j Hj. specialize (Hnone (S j)). cbn [steps] in Hnone.
      rewrite (step_cons st a t E) in Hnone. apply Hnone. lia.
    + cbn [steps] in Hk. rewrite (step_cons st a t E) in Hk. exact Hk.
Qed.

(** ** Spans *)

Lemma span_app_all (c : cls) (w r : str) :
  forallb (cls_test c) w = true -> span c r = 0 ->
  span c (w ++ r) = List.length w.
Proof.
  intros H Hr. induction w as [|a w IH]; [exact Hr|].
  simpl in H. apply andb_true_iff in H. destruct H as [Ha H].
  cbn [app span List.length]. rewrite Ha, IH by exact H. reflexivity.
Qed.

Lemma span_all (c : cls) (w : str) :
  forallb (cls_test c) w = true -> span c w = List.length w.
Proof.
  intros H. rewrite <- (app_nil_r w) at 1. apply span_app_all; auto.
Qed.

Lemma steps_app (w r : str) (st : state) :
  rest st = w ++ r ->
  rest (steps (List.length w) st) = r
  /\ pos (steps (List.length w) st) = pos st + List.length w
  /\ caps (steps (List.length w) st) = caps st.
Proof.
  intros H. rewrite steps_rest, steps_caps, steps_pos, H.
  - rewrite skipn_app, Nat.sub_diag, skipn_all. auto.
  - rewrite H, length_app. lia.
Qed.

(** ** A tag block on one line *)

Lemma in_lstrip (x : char) (s : str) : In x (lstrip s) -> In x s.
Proof.
  induction s as [|c s IH]; simpl; [auto|].
  destruct (isspace c); [auto|]. simpl. auto.
Qed.

Lemma in_strip (x : char) (s : str) : In x (strip s) -> In x s.
Proof.
  unfold strip, rstrip. intros H. apply in_rev in H. apply in_lstrip in H.
  apply in_rev in H. apply in_lstrip in H. exact H.
Qed.

Lemma wrap_fail (st : state) :
  (forall a, In a (rest st) -> a <> cr /\ a <> nl) ->
  match_at re_wrap false st = None.
Proof.
  intros H. unfold match_at, re_wrap, cat. cbn [fold_right].
  rewrite run_Seq, run_Rep. cbn [Nat.add]. rewrite rep_loop_S, run_Chr. cbv zeta.
  cbn [below Nat.ltb Nat.leb].
  destruct (rest st) as [|a t]; [reflexivity|].
  destruct (H a (or_introl eq_refl)) as [H1 H2].
  unfold cls_test, item_test. cbn [existsb xorb].
  assert (N.leb cr a && N.leb a cr = false) as ->.
  { destruct (N.leb_spec cr a), (N.leb_spec a cr); try reflexivity.
    exfalso. apply H1. apply N.le_antisymm; assumption. }
  assert (N.leb nl a && N.leb a nl = false) as ->.
  { destruct (N.leb_spec nl a), (N.leb_spec a nl); try reflexivity.
    exfalso. apply H2. apply N.le_antisymm; assumption. }
  reflexivity.
Qed.

Lemma sub_wrap_one_line (s : str) :
  (forall a, In a s -> a <> cr /\ a <> nl) ->
  Re.sub re_wrap [TLit ([nl; nl] ++ lit "     ")] s = s.
Proof.
  intros H. unfold Re.sub, finditer.
  rewrite (scan_nil re_wrap (fun s => forall a, In a s -> a <> cr /\ a <> nl));
    auto.
  - intros c t Ht a Ha. apply Ht. right. exact Ha.
  - intros st. apply wrap_fail.
Qed.

Lemma alpha_any (c : char) :
  cls_test (CSet false [ISpace; INotSpace]) c = true.
Proof. unfold cls_test, item_test. cbn [existsb xorb]. destruct (isspace c); reflexivity. Qed.

(** ** Running a pattern step by step *)

Lemma run_Eps st k : run Eps st k = k st.
Proof. reflexivity. Qed.

Lemma run_lit_hit (a : char) (t : str) (st : state) (k : state -> option state) :
  rest st = a :: t -> run (Chr (Lit a)) st k = k (advance st a t).
Proof. intros H. rewrite run_Chr, H. cbn [cls_test]. rewrite N.eqb_refl. reflexivity. Qed.

Lemma run_Bol_start (m : bool) (st : state) (k : state -> option state) :
  prev st = None -> run (Bol m) st k = k st.
Proof. intros H. cbn [run]. unfold at_bol. rewrite H. reflexivity. Qed.

Lemma run_lazy_zero (hi : option nat) (r : re) (st : state)
    (k : state -> option state) (e : state) :
  k st = Some e -> run (Rep 0 hi false r) st k = Some e.
Proof. intros H. rewrite run_Rep. apply lazy_zero; [lia|exact H]. Qed.

(** A group around a greedy repetition of one class takes the longest
    run of the class, when the continuation accepts that. *)
Lemma run_grp_greedy (i : nat) (c : cls) (lo : nat) (w r : str) (st : state)
    (k : state -> option state) (e : state) :
  rest st = w ++ r -> forallb (cls_test c) w = true -> span c r = 0 ->
  lo <= List.length w ->
  k (set_cap i w (steps (List.length w) st)) = Some e ->
  run (Grp i (Rep lo None true (Chr c))) st k = Some e.
Proof.
  intros Hr Hw Hs Hlo Hk.
  assert (Sp : span c (rest st) = List.length w)
    by (rewrite Hr; apply span_app_all; assumption).
  destruct (steps_app w r st Hr) as [_ [P _]].
  change (run (Grp i (Rep lo None true (Chr c))) st k)
    with (run (Rep lo None true (Chr c)) st
            (fun st' => k (set_cap i (firstn (pos st' - pos st) (rest st)) st'))).
  rewrite run_Rep. apply greedy_max.
  - lia.
  - lia.
  - rewrite Sp, P, Hr.
    replace (pos st + List.length w - pos st) with (List.length w) by lia.
    rewrite firstn_app, Nat.sub_diag, firstn_all. cbn [firstn].
    rewrite app_nil_r. exact Hk.
Qed.

(** The match of the tag pattern on [@], a key and a remainder. *)
Lemma tag_match (k r : str) :
  k <> [] -> forallb is_alpha k = true ->
  span (CSet false [IRange (ch "a") (ch "z"); IRange (ch "A") (ch "Z")]) r = 0 ->
  exists e,
    match_at re_tag false (mkState 0 None (lit "@" ++ k ++ r) []) = Some e
    /\ caps e = [(2, r); (1, k)].
Proof.
  intros Hk Hal Hr.
  assert (HalC : forallb (cls_test (CSet false [IRange (ch "a") (ch "z");
                                                IRange (ch "A") (ch "Z")])) k
                 = true).
  { clear -Hal. induction k as [|a k IH]; [reflexivity|].
    simpl in Hal. apply andb_true_iff in Hal. destruct Hal as [Ha Hal].
    cbn [forallb]. rewrite cls_alpha, Ha, IH by exact Hal. reflexivity. }
  assert (HanyC : forallb (cls_test (CSet false [ISpace; INotSpace])) r = true).
  { clear. induction r as [|a r IH]; [reflexivity|].
    cbn [forallb]. rewrite alpha_any, IH. reflexivity. }
  set (st0 := mkState 0 None (lit "@" ++ k ++ r) []).
  set (s1 := advance st0 (ch "@") (k ++ r)).
  set (s2 := set_cap 1 k (steps (List.length k) s1)).
  exists (set_cap 2 r (steps (List.length r) s2)). split.
  - unfold match_at, re_tag, cat, star_lazy, plus, star. cbn [fold_right].
    rewrite run_Seq, run_Bol_start by reflexivity.
    rewrite run_Seq. apply run_lazy_zero.
    rewrite run_Seq. unfold lits, cat.
    cbn [fold_right List.map lit list_ascii_of_string].
    rewrite run_Seq, (run_lit_hit (ch "@") (k ++ r)) by reflexivity.
    rewrite run_Eps. fold s1. rewrite run_Seq.
    apply (run_grp_greedy 1 _ 1 k r s1);
      [reflexivity | exact HalC | exact Hr
      | destruct k; [congruence|simpl; lia] | ].
    fold s2. rewrite run_Seq.
    apply (run_grp_greedy 2 _ 0 r [] s2);
      [ | exact HanyC | reflexivity | lia | ].
    { unfold s2. cbn [rest set_cap].
      destruct (steps_app k r s1 eq_refl) as [-> _]. rewrite app_nil_r. reflexivity. }
    rewrite run_Eps. reflexivity.
  - cbn [caps set_cap]. rewrite steps_caps. unfold s2. cbn [caps set_cap].
    rewrite steps_caps. reflexivity.
Qed.

(** A block that is [@], a key of letters and a remainder on the same
    line gives the tag of that key, with the trimmed remainder as its
    value. *)
Theorem doc_tag_one_line (k r : str) :
  k <> [] -> forallb is_alpha k = true ->
  span (CSet false [IRange (ch "a") (ch "z"); IRange (ch "A") (ch "Z")]) r = 0 ->
  (forall a, In a r -> a <> cr /\ a <> nl) ->
  doc_tag (lit "@" ++ k ++ r) = Some (mkTag k (strip r))
  /\ _get_doc_tags [lit "@" ++ k ++ r] = [mkTag k (strip r)].
Proof.
  intros Hk Hal Hr Hl.
  assert (D : doc_tag (lit "@" ++ k ++ r) = Some (mkTag k (strip r))).
  { unfold doc_tag, rmatch.
    destruct (tag_match k r Hk Hal Hr) as [e [-> Hc]].
    cbn [option_map]. unfold group, mk_match. cbn [m_caps]. rewrite Hc.
    cbn [lookup Nat.eqb].
    rewrite clean_single_line_alpha by exact Hal.
    assert ((match r with [] => [] | _ :: _ => strip r end) = strip r) as ->
      by (destruct r; reflexivity).
    rewrite sub_wrap_one_line; [reflexivity|].
    intros a Ha. apply Hl. apply in_strip. exact Ha. }
  split; [exact D|]. unfold _get_doc_tags. cbn [flat_map]. rewrite D. reflexivity.
Qed.

Lemma doc_tag_one_line_witness :
  doc_tag (lit "@" ++ lit "since" ++ lit "  1.2 ") = Some (mkTag (lit "since") (lit "1.2")).
Proof.
  apply (doc_tag_one_line (lit "since") (lit "  1.2 ")).
  - discriminate.
  - reflexivity.
  - reflexivity.
  - intros a H. vm_compute in H.
    repeat (destruct H as [H|H]; [subst a; split; discriminate|]). contradiction.
Defined.

(** ** Scanning on after a match *)

Lemma scan_skip (r : re) (k : nat) :
  forall s p pv, k <= List.length s ->
    exists pv', scan r p pv s k = scan r (p + k) pv' (skipn k s) 0.
Proof.
  induction k as [|k IH]; intros s p pv H.
  - exists pv. rewrite Nat.add_0_r. reflexivity.
  - destruct s as [|c s]; [simpl in H; lia|].
    destruct (IH s (S p) (Some c)) as [pv' E]; [simpl in H; lia|].
    exists pv'. cbn [scan fst snd app skipn]. rewrite E.
    replace (S p + k) with (p + S k) by lia. reflexivity.
Qed.

Lemma match_at_pos (r : re) (b : bool) (st e : state) :
  match_at r b st = Some e -> pos st <= pos e.
Proof.
  unfold match_at. intros H. apply run_sound in H. destruct H as [e' [M K]].
  destruct (b && _); [discriminate|]. injection K as ->.
  apply Matches_pos in M. exact M.
Qed.

Lemma scan_bounds (r : re) (s : str) :
  forall p pv skip,
    Forall (fun m => p <= m_start m /\ m_start m <= m_end m) (scan r p pv s skip).
Proof.
  assert (Here : forall st,
             Forall (fun m => pos st <= m_start m /\ m_start m <= m_end m)
               (fst (matches_here r st))).
  { intros st. apply Forall_forall. intros m Hm.
    apply matches_here_In in Hm. destruct Hm as [b [e [H ->]]].
    apply match_at_pos in H. cbn [mk_match m_start m_end]. lia. }
  induction s as [|c s IH]; intros p pv skip.
  - destruct skip; cbn [scan fst snd]; rewrite app_nil_r; [|constructor].
    apply (Here (mkState p pv [] [])).
  - assert (Tl : forall k, Forall (fun m => p <= m_start m /\ m_start m <= m_end m)
                             (scan r (S p) (Some c) s k)).
    { intros k. eapply Forall_impl; [|apply IH]. cbv beta. intros m. lia. }
    destruct skip; cbn [scan fst snd].
    + apply Forall_app. split; [apply (Here (mkState p pv (c :: s) []))|apply Tl].
    + apply Tl.
Qed.

Lemma sub_pieces_shift (t : list titem) (ms : list mtch) (p : nat) (c : char)
    (s : str) :
  Forall (fun m => S p <= m_start m /\ m_start m <= m_end m) ms ->
  sub_pieces t ms p (c :: s) = c :: sub_pieces t ms (S p) s.
Proof.
  intros H. destruct ms as [|m ms]; [reflexivity|].
  inversion H as [|? ? [H1 H2] _]; subst. cbn [sub_pieces].
  replace (m_start m - p) with (S (m_start m - S p)) by lia.
  replace (m_end m - p) with (S (m_end m - S p)) by lia.
  reflexivity.
Qed.

(** ** Runs of white space replaced by one space *)

Lemma collapse_lstrip (s : str) :
  collapse_aux true s = collapse_aux false (lstrip s).
Proof.
  induction s as [|c s IH]; [reflexivity|]. simpl.
  destruct (isspace c) eqn:E; [exact IH|]. simpl. rewrite E. reflexivity.
Qed.

Lemma sub_spaces_scan (n : nat) :
  forall s p pv, List.length s <= n ->
    sub_pieces [TLit (lit " ")] (scan re_spaces p pv s 0) p s
    = collapse_aux false s.
Proof.
  induction n as [|n IH]; intros s p pv Hn.
  - destruct s; [|simpl in Hn; lia]. rewrite scan_0.
    rewrite spaces_here_none by reflexivity. reflexivity.
  - destruct s as [|c s].
    { rewrite scan_0. rewrite spaces_here_none by reflexivity. reflexivity. }
    rewrite scan_0. cbn [collapse_aux]. destruct (isspace c) eqn:E.
    + assert (Hsp : 0 < span Space (rest (mkState p pv (c :: s) []))).
      { cbn [rest span cls_test]. rewrite E. lia. }
      rewrite spaces_here_some by exact Hsp.
      cbn [fst snd rest pos caps app span cls_test] in *. rewrite E in *.
      cbn [sub_pieces m_start m_end expand List.map concat app].
      rewrite Nat.sub_diag. cbn [firstn app].
      replace (p + S (span Space s) - p) with (S (span Space s)) by lia.
      cbn [skipn]. replace (S (span Space s) - 1) with (span Space s) by lia.
      destruct (scan_skip re_spaces (span Space s) s (S p) (Some c)) as [pv' ->];
        [apply span_le|].
      replace (S p + span Space s) with (p + S (span Space s)) by lia.
      rewrite IH.
      * rewrite collapse_lstrip, lstrip_skipn. reflexivity.
      * rewrite length_skipn. simpl in Hn. lia.
    + rewrite spaces_here_none by (cbn [rest span cls_test]; rewrite E; reflexivity).
      cbn [fst snd app]. rewrite sub_pieces_shift by apply scan_bounds.
      rewrite IH by (simpl in Hn; lia). reflexivity.
Qed.

(** [re.sub(r'\s+', ' ', s)] *)
Lemma sub_spaces (s : str) :
  Re.sub re_spaces [TLit (lit " ")] s = collapse_aux false s.
Proof. apply (sub_spaces_scan (List.length s)). lia. Qed.

(** ** Words *)

Lemma words_spaces (ws : str) : forallb isspace ws = true -> words ws = [].
Proof.
  induction ws as [|c ws IH]; [reflexivity|]. simpl.
  intros H. apply andb_true_iff in H. destruct H as [-> H]. auto.
Qed.

Lemma words_nil (s : str) : words s = [] -> forallb isspace s = true.
Proof.
  induction s as [|c s IH]; [reflexivity|]. cbn [words forallb].
  destruct (isspace c); [exact IH|].
  destruct s as [|d s]; [discriminate|].
  destruct (isspace d); [discriminate|].
  destruct (words (d :: s)); discriminate.
Qed.

Lemma words_lstrip (s : str) : words (lstrip s) = words s.
Proof.
  induction s as [|c s IH]; [reflexivity|]. cbn [lstrip].
  destruct (isspace c) eqn:E; [|reflexivity].
  rewrite IH. cbn [words]. rewrite E. reflexivity.
Qed.

Lemma words_app_spaces (s ws : str) :
  forallb isspace ws = true -> words (s ++ ws) = words s.
Proof.
  intros H. induction s as [|c s IH]; [apply words_spaces; exact H|].
  cbn [app words]. rewrite IH. destruct (isspace c); [reflexivity|].
  destruct s as [|d s].
  - cbn [app]. destruct ws as [|a ws]; [reflexivity|].
    simpl in H. apply andb_true_iff in H. destruct H as [Ha H].
    rewrite Ha. reflexivity.
  - reflexivity.
Qed.

Lemma lstrip_split (s : str) :
  exists ws, forallb isspace ws = true /\ s = ws ++ lstrip s.
Proof.
  exists (firstn (span Space s) s). split; [apply firstn_span_spaces|].
  rewrite lstrip_skipn. symmetry. apply firstn_skipn.
Qed.

Lemma rstrip_split (s : str) :
  exists ws, forallb isspace ws = true /\ s = rstrip s ++ ws.
Proof.
  destruct (lstrip_split (rev s)) as [ws [H E]].
  exists (rev ws). split; [rewrite forallb_rev; exact H|].
  unfold rstrip. rewrite <- rev_app_distr, <- E, rev_involutive. reflexivity.
Qed.

Lemma words_rstrip (s : str) : words (rstrip s) = words s.
Proof.
  destruct (rstrip_split s) as [ws [H E]].
  rewrite E at 2. rewrite words_app_spaces by exact H. reflexivity.
Qed.

Lemma words_strip (s : str) : words (strip s) = words s.
Proof. unfold strip. rewrite words_rstrip, words_lstrip. reflexivity. Qed.

Lemma rstrip_spaces (ws : str) : forallb isspace ws = true -> rstrip ws = [].
Proof.
  intros H. unfold rstrip. rewrite <- forallb_rev in H.
  induction (rev ws) as [|a l IH]; [reflexivity|].
  simpl in H. apply andb_true_iff in H. destruct H as [Ha H].
  simpl. rewrite Ha. auto.
Qed.

Lemma words_nonempty (s : str) : s <> [] -> rstrip s = s -> words s <> [].
Proof.
  intros Hs Hr Hw. apply words_nil in Hw. apply rstrip_spaces in Hw. congruence.
Qed.

(** On a string without white space at its end, collapsing the runs of
    white space gives the words joined by single spaces, after one
    space when the string begins with white space. *)
Lemma collapse_words (s : str) :
  rstrip s = s ->
  collapse_aux true s = join (lit " ") (words s)
  /\ collapse_aux false s
     = match s with
       | c :: _ => if isspace c then lit " " else []
       | [] => []
       end ++ join (lit " ") (words s).
Proof.
  induction s as [|c s IH]; intros Hr; [split; reflexivity|].
  assert (Hr' : rstrip s = s) by (apply (rstrip_app_fixed [c] s); exact Hr).
  destruct (IH Hr') as [IH1 IH2]. cbn [collapse_aux words].
  destruct (isspace c) eqn:E.
  - rewrite IH1. split; reflexivity.
  - assert (G : c :: collapse_aux false s
                = join (lit " ")
                    match s with
                    | [] => [[c]]
                    | d :: _ =>
                        if isspace d then [c] :: words s
                        else match words s with
                             | [] => [[c]]
                             | w :: ws => (c :: w) :: ws
                             end
                    end).
    { rewrite IH2. destruct s as [|d s]; [reflexivity|].
      destruct (isspace d) eqn:Ed.
      - pose proof (words_nonempty (d :: s) ltac:(discriminate) Hr') as Hw.
        destruct (words (d :: s)) as [|w ws]; [congruence|]. reflexivity.
      - cbn [app]. destruct (words (d :: s)) as [|w ws] eqn:Ew.
        + apply words_nil in Ew. simpl in Ew. rewrite Ed in Ew. discriminate.
        + destruct ws; reflexivity. }
    split; exact G.
Qed.

(** ** Cleaning a line *)

Lemma clean_line_words (s : str) : _clean_line s = join (lit " ") (words s).
Proof.
  unfold _clean_line. rewrite sub_spaces.
  destruct (collapse_words (strip s) (strip_rstrip_fixed s)) as [_ H].
  rewrite H, words_strip.
  assert (L : lstrip (strip s) = strip s) by (unfold strip; apply lstrip_rstrip).
  destruct (strip s) as [|c t]; [reflexivity|].
  simpl in L. destruct (isspace c); [|reflexivity].
  pose proof (lstrip_length t) as Hl. rewrite L in Hl. simpl in Hl. lia.
Qed.

Lemma words_chars (s : str) (w : str) (a : char) :
  In w (words s) -> In a w -> isspace a = false.
Proof.
  revert w. induction s as [|c s IH]; intros w Hw Ha; [contradiction|].
  cbn [words] in Hw. destruct (isspace c) eqn:E; [eauto|].
  destruct s as [|d s].
  - destruct Hw as [<-|[]]. destruct Ha as [<-|[]]. exact E.
  - destruct (isspace d) eqn:Ed.
    + destruct Hw as [<-|Hw]; [|eauto]. destruct Ha as [<-|[]]. exact E.
    + destruct (words (d :: s)) as [|w0 ws] eqn:Ew.
      * destruct Hw as [<-|[]]. destruct Ha as [<-|[]]. exact E.
      * destruct Hw as [<-|Hw].
        -- destruct Ha as [<-|Ha]; [exact E|]. apply (IH w0); [left; reflexivity|exact Ha].
        -- apply (IH w); [right; exact Hw|exact Ha].
Qed.

Lemma join_chars (l : list str) (a : char) :
  In a (join (lit " ") l) -> a = ch " " \/ exists w, In w l /\ In a w.
Proof.
  induction l as [|x l IH]; [intros []|].
  destruct l as [|y l].
  - cbn [join]. intros H. right. exists x. split; [left; reflexivity|exact H].
  - change (join (lit " ") (x :: y :: l)) with (x ++ lit " " ++ join (lit " ") (y :: l)).
    rewrite !in_app_iff. intros [H|[H|H]].
    + right. exists x. split; [left; reflexivity|exact H].
    + left. destruct H as [<-|[]]. reflexivity.
    + destruct (IH H) as [->|[w [Hw Ha]]]; [left; reflexivity|].
      right. exists w. split; [right; exact Hw|exact Ha].
Qed.

Lemma clean_single_line_join (s : str) :
  _clean_single_line s = join (lit " ") (words s).
Proof.
  unfold _clean_single_line. rewrite clean_line_words.
  unfold Re.sub, finditer. rewrite scan_chr_nil; [reflexivity|].
  apply forallb_forall. intros a Ha. apply negb_true_iff.
  destruct (cls_test _ a) eqn:E; [|reflexivity].
  assert (Hs := control_is_space a E).
  apply join_chars in Ha. destruct Ha as [->|[w [Hw Ha]]].
  - vm_compute in E. discriminate.
  - rewrite (words_chars s w a Hw Ha) in Hs. discriminate.
Qed.

(** [_clean_line] and [_clean_single_line] give the words of the line
    joined by single spaces; the second substitution of
    [_clean_single_line] finds nothing to replace. *)
Theorem clean_single_line_words (s : str) :
  _clean_single_line s = join (lit " ") (words s)
  /\ _clean_line s = join (lit " ") (words s).
Proof. split; [apply clean_single_line_join|apply clean_line_words]. Qed.

Example clean_single_line_example :
  _clean_single_line (lines ["  public   int"; "   f( int a )  "])
  = lit "public int f( int a )".
Proof. vm_compute. reflexivity. Qed.

(** ** A greedy repetition that finds no way on *)

Lemma greedy_none (c : cls) (k : state -> option state) (fuel : nat) :
  forall n st,
    (forall j, j <= span c (rest st) -> k (steps j st) = None) ->
    rep_loop (run (Chr c)) 0 None true k fuel n st = None.
Proof.
  induction fuel as [|fuel IH]; intros n st H; [reflexivity|].
  rewrite rep_loop_S, run_Chr. cbv zeta. cbn [below].
  assert (Nat.ltb n 0 = false) as -> by (apply Nat.ltb_ge; lia).
  pose proof (H 0 ltac:(lia)) as H0. cbn [steps] in H0.
  destruct (rest st) as [|a t] eqn:E; [exact H0|].
  destruct (cls_test c a) eqn:Ea; [|exact H0].
  assert (Hrec : rep_loop (run (Chr c)) 0 None true k fuel (S n) (advance st a t)
                 = None).
  { apply IH. intros j Hj. specialize (H (S j)). cbn [steps span] in H.
    rewrite Ea, (step_cons st a t E) in H. apply H. cbn [rest advance] in Hj. lia. }
  rewrite Hrec. destruct (_ || _); exact H0.
Qed.

(** ** A scan over a prefix without a match *)

Lemma scan_prefix (r : re) (d t : str) :
  (forall x y p pv, d = x ++ y -> y <> [] ->
                    match_at r false (mkState p pv (y ++ t) []) = None) ->
  forall p pv, exists pv',
    scan r p pv (d ++ t) 0 = scan r (p + List.length d) pv' t 0.
Proof.
  induction d as [|c d IH]; intros H p pv.
  - exists pv. rewrite Nat.add_0_r. reflexivity.
  - destruct (IH (fun x y p pv E => H (c :: x) y p pv (f_equal (cons c) E))
                (S p) (Some c)) as [pv' E].
    exists pv'. cbn [app]. rewrite scan_0. unfold matches_here.
    pose proof (H [] (c :: d) p pv eq_refl ltac:(discriminate)) as H0.
    cbn [app] in H0. rewrite H0.
    cbn [fst snd app]. rewrite E. cbn [List.length].
    replace (S p + List.length d) with (p + S (List.length d)) by lia.
    reflexivity.
Qed.

(** ** The end of a declaration *)

Lemma terminator_cls (c : char) :
  cls_test (CSet false [one "{"; one ";"]) c = is_terminator c.
Proof.
  unfold cls_test, item_test, one, is_terminator. cbn [existsb xorb].
  rewrite orb_false_r. f_equal.
  - destruct (N.eqb_spec c (ch "{")) as [->|N]; [reflexivity|].
    destruct (N.leb_spec (ch "{") c), (N.leb_spec c (ch "{")); try reflexivity.
    exfalso. apply N. apply N.le_antisymm; assumption.
  - destruct (N.eqb_spec c (ch ";")) as [->|N]; [reflexivity|].
    destruct (N.leb_spec (ch ";") c), (N.leb_spec c (ch ";")); try reflexivity.
    exfalso. apply N. apply N.le_antisymm; assumption.
Qed.

Lemma terminator_not_space (c : char) : is_terminator c = true -> isspace c = false.
Proof.
  unfold is_terminator. intros H. apply orb_true_iff in H.
  destruct H as [H|H]; apply N.eqb_eq in H; subst c; reflexivity.
Qed.

Lemma at_eol_before (y : str) (c : char) (ws : str) (st : state) :
  rest st = y ++ c :: ws -> isspace c = false -> at_eol false st = false.
Proof.
  intros H Hc. unfold at_eol. rewrite H.
  destruct y as [|a y]; cbn [app].
  - destruct (N.eqb_spec c 10) as [->|]; [discriminate|reflexivity].
  - destruct y; cbn [app]; rewrite andb_false_r; reflexivity.
Qed.

(** Before the last terminator the pattern [[{;]\s*$] does not match. *)
Lemma decl_end_fail (y : str) (c : char) (ws : str) (st : state) :
  y <> [] -> rest st = y ++ c :: ws -> isspace c = false ->
  match_at re_decl_end false st = None.
Proof.
  intros Hy Hr Hc. unfold match_at, re_decl_end, cat, star. cbn [fold_right].
  rewrite run_Seq, run_Chr, Hr.
  destruct y as [|a y]; [congruence|]. cbn [app].
  destruct (cls_test _ a); [|reflexivity].
  rewrite run_Seq, run_Rep. apply greedy_none.
  intros j Hj. rewrite run_Seq. cbn [run].
  set (s1 := advance st a (y ++ c :: ws)) in *.
  assert (Hle : j <= List.length y).
  { cbn [rest s1 advance] in Hj.
    assert (span Space (y ++ c :: ws) <= List.length y); [|lia].
    clear -Hc. induction y as [|b y IH]; cbn [app span cls_test List.length].
    - rewrite Hc. lia.
    - destruct (isspace b); lia. }
  rewrite (at_eol_before (skipn j y) c ws); [reflexivity| |exact Hc].
  rewrite steps_rest. cbn [rest s1 advance].
  rewrite skipn_app. replace (j - List.length y) with 0 by lia. reflexivity.
Qed.

(** At the terminator, with white space only after it, the pattern
    matches to the end. *)
Lemma decl_end_match (c : char) (ws : str) (st : state) :
  rest st = c :: ws -> is_terminator c = true -> forallb isspace ws = true ->
  exists e, match_at re_decl_end false st = Some e
            /\ pos e = pos st + S (List.length ws).
Proof.
  intros Hr Hc Hws. unfold match_at, re_decl_end, cat, star. cbn [fold_right].
  rewrite run_Seq, run_Chr, Hr, terminator_cls, Hc.
  set (s1 := advance st c ws).
  destruct (steps_app ws [] s1) as [R [P _]].
  { cbn [rest s1 advance]. rewrite app_nil_r. reflexivity. }
  exists (steps (List.length ws) s1). split.
  - rewrite run_Seq, run_Rep. apply greedy_max.
    + lia.
    + lia.
    + cbn [rest s1 advance]. rewrite (span_all Space ws) by exact Hws. fold s1.
      rewrite run_Seq. cbn [run]. unfold at_eol. rewrite R. reflexivity.
  - rewrite P. cbn [pos s1 advance]. lia.
Qed.

Lemma scan_end (r : re) (p : nat) (pv : option char) :
  match_at r false (mkState p pv [] []) = None -> scan r p pv [] 0 = [].
Proof. intros H. cbn [scan]. unfold matches_here. rewrite H. reflexivity. Qed.

Lemma sub_decl_end_last (d : str) (c : char) (ws : str) :
  is_terminator c = true -> forallb isspace ws = true ->
  Re.sub re_decl_end [] (d ++ c :: ws) = d.
Proof.
  intros Hc Hws. pose proof (terminator_not_space c Hc) as Hn.
  unfold Re.sub, finditer.
  destruct (scan_prefix re_decl_end d (c :: ws)) with (p := 0) (pv := @None char)
    as [pv' E].
  { intros x y p pv _ Hy.
    apply (decl_end_fail y c ws); [exact Hy|reflexivity|exact Hn]. }
  rewrite E. clear E. cbn [Nat.add]. rewrite scan_0. unfold matches_here.
  destruct (decl_end_match c ws (mkState (List.length d) pv' (c :: ws) []))
    as [e [-> Pe]]; [reflexivity|exact Hc|exact Hws|].
  cbn [pos] in Pe. cbn [pos mk_match]. rewrite !Pe.
  assert (Nat.eqb (List.length d + S (List.length ws)) (List.length d) = false) as ->
    by (apply Nat.eqb_neq; lia).
  cbn [fst snd app].
  replace (List.length d + S (List.length ws) - List.length d - 1)
    with (List.length ws) by lia.
  destruct (scan_skip re_decl_end (List.length ws) ws (S (List.length d)) (Some c))
    as [pv'' ->]; [lia|].
  rewrite skipn_all, scan_end.
  - cbn [sub_pieces mk_match m_start m_end pos expand List.map concat app].
    rewrite !Nat.sub_0_r.
    rewrite firstn_app, Nat.sub_diag, firstn_all. cbn [firstn].
    rewrite skipn_all2 by (rewrite length_app; simpl; lia).
    rewrite !app_nil_r. reflexivity.
  - reflexivity.
Qed.

Lemma sub_decl_end_none (s : str) :
  forallb (fun c => negb (is_terminator c)) s = true ->
  Re.sub re_decl_end [] s = s.
Proof.
  intros H. unfold Re.sub, finditer.
  rewrite (scan_nil re_decl_end
             (fun s => forallb (fun c => negb (is_terminator c)) s = true));
    auto.
  - intros c t Ht. simpl in Ht. apply andb_true_iff in Ht. tauto.
  - intros st Hs. unfold match_at, re_decl_end, cat. cbn [fold_right].
    rewrite run_Seq, run_Chr. destruct (rest st) as [|a t]; [reflexivity|].
    simpl in Hs. apply andb_true_iff in Hs. destruct Hs as [Ha _].
    apply negb_true_iff in Ha. rewrite terminator_cls, Ha. reflexivity.
Qed.

Lemma field_declaration_terminated (d : str) (c : char) (ws : str) :
  is_terminator c = true -> forallb isspace ws = true ->
  _get_field_declaration (d ++ c :: ws) = join (lit " ") (words d).
Proof.
  intros Hc Hws. unfold _get_field_declaration.
  rewrite sub_decl_end_last by assumption. apply clean_single_line_join.
Qed.

Lemma field_declaration_plain (s : str) :
  forallb (fun c => negb (is_terminator c)) s = true ->
  _get_field_declaration s = join (lit " ") (words s).
Proof.
  intros H. unfold _get_field_declaration.
  rewrite sub_decl_end_none by exact H. apply clean_single_line_join.
Qed.

(** The displayed declaration: the last terminator, [{] or [;], and the
    white space after it are dropped, and what is before it is given
    as its words joined by single spaces; a line without a terminator
    is given as its words. *)
Theorem field_declaration_words :
  (forall (d : str) (c : char) (ws : str),
      is_terminator c = true -> forallb isspace ws = true ->
      _get_field_declaration (d ++ c :: ws) = join (lit " ") (words d))
  /\ (forall s : str,
         forallb (fun c => negb (is_terminator c)) s = true ->
         _get_field_declaration s = join (lit " ") (words s)).
Proof.
  split; [exact field_declaration_terminated|exact field_declaration_plain].
Qed.

Lemma field_declaration_words_witness :
  _get_field_declaration (lit "int  f() {   ;" ++ ch "{" :: lit " ")
  = join (lit " ") (words (lit "int  f() {   ;")).
Proof.
  apply (proj1 field_declaration_words (lit "int  f() {   ;") (ch "{") (lit " "));
    reflexivity.
Defined.

(** A declaration that is only white space and at most one terminator
    is empty once cleaned, and the section gives no fragment, whatever
    its comment. *)
Theorem blank_declaration_no_fragment (ws1 ws2 d : str) (c : char) (h : Z)
    (fn : tag -> buffer -> option buffer) :
  forallb isspace ws1 = true -> forallb isspace ws2 = true ->
  is_terminator c = true ->
  _from_section (mkSection (ws1 ++ c :: ws2) d) h fn = Some []
  /\ _from_section (mkSection ws1 d) h fn = Some [].
Proof.
  intros H1 H2 Hc.
  pose proof field_declaration_terminated as F1.
  pose proof field_declaration_plain as F2.
  unfold _from_section. cbn [line]. split.
  - rewrite F1 by assumption. rewrite words_spaces by exact H1. reflexivity.
  - rewrite F2.
    + rewrite words_spaces by exact H1. reflexivity.
    + clear -H1. induction ws1 as [|a l IH]; [reflexivity|].
      simpl in H1. apply andb_true_iff in H1. destruct H1 as [Ha H1].
      cbn [forallb]. rewrite IH by exact H1. rewrite andb_true_r.
      apply negb_true_iff. destruct (is_terminator a) eqn:E; [|reflexivity].
      apply terminator_not_space in E. congruence.
Qed.

Lemma blank_declaration_no_fragment_witness :
  _from_section (mkSection (lit " " ++ ch ";" :: lit "  ") (lit "* text")) 1
    process_tags = Some [].
Proof.
  apply (blank_declaration_no_fragment (lit " ") (lit "  ") (lit "* text")
           (ch ";") 1 process_tags); reflexivity.
Defined.

(** ** Literal text in a pattern *)

Lemma run_Grp i r st k :
  run (Grp i r) st k
  = run r st (fun st' => k (set_cap i (firstn (pos st' - pos st) (rest st)) st')).
Proof. reflexivity. Qed.

Lemma run_Alt r1 r2 st k :
  run (Alt r1 r2) st k
  = match run r1 st k with Some e => Some e | None => run r2 st k end.
Proof. reflexivity. Qed.

Lemma run_text_hit (l : list char) :
  forall (t : str) (st : state) (k : state -> option state),
    rest st = l ++ t ->
    run (cat (List.map (fun c => Chr (Lit c)) l)) st k
    = k (steps (List.length l) st).
Proof.
  induction l as [|a l IH]; intros t st k H; [reflexivity|].
  cbn [List.map cat fold_right]. rewrite run_Seq.
  rewrite (run_lit_hit a (l ++ t)) by exact H.
  change (fold_right Seq Eps (List.map (fun c => Chr (Lit c)) l))
    with (cat (List.map (fun c => Chr (Lit c)) l)).
  rewrite (IH t) by reflexivity.
  cbn [List.length steps]. rewrite (step_cons st a (l ++ t) H). reflexivity.
Qed.

Lemma run_text_miss (l : list char) :
  forall (st : state) (k : state -> option state),
    startswith (rest st) l = false ->
    run (cat (List.map (fun c => Chr (Lit c)) l)) st k = None.
Proof.
  induction l as [|a l IH]; intros st k H.
  - destruct (rest st); discriminate.
  - cbn [List.map cat fold_right]. rewrite run_Seq, run_Chr.
    destruct (rest st) as [|b t] eqn:E; [reflexivity|].
    cbn [startswith cls_test] in *. rewrite (N.eqb_sym a b) in H.
    destruct (N.eqb b a); [|reflexivity].
    change (fold_right Seq Eps (List.map (fun c => Chr (Lit c)) l))
      with (cat (List.map (fun c => Chr (Lit c)) l)).
    apply IH. exact H.
Qed.

(** ** Repetitions of one class over a known run *)

Lemma span_app_ge (c : cls) (w r : str) :
  forallb (cls_test c) w = true -> List.length w <= span c (w ++ r).
Proof.
  intros H. induction w as [|a w IH]; [simpl; lia|].
  simpl in H. apply andb_true_iff in H. destruct H as [Ha H].
  cbn [app span List.length]. rewrite Ha. specialize (IH H). lia.
Qed.

Lemma run_greedy_cls (c : cls) (lo : nat) (w r : str) (st : state)
    (k : state -> option state) (e : state) :
  rest st = w ++ r -> forallb (cls_test c) w = true -> span c r = 0 ->
  lo <= List.length w ->
  k (steps (List.length w) st) = Some e ->
  run (Rep lo None true (Chr c)) st k = Some e.
Proof.
  intros Hr Hw Hs Hlo Hk.
  assert (Sp : span c (rest st) = List.length w)
    by (rewrite Hr; apply span_app_all; assumption).
  rewrite run_Rep. apply greedy_max; [lia|lia|]. rewrite Sp. exact Hk.
Qed.

Lemma run_lazy_cls (c : cls) (w r : str) (st : state)
    (k : state -> option state) (e : state) :
  rest st = w ++ r -> forallb (cls_test c) w = true ->
  (forall j, j < List.length w -> k (steps j st) = None) ->
  k (steps (List.length w) st) = Some e ->
  run (Rep 0 None false (Chr c)) st k = Some e.
Proof.
  intros Hr Hw Hnone Hk. rewrite run_Rep.
  apply (lazy_first c k e (List.length w));
    [simpl; lia | rewrite Hr; apply span_app_ge; exact Hw | exact Hnone | exact Hk].
Qed.

Lemma steps_firstn (w r : str) (st : state) (j : nat) :
  rest st = w ++ r -> j <= List.length w ->
  rest (steps j st) = skipn j w ++ r
  /\ pos (steps j st) = pos st + j
  /\ caps (steps j st) = caps st.
Proof.
  intros H Hj. rewrite steps_rest, steps_caps, steps_pos, H.
  - rewrite skipn_app. replace (j - List.length w) with 0 by lia. auto.
  - rewrite H, length_app. lia.
Qed.

(** ** A documentation comment in the code *)

Lemma has_sub_suffix (p x y : str) :
  has_sub p (x ++ y) = false -> has_sub p y = false.
Proof.
  induction x as [|a x IH]; [auto|]. intros H. apply IH.
  apply (has_sub_tail p a). exact H.
Qed.

Lemma closer_absent (body t : str) :
  has_sub (lit "*/") body = false ->
  forall j, j < List.length body ->
    startswith (skipn j body ++ lit "*/" ++ t) (lit "*/") = false.
Proof.
  induction body as [|a body IH]; intros H j Hj; [simpl in Hj; lia|].
  destruct j as [|j].
  - cbn [skipn app]. apply has_sub_head in H.
    unfold lit in *. cbn [List.map list_ascii_of_string startswith app] in *.
    destruct (N.eqb (N_of_ascii "*") a); [|reflexivity]. cbn [andb] in *.
    destruct body as [|x body]; [reflexivity|].
    cbn [app startswith] in *.
    destruct (N.eqb (N_of_ascii "/") x); [|reflexivity].
    destruct body; discriminate.
  - cbn [skipn]. apply IH; [|simpl in Hj; lia].
    apply (has_sub_tail _ a). exact H.
Qed.

Lemma opener_absent (y t : str) :
  y <> [] -> has_sub (lit "/**") y = false ->
  startswith (y ++ lit "/**" ++ t) (lit "/**") = false.
Proof.
  intros Hy H. apply has_sub_head in H.
  unfold lit in *. cbn [List.map list_ascii_of_string] in *.
  destruct y as [|a y]; [congruence|].
  cbn [app startswith] in *.
  destruct (N.eqb (N_of_ascii "/") a); [|reflexivity]. cbn [andb] in *.
  destruct y as [|b y]; [reflexivity|].
  cbn [app startswith] in *.
  destruct (N.eqb (N_of_ascii "*") b); [|reflexivity]. cbn [andb] in *.
  destruct y as [|c y]; [reflexivity|].
  cbn [app startswith] in *.
  destruct (N.eqb (N_of_ascii "*") c); [|reflexivity].
  destruct y; discriminate.
Qed.

Lemma dot_all (w : str) : forallb (cls_test (Dot true)) w = true.
Proof. induction w; [reflexivity|]. simpl. exact IHw. Qed.

(** A comment in a pattern: the opening, the body up to the first
    [*/] as group 1, and the closing. *)
Lemma comment_prefix (body r : str) (R : re) (st : state)
    (k : state -> option state) (e : state) :
  rest st = lit "/**" ++ body ++ lit "*/" ++ r ->
  has_sub (lit "*/") body = false ->
  run R (steps 2 (set_cap 1 body (steps (List.length body) (steps 3 st)))) k
  = Some e ->
  run (Seq (lits "/**")
         (Seq (Grp 1 (star_lazy (Chr (Dot true)))) (Seq (lits "*/") R))) st k
  = Some e.
Proof.
  intros Hr Hb Hk.
  destruct (steps_app (lit "/**") (body ++ lit "*/" ++ r) st Hr)
    as [R1 [P1 C1]].
  change (List.length (lit "/**")) with 3 in R1, P1, C1.
  set (s1 := steps 3 st) in *.
  destruct (steps_app body (lit "*/" ++ r) s1 R1) as [R2 [P2 C2]].
  set (s2 := set_cap 1 body (steps (List.length body) s1)) in *.
  assert (R2' : rest s2 = lit "*/" ++ r) by exact R2.
  rewrite run_Seq. unfold lits at 1. rewrite (run_text_hit _ _ _ _ Hr).
  change (List.length (lit "/**")) with 3. fold s1.
  rewrite run_Seq, run_Grp. unfold star_lazy.
  apply (run_lazy_cls (Dot true) body (lit "*/" ++ r) s1);
    [exact R1 | apply dot_all | | ].
  - intros j Hj. rewrite run_Seq. unfold lits. apply run_text_miss.
    cbn [rest set_cap].
    destruct (steps_firstn body (lit "*/" ++ r) s1 j R1) as [-> _]; [lia|].
    apply closer_absent; assumption.
  - rewrite P2. replace (pos s1 + List.length body - pos s1)
      with (List.length body) by lia.
    rewrite R1, firstn_app, Nat.sub_diag, firstn_all. cbn [firstn].
    rewrite app_nil_r. fold s2.
    rewrite run_Seq. unfold lits. rewrite (run_text_hit _ _ _ _ R2').
    change (List.length (lit "*/")) with 2. exact Hk.
Qed.

Lemma comment_prefix_state (body r : str) (st : state) :
  rest st = lit "/**" ++ body ++ lit "*/" ++ r ->
  let s3 := steps 2 (set_cap 1 body (steps (List.length body) (steps 3 st))) in
  rest s3 = r
  /\ pos s3 = pos st + (3 + List.length body + 2)
  /\ caps s3 = (1, body) :: caps st.
Proof.
  intros Hr.
  destruct (steps_app (lit "/**") (body ++ lit "*/" ++ r) st Hr)
    as [R1 [P1 C1]].
  change (List.length (lit "/**")) with 3 in *.
  destruct (steps_app body (lit "*/" ++ r) (steps 3 st) R1) as [R2 [P2 C2]].
  set (s2 := set_cap 1 body (steps (List.length body) (steps 3 st))) in *.
  assert (R2' : rest s2 = lit "*/" ++ r) by exact R2.
  destruct (steps_app (lit "*/") r s2 R2') as [R3 [P3 C3]].
  change (List.length (lit "*/")) with 2 in *.
  cbv zeta. fold s2. rewrite R3, P3, C3.
  unfold s2. cbn [pos caps set_cap]. rewrite P2, P1, C2, C1.
  repeat split; try reflexivity. lia.
Qed.

(** The pattern of a section up to the declaration: the comment and the
    white space after it. *)
Lemma section_prefix (body ws r : str) (R : re) (st : state)
    (k : state -> option state) (e : state) :
  rest st = lit "/**" ++ body ++ lit "*/" ++ ws ++ r ->
  has_sub (lit "*/") body = false ->
  forallb isspace ws = true -> span Space r = 0 ->
  run R (steps (List.length ws)
           (steps 2 (set_cap 1 body (steps (List.length body) (steps 3 st))))) k
  = Some e ->
  run (Seq (lits "/**")
         (Seq (Grp 1 (star_lazy (Chr (Dot true))))
            (Seq (lits "*/") (Seq (star (Chr Space)) R)))) st k
  = Some e.
Proof.
  intros Hr Hb Hws Hsp Hk.
  apply (comment_prefix body (ws ++ r)); [exact Hr|exact Hb|].
  destruct (comment_prefix_state body (ws ++ r) st Hr) as [R3 _].
  cbv zeta in R3. rewrite run_Seq. unfold star.
  apply (run_greedy_cls Space 0 ws r _ _ _ R3); [exact Hws|exact Hsp|lia|exact Hk].
Qed.

Lemma section_prefix_state (body ws r : str) (st : state) :
  rest st = lit "/**" ++ body ++ lit "*/" ++ ws ++ r ->
  let s4 := steps (List.length ws)
              (steps 2 (set_cap 1 body (steps (List.length body) (steps 3 st)))) in
  rest s4 = r
  /\ pos s4 = pos st + (3 + List.length body + 2 + List.length ws)
  /\ caps s4 = (1, body) :: caps st.
Proof.
  intros Hr.
  destruct (steps_app (lit "/**") (body ++ lit "*/" ++ ws ++ r) st Hr)
    as [R1 [P1 C1]].
  change (List.length (lit "/**")) with 3 in *.
  destruct (steps_app body (lit "*/" ++ ws ++ r) (steps 3 st) R1) as [R2 [P2 C2]].
  set (s2 := set_cap 1 body (steps (List.length body) (steps 3 st))) in *.
  assert (R2' : rest s2 = lit "*/" ++ ws ++ r) by exact R2.
  destruct (steps_app (lit "*/") (ws ++ r) s2 R2') as [R3 [P3 C3]].
  change (List.length (lit "*/")) with 2 in *.
  destruct (steps_app ws r (steps 2 s2) R3) as [R4 [P4 C4]].
  cbv zeta. fold s2. rewrite R4, P4, C4, P3, C3.
  unfold s2. cbn [pos caps set_cap]. rewrite P2, P1, C2, C1.
  repeat split; try reflexivity. lia.
Qed.

(** The declaration group of the section pattern on a declaration that
    ends with a terminator. *)
Lemma declaration_group (decl : str) (c : char) (post : str) (st : state)
    (k : state -> option state) (e : state) :
  rest st = decl ++ c :: post ->
  forallb (fun a => negb (is_terminator a)) decl = true ->
  is_terminator c = true ->
  k (set_cap 2 (decl ++ [c]) (advance (steps (List.length decl) st) c post))
  = Some e ->
  run (Seq (Grp 2 (cat [star (Chr (CSet true [one "{"; one ";"]));
                        Alt (Chr (CSet false [one "{"; one ";"])) (Eol false)]))
         Eps) st k = Some e.
Proof.
  intros Hr Hd Hc Hk.
  destruct (steps_app decl (c :: post) st Hr) as [R1 [P1 C1]].
  rewrite run_Seq, run_Grp. unfold cat, star. cbn [fold_right].
  rewrite run_Seq.
  apply (run_greedy_cls (CSet true [one "{"; one ";"]) 0 decl (c :: post) st);
    [exact Hr | | | lia | ].
  - clear -Hd. induction decl as [|a l IH]; [reflexivity|].
    simpl in Hd. apply andb_true_iff in Hd. destruct Hd as [Ha Hd].
    cbn [forallb]. rewrite IH by exact Hd. rewrite andb_true_r.
    change (cls_test (CSet true [one "{"; one ";"]) a)
      with (negb (cls_test (CSet false [one "{"; one ";"]) a)).
    rewrite terminator_cls. exact Ha.
  - cbn [span].
    change (cls_test (CSet true [one "{"; one ";"]) c)
      with (negb (cls_test (CSet false [one "{"; one ";"]) c)).
    rewrite terminator_cls, Hc. reflexivity.
  - rewrite run_Seq, run_Alt, run_Chr, R1, terminator_cls, Hc, run_Eps.
    cbn [pos advance]. rewrite P1, Hr.
    replace (S (pos st + List.length decl) - pos st) with (List.length decl + 1)
      by lia.
    rewrite firstn_app.
    replace (List.length decl + 1 - List.length decl) with 1 by lia.
    rewrite firstn_all2 by lia. cbn [firstn].
    rewrite run_Eps, Hk. reflexivity.
Qed.

(** The declaration group at the end of the code. *)
Lemma declaration_group_end (st : state) (k : state -> option state) (e : state) :
  rest st = [] ->
  k (set_cap 2 [] st) = Some e ->
  run (Seq (Grp 2 (cat [star (Chr (CSet true [one "{"; one ";"]));
                        Alt (Chr (CSet false [one "{"; one ";"])) (Eol false)]))
         Eps) st k = Some e.
Proof.
  intros Hr Hk. rewrite run_Seq, run_Grp. unfold cat, star. cbn [fold_right].
  rewrite run_Seq.
  apply (run_greedy_cls (CSet true [one "{"; one ";"]) 0 [] [] st);
    [exact Hr | reflexivity | reflexivity | lia | ].
  cbn [List.length steps].
  rewrite run_Seq, run_Alt, run_Chr, Hr. cbn [run]. unfold at_eol. rewrite Hr.
  rewrite Nat.sub_diag. cbn [firstn]. exact Hk.
Qed.

(** ** One documented declaration *)

Lemma span_app_0 (c : cls) (s t : str) :
  s <> [] -> span c s = 0 -> span c (s ++ t) = 0.
Proof.
  destruct s as [|a s]; [congruence|]. intros _. cbn [app span].
  destruct (cls_test c a); [discriminate|reflexivity].
Qed.

Lemma section_match (body ws decl post : str) (c : char) (b : bool) (st : state) :
  rest st = lit "/**" ++ body ++ lit "*/" ++ ws ++ decl ++ c :: post ->
  caps st = [] ->
  has_sub (lit "*/") body = false ->
  forallb isspace ws = true ->
  span Space decl = 0 ->
  forallb (fun a => negb (is_terminator a)) decl = true ->
  is_terminator c = true ->
  exists e,
    match_at re_section b st = Some e
    /\ caps e = [(2, decl ++ [c]); (1, body)]
    /\ pos e = pos st + (3 + List.length body + 2 + List.length ws
                         + List.length decl + 1).
Proof.
  intros Hr Hc Hb Hws Hsd Hd Ht.
  destruct (section_prefix_state body ws (decl ++ c :: post) st Hr)
    as [R4 [P4 C4]]. cbv zeta in R4, P4, C4.
  set (s4 := steps (List.length ws)
               (steps 2 (set_cap 1 body (steps (List.length body) (steps 3 st)))))
    in *.
  destruct (steps_app decl (c :: post) s4 R4) as [R5 [P5 C5]].
  exists (set_cap 2 (decl ++ [c]) (advance (steps (List.length decl) s4) c post)).
  split; [|split].
  - unfold match_at, re_section. unfold cat at 1. cbn [fold_right].
    apply (section_prefix body ws (decl ++ c :: post)); auto.
    + destruct decl as [|a decl];
        [|apply span_app_0; [discriminate|exact Hsd]].
      cbn [app span cls_test]. rewrite (terminator_not_space c Ht). reflexivity.
    + fold s4. apply (declaration_group decl c post s4); auto.
      cbn [pos set_cap advance]. rewrite P5, P4.
      assert (Nat.eqb (S (pos st + (3 + List.length body + 2 + List.length ws)
                          + List.length decl)) (pos st) = false) as ->
        by (apply Nat.eqb_neq; lia).
      rewrite andb_false_r. reflexivity.
  - cbn [caps set_cap advance]. rewrite C5, C4, Hc. reflexivity.
  - cbn [pos set_cap advance]. rewrite P5, P4. lia.
Qed.

Lemma strip_declaration (decl : str) (c : char) :
  span Space decl = 0 -> is_terminator c = true ->
  strip (decl ++ [c]) = decl ++ [c].
Proof.
  intros Hs Hc. pose proof (terminator_not_space c Hc) as Hn.
  unfold strip.
  assert (L : lstrip (decl ++ [c]) = decl ++ [c]).
  { rewrite lstrip_skipn.
    assert (span Space (decl ++ [c]) = 0) as ->; [|reflexivity].
    destruct decl as [|a decl];
      [|apply span_app_0; [discriminate|exact Hs]].
    cbn [app span cls_test]. rewrite Hn. reflexivity. }
  rewrite L. unfold rstrip. rewrite rev_app_distr. cbn [rev app].
  rewrite lstrip_head by exact Hn.
  change (c :: rev decl) with ([c] ++ rev decl).
  rewrite rev_app_distr, rev_involutive. reflexivity.
Qed.

Lemma scan_one (r : re) (pre w post : str) (e : option char -> state)
    (pv0 : option char) :
  w <> [] ->
  (forall x y p pv, pre = x ++ y -> y <> [] ->
                    match_at r false (mkState p pv (y ++ w ++ post) []) = None) ->
  (forall pv, match_at r false (mkState (List.length pre) pv (w ++ post) [])
              = Some (e pv)) ->
  (forall pv, pos (e pv) = List.length pre + List.length w) ->
  (forall p pv, scan r p pv post 0 = []) ->
  exists pv,
    scan r 0 pv0 (pre ++ w ++ post) 0
    = [mk_match (mkState (List.length pre) pv (w ++ post) []) (e pv)].
Proof.
  intros Hw Hpre Hm Hp Hpost.
  destruct (scan_prefix r pre (w ++ post) Hpre 0 pv0) as [pv E].
  exists pv. rewrite E. cbn [Nat.add]. rewrite scan_0. unfold matches_here.
  rewrite Hm, Hp. cbn [pos].
  assert (Nat.eqb (List.length pre + List.length w) (List.length pre) = false) as ->.
  { apply Nat.eqb_neq. destruct w; [congruence|simpl; lia]. }
  cbn [fst snd app]. f_equal.
  destruct w as [|a w]; [congruence|]. cbn [app].
  destruct (scan_skip r (List.length w) (w ++ post) (S (List.length pre)) (Some a))
    as [pv' E'].
  { rewrite length_app. lia. }
  replace (List.length pre + List.length (a :: w) - List.length pre - 1)
    with (List.length w) by (simpl; lia).
  rewrite E', skipn_app, Nat.sub_diag, skipn_all. cbn [skipn app].
  apply Hpost.
Qed.

(** A documentation comment followed by a declaration that ends with
    [{] or [;], with no other comment opening before or after: the
    extractor returns one section, the declaration up to its
    terminator with the comment body, which gets a [*] in front when
    it does not begin with one. *)
Theorem documented_declaration_extracted (pre body ws decl post : str)
    (c : char) :
  has_sub (lit "/**") pre = false ->
  body <> [] -> has_sub (lit "*/") body = false ->
  forallb isspace ws = true ->
  span Space decl = 0 ->
  forallb (fun a => negb (is_terminator a)) decl = true ->
  is_terminator c = true ->
  startswith (decl ++ [c]) (lit "import") = false ->
  has_sub (lit "/**") post = false ->
  _get_sections (pre ++ lit "/**" ++ body ++ lit "*/" ++ ws ++ decl ++ c :: post)
  = [mkSection (decl ++ [c])
       (if startswith (strip body) (lit "*") then body
        else lit "* " ++ strip body)].
Proof.
  intros Hpre Hne Hb Hws Hsd Hd Ht Hi Hpost.
  set (w := lit "/**" ++ body ++ lit "*/" ++ ws ++ decl ++ [c]).
  assert (Hcode : pre ++ lit "/**" ++ body ++ lit "*/" ++ ws ++ decl ++ c :: post
                  = pre ++ w ++ post).
  { unfold w. rewrite <- !app_assoc. reflexivity. }
  assert (Hw : w ++ post
               = lit "/**" ++ body ++ lit "*/" ++ ws ++ decl ++ c :: post).
  { unfold w. rewrite <- !app_assoc. reflexivity. }
  assert (Lw : List.length w
               = 3 + List.length body + 2 + List.length ws + List.length decl + 1).
  { unfold w. rewrite !length_app. simpl. lia. }
  assert (M : forall pv, exists e,
             match_at re_section false
               (mkState (List.length pre) pv (w ++ post) []) = Some e
             /\ caps e = [(2, decl ++ [c]); (1, body)]
             /\ pos e = List.length pre + List.length w).
  { intros pv.
    destruct (section_match body ws decl post c false
                (mkState (List.length pre) pv (w ++ post) []))
      as [e [A [B C]]]; auto.
    exists e. repeat split; auto. rewrite C, Lw. reflexivity. }
  rewrite Hcode. unfold _get_sections, finditer.
  destruct (scan_one re_section pre w post
              (fun pv => match match_at re_section false
                                 (mkState (List.length pre) pv (w ++ post) [])
                         with Some e => e | None => mkState 0 None [] [] end)
              None) as [pv E].
  - unfold w. discriminate.
  - intros x y p pv Ex Hy. unfold match_at, re_section. unfold cat at 1.
    cbn [fold_right]. apply opener_needed. cbn [rest]. rewrite Hw.
    apply opener_absent; [exact Hy|].
    apply (has_sub_suffix _ x). rewrite <- Ex. exact Hpre.
  - intros pv. destruct (M pv) as [e [-> _]]. reflexivity.
  - intros pv. destruct (M pv) as [e [-> [_ P]]]. exact P.
  - intros p pv. apply (scan_nil re_section (fun s => has_sub (lit "/**") s = false));
      auto.
    + intros a s. apply has_sub_tail.
    + intros st Hs. unfold match_at, re_section. unfold cat at 1. cbn [fold_right].
      apply opener_needed. apply has_sub_head. exact Hs.
  - rewrite E. destruct (M pv) as [e [-> [C _]]].
    cbn [collect flat_map]. unfold primary_section, group_or_empty, group, mk_match.
    cbn [m_caps]. rewrite C. cbn [lookup Nat.eqb].
    destruct body as [|b0 body]; [congruence|].
    assert (is_empty (decl ++ [c]) = false) as -> by (destruct decl; reflexivity).
    cbn [is_empty orb]. rewrite strip_declaration by assumption. rewrite Hi.
    destruct (startswith (strip (b0 :: body)) (lit "*")); reflexivity.
Qed.

Lemma documented_declaration_extracted_witness :
  _get_sections (lit "package p; " ++ lit "/**" ++ lit " Adds. " ++ lit "*/"
                 ++ [nl] ++ lit "int add(int a)" ++ ch "{" :: lit " return a; }")
  = [mkSection (lit "int add(int a)" ++ [ch "{"]) (lit "* " ++ lit "Adds.")].
Proof.
  apply (documented_declaration_extracted (lit "package p; ") (lit " Adds. ")
           [nl] (lit "int add(int a)") (lit " return a; }") (ch "{"));
    try reflexivity; discriminate.
Defined.

(** ** A comment with nothing after it *)

Lemma split_on_spaces (s : str) :
  forallb isspace s = true ->
  Forall (fun l => forallb isspace l = true) (split_on nl s).
Proof.
  induction s as [|c s IH]; intros H.
  - repeat constructor.
  - simpl in H. apply andb_true_iff in H. destruct H as [Hc H].
    specialize (IH H). cbn [split_on]. destruct (N.eqb c nl).
    + constructor; [reflexivity|exact IH].
    + destruct (split_on nl s) as [|f fs].
      * repeat constructor. simpl. rewrite Hc. reflexivity.
      * inversion IH; subst. constructor; [|assumption].
        simpl. rewrite Hc. assumption.
Qed.

Lemma lstrip_spaces (s : str) : forallb isspace s = true -> lstrip s = [].
Proof.
  induction s as [|a l IH]; simpl; [reflexivity|].
  intros H. apply andb_true_iff in H. destruct H as [-> H]. auto.
Qed.

Lemma first_nonblank_spaces (ls : list str) :
  Forall (fun l => forallb isspace l = true) ls -> first_nonblank ls = None.
Proof.
  induction 1 as [|l ls H _ IH]; [reflexivity|].
  cbn [first_nonblank]. unfold strip. rewrite (lstrip_spaces l H). exact IH.
Qed.

Lemma spaces_no_opener (s : str) :
  forallb isspace s = true -> startswith s (lit "/**") = false.
Proof.
  destruct s as [|a s]; [reflexivity|]. cbn [forallb]. intros H.
  apply andb_true_iff in H. destruct H as [Ha _].
  unfold lit. cbn [List.map list_ascii_of_string startswith].
  destruct (N.eqb_spec (N_of_ascii "/") a) as [<-|]; [discriminate|reflexivity].
Qed.

Lemma scan_spaces_no_opener (r : re) (s : str) (p : nat) (pv : option char) :
  forallb isspace s = true -> scan (Seq (lits "/**") r) p pv s 0 = [].
Proof.
  intros H.
  apply (scan_nil (Seq (lits "/**") r) (fun s => forallb isspace s = true)); auto.
  - intros c t Ht. simpl in Ht. apply andb_true_iff in Ht. tauto.
  - intros st Hs. unfold match_at. apply opener_needed.
    apply spaces_no_opener. exact Hs.
Qed.

(** A documentation comment with only white space after it, and no
    comment opening before it, gives no section: the first loop
    discards the match for its empty declaration, and the second finds
    no line to take as the declaration. *)
Theorem trailing_comment_no_section (pre body ws : str) :
  has_sub (lit "/**") pre = false ->
  has_sub (lit "*/") body = false ->
  forallb isspace ws = true ->
  _get_sections (pre ++ lit "/**" ++ body ++ lit "*/" ++ ws) = [].
Proof.
  intros Hpre Hb Hws.
  assert (Hfail : forall r x y p pv t, pre = x ++ y -> y <> [] ->
            match_at (Seq (lits "/**") r) false
              (mkState p pv (y ++ lit "/**" ++ t) []) = None).
  { intros r x y p pv t Ex Hy. unfold match_at. apply opener_needed. cbn [rest].
    apply opener_absent; [exact Hy|].
    apply (has_sub_suffix _ x). rewrite <- Ex. exact Hpre. }
  (* the first loop *)
  set (w := lit "/**" ++ body ++ lit "*/" ++ ws).
  assert (Lw : List.length w = 3 + List.length body + 2 + List.length ws).
  { unfold w. rewrite !length_app. simpl. lia. }
  assert (M : forall pv, exists e,
             match_at re_section false (mkState (List.length pre) pv (w ++ []) [])
             = Some e
             /\ caps e = [(2, []); (1, body)]
             /\ pos e = List.length pre + List.length w).
  { intros pv. set (st := mkState (List.length pre) pv (w ++ []) []).
    assert (Hr : rest st = lit "/**" ++ body ++ lit "*/" ++ ws ++ []).
    { unfold st, w. cbn [rest]. rewrite <- !app_assoc. reflexivity. }
    destruct (section_prefix_state body ws [] st Hr) as [R4 [P4 C4]].
    cbv zeta in R4, P4, C4.
    eexists. split; [|split].
    - unfold match_at, re_section. unfold cat at 1. cbn [fold_right].
      apply (section_prefix body ws []); [exact Hr|exact Hb|exact Hws|reflexivity|].
      apply declaration_group_end; [exact R4|].
      cbn [pos set_cap]. rewrite P4.
      assert (Nat.eqb (pos st + (3 + List.length body + 2 + List.length ws))
                      (pos st) = false) as -> by (apply Nat.eqb_neq; lia).
      reflexivity.
    - cbn [caps set_cap]. rewrite C4. reflexivity.
    - cbn [pos set_cap]. rewrite P4, Lw. reflexivity. }
  assert (P1 : collect primary_section (finditer re_section (pre ++ w)) = []).
  { unfold finditer. rewrite <- (app_nil_r w) at 1.
    destruct (scan_one re_section pre w []
                (fun pv => match match_at re_section false
                                   (mkState (List.length pre) pv (w ++ []) [])
                           with Some e => e | None => mkState 0 None [] [] end)
                None) as [pv E].
    - unfold w. discriminate.
    - intros x y p pv Ex Hy. unfold re_section. unfold cat at 1. cbn [fold_right].
      rewrite app_nil_r. unfold w. apply (Hfail _ x); assumption.
    - intros pv. destruct (M pv) as [e [-> _]]. reflexivity.
    - intros pv. destruct (M pv) as [e [-> [_ P]]]. exact P.
    - intros p pv. unfold re_section. unfold cat at 1. cbn [fold_right].
      apply scan_spaces_no_opener. reflexivity.
    - rewrite E. destruct (M pv) as [e [-> [C _]]].
      cbn [collect flat_map]. unfold primary_section, group_or_empty, group, mk_match.
      cbn [m_caps]. rewrite C. cbn [lookup Nat.eqb is_empty].
      rewrite orb_true_r. reflexivity. }
  (* the second loop *)
  set (w2 := lit "/**" ++ body ++ lit "*/").
  assert (Lw2 : List.length w2 = 3 + List.length body + 2).
  { unfold w2. rewrite !length_app. simpl. lia. }
  assert (M2 : forall pv, exists e,
             match_at re_comment false (mkState (List.length pre) pv (w2 ++ ws) [])
             = Some e
             /\ caps e = [(1, body)]
             /\ pos e = List.length pre + List.length w2).
  { intros pv. set (st := mkState (List.length pre) pv (w2 ++ ws) []).
    assert (Hr : rest st = lit "/**" ++ body ++ lit "*/" ++ ws).
    { unfold st, w2. cbn [rest]. rewrite <- !app_assoc. reflexivity. }
    destruct (comment_prefix_state body ws st Hr) as [R3 [P3 C3]].
    cbv zeta in R3, P3, C3.
    eexists. split; [|split].
    - unfold match_at, re_comment, cat. cbn [fold_right].
      apply (comment_prefix body ws); [exact Hr|exact Hb|].
      rewrite run_Eps. rewrite andb_false_l. reflexivity.
    - rewrite C3. reflexivity.
    - rewrite P3, Lw2. reflexivity. }
  assert (P2 : collect (fallback_section (pre ++ w2 ++ ws))
                 (finditer re_comment (pre ++ w2 ++ ws)) = []).
  { unfold finditer.
    destruct (scan_one re_comment pre w2 ws
                (fun pv => match match_at re_comment false
                                   (mkState (List.length pre) pv (w2 ++ ws) [])
                           with Some e => e | None => mkState 0 None [] [] end)
                None) as [pv E].
    - unfold w2. discriminate.
    - intros x y p pv Ex Hy. unfold re_comment, cat. cbn [fold_right].
      unfold w2. rewrite <- !app_assoc. apply (Hfail _ x); assumption.
    - intros pv. destruct (M2 pv) as [e [-> _]]. reflexivity.
    - intros pv. destruct (M2 pv) as [e [-> [_ P]]]. exact P.
    - intros p pv. unfold re_comment, cat. cbn [fold_right].
      apply scan_spaces_no_opener. exact Hws.
    - rewrite E. destruct (M2 pv) as [e [-> [C P]]].
      cbn [collect flat_map]. unfold fallback_section, group_or_empty, group, mk_match.
      cbn [m_caps m_end]. rewrite C, P. cbn [lookup Nat.eqb].
      destruct (is_empty body); [reflexivity|].
      replace (List.length pre + List.length w2) with (List.length (pre ++ w2))
        by apply length_app.
      rewrite app_assoc, skipn_app, Nat.sub_diag, skipn_all. cbn [skipn app].
      rewrite first_nonblank_spaces; [reflexivity|].
      apply split_on_spaces. exact Hws. }
  unfold _get_sections.
  replace (pre ++ lit "/**" ++ body ++ lit "*/" ++ ws) with (pre ++ w) by reflexivity.
  rewrite P1.
  replace (pre ++ w) with (pre ++ w2 ++ ws)
    by (unfold w, w2; rewrite <- !app_assoc; reflexivity).
  exact P2.
Qed.

Lemma trailing_comment_no_section_witness :
  _get_sections (lit "class A {} " ++ lit "/**" ++ lit " end of file " ++ lit "*/"
                 ++ [nl; nl])
  = [].
Proof.
  apply (trailing_comment_no_section (lit "class A {} ") (lit " end of file ")
           [nl; nl]); reflexivity.
Defined.

(** ** Inline code *)

Lemma no_lt_startswith (s t : str) (l : string) :
  ~ In (ch "<") s -> s <> [] ->
  startswith (s ++ t) (lit (String "<" l)) = false.
Proof.
  intros H Hs. destruct s as [|a s]; [congruence|].
  unfold lit. cbn [list_ascii_of_string List.map app startswith].
  destruct (N.eqb_spec (N_of_ascii "<") a) as [E|]; [|reflexivity].
  exfalso. apply H. left. symmetry. exact E.
Qed.

Lemma code_fail (st : state) :
  startswith (rest st) (lit "<") = false -> match_at re_code false st = None.
Proof.
  intros H. unfold match_at, re_code. unfold cat at 1. cbn [fold_right].
  rewrite run_Seq. unfold lits. apply run_text_miss. exact H.
Qed.

Lemma no_lt_head (s : str) :
  ~ In (ch "<") s -> startswith s (lit "<") = false.
Proof.
  intros H. destruct s as [|a t]; [reflexivity|].
  unfold lit. cbn [list_ascii_of_string List.map startswith].
  destruct (N.eqb_spec (N_of_ascii "<") a) as [E|]; [|reflexivity].
  exfalso. apply H. left. symmetry. exact E.
Qed.

Lemma scan_code_nil (s : str) (p : nat) (pv : option char) :
  ~ In (ch "<") s -> scan re_code p pv s 0 = [].
Proof.
  intros H. apply (scan_nil re_code (fun s => ~ In (ch "<") s)); auto.
  - intros c t Ht Hin. apply Ht. right. exact Hin.
  - intros st Hs. apply code_fail. apply no_lt_head. exact Hs.
Qed.

Lemma dot_line (w : str) :
  ~ In nl w -> forallb (cls_test (Dot false)) w = true.
Proof.
  induction w as [|a w IH]; [reflexivity|]. intros H.
  cbn [forallb cls_test orb]. rewrite IH by (intros Hin; apply H; right; exact Hin).
  destruct (N.eqb_spec a 10) as [->|]; [|reflexivity].
  exfalso. apply H. left. reflexivity.
Qed.

Lemma skipn_no_lt (j : nat) (x : str) :
  ~ In (ch "<") x -> ~ In (ch "<") (skipn j x).
Proof.
  intros H Hin. apply H. rewrite <- (firstn_skipn j x). apply in_or_app. right. exact Hin.
Qed.

Lemma code_match (x post : str) (st : state) :
  rest st = lit "<code>" ++ x ++ lit "</code>" ++ post ->
  caps st = [] ->
  ~ In (ch "<") x -> ~ In nl x ->
  exists e,
    match_at re_code false st = Some e
    /\ caps e = [(1, x)]
    /\ pos e = pos st + (6 + List.length x + 7).
Proof.
  intros Hr Hc Hx Hn.
  destruct (steps_app (lit "<code>") (x ++ lit "</code>" ++ post) st Hr)
    as [R1 [P1 C1]].
  change (List.length (lit "<code>")) with 6 in R1, P1, C1.
  set (s1 := steps 6 st) in *.
  destruct (steps_app x (lit "</code>" ++ post) s1 R1) as [R2 [P2 C2]].
  set (s2 := set_cap 1 x (steps (List.length x) s1)) in *.
  assert (R2' : rest s2 = lit "</code>" ++ post) by exact R2.
  destruct (steps_app (lit "</code>") post s2 R2') as [R3 [P3 C3]].
  change (List.length (lit "</code>")) with 7 in R3, P3, C3.
  exists (steps 7 s2). split; [|split].
  - unfold match_at, re_code, cat, star_lazy. cbn [fold_right].
    rewrite run_Seq. unfold lits at 1.
    rewrite (run_text_hit (lit "<") (lit "code>" ++ x ++ lit "</code>" ++ post))
      by exact Hr.
    rewrite run_Seq. apply run_lazy_zero.
    rewrite run_Seq. unfold lits at 1.
    rewrite (run_text_hit (lit "code") (lit ">" ++ x ++ lit "</code>" ++ post)).
    2:{ rewrite steps_rest, Hr. reflexivity. }
    rewrite run_Seq. apply run_lazy_zero.
    rewrite run_Seq. unfold lits at 1.
    rewrite (run_text_hit (lit ">") (x ++ lit "</code>" ++ post)).
    2:{ rewrite !steps_rest, Hr. reflexivity. }
    change (steps (List.length (lit ">"))
              (steps (List.length (lit "code")) (steps (List.length (lit "<")) st)))
      with s1.
    rewrite run_Seq, run_Grp.
    apply (run_lazy_cls (Dot false) x (lit "</code>" ++ post) s1);
      [exact R1 | apply dot_line; exact Hn | | ].
    + intros j Hj. rewrite run_Seq. unfold lits at 1. apply run_text_miss.
      cbn [rest set_cap].
      destruct (steps_firstn x (lit "</code>" ++ post) s1 j R1) as [-> _]; [lia|].
      apply (no_lt_startswith _ _ "").
      * apply skipn_no_lt. exact Hx.
      * intros E. apply (f_equal (@List.length char)) in E.
        rewrite length_skipn in E. simpl in E. lia.
    + rewrite P2. replace (pos s1 + List.length x - pos s1) with (List.length x)
        by lia.
      rewrite R1, firstn_app, Nat.sub_diag, firstn_all. cbn [firstn].
      rewrite app_nil_r. fold s2.
      rewrite run_Seq. unfold lits at 1.
      rewrite (run_text_hit (lit "<") (lit "/code>" ++ post)) by exact R2'.
      rewrite run_Seq. apply run_lazy_zero.
      rewrite run_Seq. unfold lits at 1.
      rewrite (run_text_hit (lit "/") (lit "code>" ++ post)).
      2:{ rewrite steps_rest, R2'. reflexivity. }
      rewrite run_Seq. apply run_lazy_zero.
      rewrite run_Seq. unfold lits at 1.
      rewrite (run_text_hit (lit "code") (lit ">" ++ post)).
      2:{ rewrite !steps_rest, R2'. reflexivity. }
      rewrite run_Seq. apply run_lazy_zero.
      rewrite run_Seq. unfold lits at 1.
      rewrite (run_text_hit (lit ">") post).
      2:{ rewrite !steps_rest, R2'. reflexivity. }
      rewrite run_Eps.
      change (steps (List.length (lit ">"))
                (steps (List.length (lit "code"))
                   (steps (List.length (lit "/"))
                      (steps (List.length (lit "<")) s2))))
        with (steps 7 s2).
      rewrite andb_false_l. reflexivity.
  - rewrite C3. unfold s2. cbn [caps set_cap]. rewrite C2, C1, Hc. reflexivity.
  - rewrite P3. unfold s2. cbn [pos set_cap]. rewrite P2, P1. lia.
Qed.

Lemma replace_html_plain (s : str) :
  ~ In (ch "<") s -> _replace_html_with_markdown s = s.
Proof.
  intros H. unfold _replace_html_with_markdown, Re.sub, finditer.
  rewrite scan_code_nil by exact H. reflexivity.
Qed.

(** Text without [<] is left as it is, and one [<code>] element with
    nothing else in angle brackets becomes its content between
    backticks. *)
Theorem html_code_to_backticks :
  (forall s : str, ~ In (ch "<") s -> _replace_html_with_markdown s = s)
  /\ (forall pre x post : str,
         ~ In (ch "<") pre -> ~ In (ch "<") x -> ~ In nl x ->
         ~ In (ch "<") post ->
         _replace_html_with_markdown
           (pre ++ lit "<code>" ++ x ++ lit "</code>" ++ post)
         = pre ++ lit "`" ++ x ++ lit "`" ++ post).
Proof.
  split; [exact replace_html_plain|].
  - intros pre x post Hpre Hx Hn Hpost.
    set (w := lit "<code>" ++ x ++ lit "</code>").
    assert (Hw : forall t, w ++ t = lit "<code>" ++ x ++ lit "</code>" ++ t).
    { intros t. unfold w. rewrite <- !app_assoc. reflexivity. }
    assert (Lw : List.length w = 6 + List.length x + 7).
    { unfold w. rewrite !length_app. simpl. lia. }
    assert (M : forall pv, exists e,
               match_at re_code false (mkState (List.length pre) pv (w ++ post) [])
               = Some e
               /\ caps e = [(1, x)]
               /\ pos e = List.length pre + List.length w).
    { intros pv.
      destruct (code_match x post (mkState (List.length pre) pv (w ++ post) [])
                  (Hw post) eq_refl Hx Hn) as [e [A [B C]]].
      exists e. repeat split; auto. rewrite C, Lw. reflexivity. }
    unfold _replace_html_with_markdown, Re.sub, finditer.
    replace (pre ++ lit "<code>" ++ x ++ lit "</code>" ++ post)
      with (pre ++ w ++ post) by (rewrite Hw; reflexivity).
    destruct (scan_one re_code pre w post
                (fun pv => match match_at re_code false
                                   (mkState (List.length pre) pv (w ++ post) [])
                           with Some e => e | None => mkState 0 None [] [] end)
                None) as [pv E].
    + unfold w. discriminate.
    + intros a y p pv Ex Hy. apply code_fail. cbn [rest].
      apply (no_lt_startswith y (w ++ post) ""); [|exact Hy].
      intros Hin. apply Hpre. rewrite Ex. apply in_or_app. right. exact Hin.
    + intros pv. destruct (M pv) as [e [-> _]]. reflexivity.
    + intros pv. destruct (M pv) as [e [-> [_ P]]]. exact P.
    + intros p pv. apply scan_code_nil. exact Hpost.
    + rewrite E. destruct (M pv) as [e [-> [C P]]].
      cbn [sub_pieces mk_match m_start m_end pos]. rewrite P, !Nat.sub_0_r.
      rewrite firstn_app, Nat.sub_diag, firstn_all. cbn [firstn].
      unfold expand, group, mk_match. cbn [m_caps List.map]. rewrite C.
      cbn [lookup Nat.eqb concat].
      replace (List.length pre + List.length w) with (List.length (pre ++ w))
        by apply length_app.
      rewrite (app_assoc pre w post), skipn_app, Nat.sub_diag, skipn_all.
      cbn [skipn app]. rewrite !app_nil_r, <- !app_assoc. reflexivity.
Qed.

Lemma html_code_to_backticks_witness :
  _replace_html_with_markdown
    (lit "Adds " ++ lit "<code>" ++ lit "a + b" ++ lit "</code>" ++ lit " now.")
  = lit "Adds " ++ lit "`" ++ lit "a + b" ++ lit "`" ++ lit " now.".
Proof.
  apply (proj2 html_code_to_backticks (lit "Adds ") (lit "a + b") (lit " now."));
    intros H; vm_compute in H;
    repeat (destruct H as [H|H]; [discriminate|]); contradiction.
Defined.

(** ** Patterns anchored at the start *)

Lemma scan_after_start (r : re) :
  (forall st, prev st <> None -> match_at r false st = None) ->
  forall s p c, scan r p (Some c) s 0 = [].
Proof.
  intros H. induction s as [|a s IH]; intros p c; rewrite scan_0;
    unfold matches_here; rewrite H by (cbn [prev]; discriminate);
    cbn [fst snd app]; [reflexivity|apply IH].
Qed.

Lemma scan_skip_some (r : re) (k : nat) :
  forall s p c, k <= List.length s ->
    exists c', scan r p (Some c) s k = scan r (p + k) (Some c') (skipn k s) 0.
Proof.
  induction k as [|k IH]; intros s p c H.
  - exists c. rewrite Nat.add_0_r. reflexivity.
  - destruct s as [|a s]; [simpl in H; lia|].
    destruct (IH s (S p) a) as [c' E]; [simpl in H; lia|].
    exists c'. cbn [scan fst snd app skipn]. rewrite E.
    replace (S p + k) with (p + S k) by lia. reflexivity.
Qed.

(** A pattern that only matches at the start, on a subject where it
    matches the prefix [w]. *)
Lemma sub_anchored (r : re) (t : list titem) (w post : str) (e : state) :
  (forall st, prev st <> None -> match_at r false st = None) ->
  w <> [] ->
  match_at r false (mkState 0 None (w ++ post) []) = Some e ->
  pos e = List.length w ->
  Re.sub r t (w ++ post)
  = expand t (mk_match (mkState 0 None (w ++ post) []) e) ++ post.
Proof.
  intros Ha Hw Hm Hp. unfold Re.sub, finditer. rewrite scan_0. unfold matches_here.
  rewrite Hm, Hp. cbn [pos].
  destruct w as [|a w]; [congruence|].
  cbn [List.length Nat.eqb fst snd app].
  destruct (scan_skip_some r (List.length w) (w ++ post) 1 a) as [c' E].
  { rewrite length_app. lia. }
  replace (S (List.length w) - 0 - 1) with (List.length w) by lia.
  rewrite E, scan_after_start by exact Ha.
  cbn [sub_pieces mk_match m_start m_end pos]. rewrite Hp.
  cbn [List.length Nat.sub firstn skipn app].
  rewrite skipn_app, Nat.sub_diag, skipn_all. reflexivity.
Qed.

Lemma sub_anchored_none (r : re) (t : list titem) (s : str) :
  (forall st, prev st <> None -> match_at r false st = None) ->
  match_at r false (mkState 0 None s []) = None ->
  Re.sub r t s = s.
Proof.
  intros Ha Hm. unfold Re.sub, finditer. rewrite scan_0. unfold matches_here.
  rewrite Hm. cbn [fst snd app].
  destruct s as [|a s]; [reflexivity|].
  rewrite scan_after_start by exact Ha. reflexivity.
Qed.

Lemma run_Bol_later (m : bool) (st : state) (k : state -> option state) :
  prev st <> None -> m = false -> run (Bol m) st k = None.
Proof.
  intros H ->. cbn [run]. unfold at_bol. destruct (prev st); [reflexivity|congruence].
Qed.

Lemma lead_star_anchored (st : state) :
  prev st <> None -> match_at re_lead_star false st = None.
Proof.
  intros H. unfold match_at, re_lead_star, cat. cbn [fold_right].
  rewrite run_Seq. apply run_Bol_later; [exact H|reflexivity].
Qed.

Lemma open_anchored (st : state) :
  prev st <> None -> match_at re_open false st = None.
Proof.
  intros H. unfold match_at, re_open, cat. cbn [fold_right].
  rewrite run_Seq. apply run_Bol_later; [exact H|reflexivity].
Qed.

(** ** The star that leads a line *)

Lemma star_not_space : isspace (ch "*") = false.
Proof. reflexivity. Qed.

Lemma lstrip_cut (s : str) :
  exists ws, forallb isspace ws = true /\ s = ws ++ lstrip s
             /\ span Space (lstrip s) = 0.
Proof.
  destruct (lstrip_split s) as [ws [H E]]. exists ws. repeat split; auto.
  apply span_lstrip.
Qed.

Lemma spaces_then_miss (ws t : str) (j : nat) (l : string) (a : ascii) :
  forallb isspace ws = true -> isspace (ch a) = false ->
  startswith t (lit (String a l)) = false ->
  startswith (skipn j ws ++ t) (lit (String a l)) = false.
Proof.
  intros Hws Ha Ht. destruct (skipn j ws) as [|b u] eqn:Ej; [exact Ht|].
  assert (Hb : isspace b = true).
  { assert (In b ws).
    { rewrite <- (firstn_skipn j ws), Ej. apply in_or_app. right. left. reflexivity. }
    rewrite forallb_forall in Hws. auto. }
  unfold lit. cbn [list_ascii_of_string List.map app startswith].
  destruct (N.eqb_spec (N_of_ascii a) b) as [E|]; [|reflexivity].
  unfold ch in Ha. rewrite E in Ha. congruence.
Qed.

Lemma greedy_spaces_miss (ws t : str) (R : re) (l : string) (a : ascii)
    (st : state) (k : state -> option state) :
  rest st = ws ++ t -> forallb isspace ws = true -> span Space t = 0 ->
  isspace (ch a) = false ->
  startswith t (lit (String a l)) = false ->
  run (Seq (star (Chr Space)) (Seq (lits (String a l)) R)) st k = None.
Proof.
  intros Hr Hws Hsp Ha Ht. rewrite run_Seq. unfold star. rewrite run_Rep.
  apply greedy_none. intros j Hj. rewrite run_Seq. unfold lits.
  apply run_text_miss.
  assert (Sp : span Space (rest st) = List.length ws)
    by (rewrite Hr; apply span_app_all; assumption).
  rewrite Sp in Hj.
  destruct (steps_firstn ws t st j Hr Hj) as [-> _].
  apply spaces_then_miss; assumption.
Qed.

(** [re.sub(r'^\s*\*\s*', '', l)] *)
Lemma sub_lead_star (l : str) :
  Re.sub re_lead_star [] l
  = match lstrip l with
    | c :: r => if N.eqb c (ch "*") then lstrip r else l
    | [] => l
    end.
Proof.
  destruct (lstrip_cut l) as [ws [Hws [El Hsp]]].
  assert (Miss : startswith (lstrip l) (lit "*") = false -> Re.sub re_lead_star [] l = l).
  { intros Hm. apply sub_anchored_none; [exact lead_star_anchored|].
    unfold match_at, re_lead_star, cat. cbn [fold_right].
    rewrite run_Seq, run_Bol_start by reflexivity.
    apply (greedy_spaces_miss ws (lstrip l) _ "" "*");
      [exact El|exact Hws|exact Hsp|reflexivity|exact Hm]. }
  destruct (lstrip l) as [|c r] eqn:Ec.
  { apply Miss. reflexivity. }
  destruct (N.eqb_spec c (ch "*")) as [->|Hne].
  - destruct (lstrip_cut r) as [ws2 [Hws2 [Er Hsp2]]].
    set (w := ws ++ ch "*" :: ws2).
    assert (Hl : l = w ++ lstrip r).
    { unfold w. rewrite El, Er at 1. rewrite <- app_assoc. reflexivity. }
    set (st0 := mkState 0 None (w ++ lstrip r) []).
    assert (R0 : rest st0 = ws ++ ch "*" :: ws2 ++ lstrip r).
    { unfold st0, w. cbn [rest]. rewrite <- app_assoc. reflexivity. }
    destruct (steps_app ws (ch "*" :: ws2 ++ lstrip r) st0 R0) as [R1 [P1 C1]].
    set (s1 := steps (List.length ws) st0) in *.
    destruct (steps_app (lit "*") (ws2 ++ lstrip r) s1 R1) as [R2 [P2 C2]].
    change (List.length (lit "*")) with 1 in R2, P2, C2.
    set (s2 := steps 1 s1) in *.
    destruct (steps_app ws2 (lstrip r) s2 R2) as [R3 [P3 C3]].
    rewrite Hl at 1.
    rewrite (sub_anchored re_lead_star [] w (lstrip r) (steps (List.length ws2) s2)).
    + reflexivity.
    + exact lead_star_anchored.
    + unfold w. destruct ws; discriminate.
    + unfold match_at, re_lead_star, cat. cbn [fold_right].
      rewrite run_Seq, run_Bol_start by reflexivity.
      rewrite run_Seq. unfold star at 1.
      apply (run_greedy_cls Space 0 ws (ch "*" :: ws2 ++ lstrip r) st0);
        [exact R0|exact Hws|reflexivity|lia|].
      fold s1. rewrite run_Seq. unfold lits.
      rewrite (run_text_hit (lit "*") (ws2 ++ lstrip r)) by exact R1.
      change (List.length (lit "*")) with 1. fold s2.
      rewrite run_Seq. unfold star.
      apply (run_greedy_cls Space 0 ws2 (lstrip r) s2);
        [exact R2|exact Hws2|exact Hsp2|lia|].
      rewrite run_Eps. reflexivity.
    + rewrite P3, P2, P1. unfold w. cbn [pos st0]. rewrite length_app. simpl. lia.
  - apply Miss. unfold lit. cbn [list_ascii_of_string List.map startswith].
    destruct (N.eqb_spec (N_of_ascii "*") c) as [E|]; [|reflexivity].
    exfalso. apply Hne. symmetry. exact E.
Qed.

(** ** Comment markers *)

Lemma open_needs_slash (st e : state) :
  Matches re_open st e -> In (ch "/") (rest st).
Proof.
  unfold re_open, cat. cbn [fold_right]. intros H.
  apply Matches_Seq_inv in H. destruct H as [s1 [M1 H]].
  apply Matches_Seq_inv in H. destruct H as [s2 [M2 H]].
  apply Matches_Seq_inv in H. destruct H as [s3 [M3 _]].
  unfold lits, cat in M3. cbn [fold_right List.map lit list_ascii_of_string] in M3.
  apply Matches_Seq_inv in M3. destruct M3 as [x [M3 _]].
  apply Matches_Chr_inv in M3. destruct M3 as [a [t [E [Ha _]]]].
  cbn [cls_test] in Ha. apply N.eqb_eq in Ha. subst a.
  apply Matches_suffix in M1, M2.
  destruct M1 as [w1 E1], M2 as [w2 E2].
  rewrite E1, E2, E. rewrite !in_app_iff. do 2 right. left. reflexivity.
Qed.

Lemma close_needs_slash (st e : state) :
  Matches re_close st e -> In (ch "/") (rest st).
Proof.
  unfold re_close, cat. cbn [fold_right]. intros H.
  apply Matches_Seq_inv in H. destruct H as [s1 [M1 H]].
  apply Matches_Seq_inv in H. destruct H as [s2 [M2 H]].
  apply Matches_Seq_inv in H. destruct H as [s3 [M3 _]].
  unfold lits, cat in M3. cbn [fold_right List.map lit list_ascii_of_string] in M3.
  apply Matches_Seq_inv in M3. destruct M3 as [x [M3 _]].
  apply Matches_Chr_inv in M3. destruct M3 as [a [t [E [Ha _]]]].
  cbn [cls_test] in Ha. apply N.eqb_eq in Ha. subst a.
  apply Matches_suffix in M1, M2.
  destruct M1 as [w1 E1], M2 as [w2 E2].
  rewrite E1, E2, E. rewrite !in_app_iff. do 2 right. left. reflexivity.
Qed.

Lemma sub_needs (r : re) (t : list titem) (c : char) (s : str) :
  (forall st e, Matches r st e -> In c (rest st)) ->
  ~ In c s -> Re.sub r t s = s.
Proof.
  intros Hr H. unfold Re.sub, finditer.
  rewrite (scan_nil r (fun s => ~ In c s)); auto.
  - intros a u Hu Hin. apply Hu. right. exact Hin.
  - intros st Hn. unfold match_at.
    destruct (run r st _) as [e|] eqn:E; [|reflexivity].
    apply run_sound in E. destruct E as [e' [M _]].
    apply Hr in M. contradiction.
Qed.

Lemma in_lstrip_tail (x : char) (l : str) :
  In x (match lstrip l with
        | c :: r => if N.eqb c (ch "*") then lstrip r else l
        | [] => l
        end) -> In x l.
Proof.
  destruct (lstrip l) as [|c r] eqn:E; [auto|].
  destruct (N.eqb c (ch "*")); [|auto].
  intros H. apply in_lstrip in H. apply in_lstrip. rewrite E. right. exact H.
Qed.

(** On a line without [/] only the leading star is removed. *)
Lemma clean_description_line_plain (l : str) :
  ~ In (ch "/") l ->
  clean_description_line l
  = match lstrip l with
    | c :: r => if N.eqb c (ch "*") then lstrip r else l
    | [] => l
    end.
Proof.
  intros H. unfold clean_description_line. rewrite sub_lead_star.
  set (x := match lstrip l with
            | c :: r => if N.eqb c (ch "*") then lstrip r else l
            | [] => l
            end).
  assert (H' : ~ In (ch "/") x).
  { intros Hin. apply H. apply in_lstrip_tail. exact Hin. }
  rewrite (sub_needs re_open [] (ch "/") x open_needs_slash H').
  rewrite (sub_needs re_close [] (ch "/") x close_needs_slash H').
  reflexivity.
Qed.

Lemma words_unstar (l : str) :
  words (match lstrip l with
         | c :: r => if N.eqb c (ch "*") then lstrip r else l
         | [] => l
         end) = words (unstar l).
Proof.
  unfold unstar. destruct (lstrip l) as [|c r]; [reflexivity|].
  destruct (N.eqb c (ch "*")); [apply words_lstrip|reflexivity].
Qed.

(** ** Words of joined lines *)

Lemma words_app_space (a b : str) (c : char) :
  isspace c = true -> words (a ++ c :: b) = words a ++ words b.
Proof.
  intros Hc. induction a as [|x a IH].
  - cbn [app words]. rewrite Hc. reflexivity.
  - change ((x :: a) ++ c :: b) with (x :: (a ++ c :: b)).
    cbn [words]. destruct (isspace x); [exact IH|].
    destruct a as [|d a].
    + cbn [app] in *. rewrite Hc, IH. reflexivity.
    + change ((d :: a) ++ c :: b) with (d :: (a ++ c :: b)) in *.
      cbv beta iota. destruct (isspace d) eqn:Ed.
      * rewrite IH. reflexivity.
      * rewrite IH. destruct (words (d :: a)) as [|w ws] eqn:Ew; [|reflexivity].
        apply words_nil in Ew. simpl in Ew. rewrite Ed in Ew. discriminate.
Qed.

Lemma words_join (l : list str) :
  words (join (lit " ") l) = concat (List.map words l).
Proof.
  induction l as [|x l IH]; [reflexivity|].
  destruct l as [|y l].
  - cbn [join List.map concat]. rewrite app_nil_r. reflexivity.
  - change (join (lit " ") (x :: y :: l))
      with (x ++ ch " " :: join (lit " ") (y :: l)).
    rewrite words_app_space by reflexivity. rewrite IH. reflexivity.
Qed.

(** ** Where the characters of the words come from *)

Lemma words_In (s : str) (w : str) (a : char) :
  In w (words s) -> In a w -> In a s.
Proof.
  revert w. induction s as [|c s IH]; intros w Hw Ha; [contradiction|].
  cbn [words] in Hw. destruct (isspace c).
  { right. eauto. }
  destruct s as [|d s].
  - destruct Hw as [<-|[]]. exact Ha.
  - destruct (isspace d).
    + destruct Hw as [<-|Hw]; [destruct Ha as [<-|[]]; left; reflexivity|].
      right. eauto.
    + destruct (words (d :: s)) as [|w0 ws] eqn:Ew.
      * destruct Hw as [<-|[]]. destruct Ha as [<-|[]]. left. reflexivity.
      * destruct Hw as [<-|Hw].
        -- destruct Ha as [<-|Ha]; [left; reflexivity|].
           right. apply (IH w0); [left; reflexivity|exact Ha].
        -- right. apply (IH w); [right; exact Hw|exact Ha].
Qed.

Lemma unstar_In (l : str) (a : char) : In a (unstar l) -> In a l.
Proof.
  unfold unstar. destruct (lstrip l) as [|c r] eqn:E; [auto|].
  destruct (N.eqb c (ch "*")); [|auto].
  intros H. apply in_lstrip. rewrite E. right. exact H.
Qed.

Lemma split_on_In (sep : char) (s l : str) (a : char) :
  In l (split_on sep s) -> In a l -> In a s.
Proof.
  revert l. induction s as [|c s IH]; intros l Hl Ha.
  - destruct Hl as [<-|[]]. contradiction.
  - cbn [split_on] in Hl. destruct (N.eqb c sep).
    + destruct Hl as [<-|Hl]; [contradiction|]. right. eauto.
    + destruct (split_on sep s) as [|f fs] eqn:Ef.
      * destruct Hl as [<-|[]]. destruct Ha as [<-|[]]. left. reflexivity.
      * destruct Hl as [<-|Hl].
        -- destruct Ha as [<-|Ha]; [left; reflexivity|].
           right. apply (IH f); [left; reflexivity|exact Ha].
        -- right. apply (IH l); [right; exact Hl|exact Ha].
Qed.

Lemma replace_none (old new s : str) (c : char) (t : str) :
  old = c :: t -> ~ In c s -> replace old new s = s.
Proof.
  intros -> H. unfold replace. induction s as [|a s IH]; [reflexivity|].
  cbn [replace_aux startswith].
  destruct (N.eqb_spec c a) as [E|].
  - exfalso. apply H. left. symmetry. exact E.
  - cbn [andb]. rewrite IH; [reflexivity|].
    intros Hin. apply H. right. exact Hin.
Qed.

(** ** The description of a comment *)

Lemma description_lines (L : list str) :
  Forall (fun l => ~ In (ch "/") l) L ->
  concat (List.map words
            (flat_map (fun line =>
                         match strip (clean_description_line line) with
                         | [] => []
                         | _ :: _ => [strip (clean_description_line line)]
                         end) L))
  = concat (List.map (fun l => words (unstar l)) L).
Proof.
  induction 1 as [|l L Hl _ IH]; [reflexivity|].
  cbn [flat_map List.map concat]. rewrite map_app, concat_app, IH. f_equal.
  rewrite <- words_unstar, <- (clean_description_line_plain l Hl).
  rewrite <- (words_strip (clean_description_line l)).
  destruct (strip (clean_description_line l)); [reflexivity|].
  cbn [List.map concat]. rewrite app_nil_r. reflexivity.
Qed.

Lemma description_join (d : str) :
  ~ In (ch "/") d -> ~ In (ch "<") d ->
  _get_doc_description d
  = join (lit " ")
      (concat (List.map (fun l => words (unstar l)) (split_on nl d))).
Proof.
  intros Hs Hl. unfold _get_doc_description.
  rewrite clean_line_words, words_join, description_lines.
  2:{ apply Forall_forall. intros l Hin Ha. apply Hs.
      apply (split_on_In nl d l); assumption. }
  set (D := join (lit " ") _).
  assert (HD : ~ In (ch "<") D).
  { intros Hin. apply join_chars in Hin.
    destruct Hin as [E|[w [Hw Ha]]]; [discriminate|].
    apply in_concat in Hw. destruct Hw as [ws [Hws Hw]].
    apply in_map_iff in Hws. destruct Hws as [l [<- Hin]].
    apply Hl. apply (split_on_In nl d l); [exact Hin|].
    apply unstar_In. apply (words_In _ w); assumption. }
  rewrite (replace_html_plain D HD).
  rewrite (replace_none (lit "<p>") _ D (ch "<") (lit "p>") eq_refl HD).
  rewrite (replace_none (lit "</p>") _ D (ch "<") (lit "/p>") eq_refl HD).
  reflexivity.
Qed.

(** In a comment without [/] and [<] the description is the words of
    its lines, each line without its leading star, joined by single
    spaces. *)
Theorem description_words (d : str) :
  ~ In (ch "/") d -> ~ In (ch "<") d ->
  _get_doc_description d
  = join (lit " ")
      (concat (List.map (fun l => words (unstar l)) (split_on nl d))).
Proof. exact (description_join d). Qed.

Lemma description_words_witness :
  _get_doc_description (lines ["* Adds   two"; "   *  numbers."; " "])
  = lit "Adds two numbers.".
Proof.
  rewrite (description_words (lines ["* Adds   two"; "   *  numbers."; " "])).
  - vm_compute. reflexivity.
  - vm_compute. intros H.
    repeat (destruct H as [H|H]; [discriminate|]). contradiction.
  - vm_compute. intros H.
    repeat (destruct H as [H|H]; [discriminate|]). contradiction.
Defined.

(** ** A section without tags *)

(** A declaration that ends with a terminator, documented by a comment
    without [@], [/] and [<]: the fragment is the heading with the
    words of the declaration and, when the comment has words, a
    paragraph with the words of its lines. *)
Theorem plain_section_fragment (decl ws d : str) (c : char) (h : Z)
    (fn : tag -> buffer -> option buffer) :
  is_terminator c = true -> forallb isspace ws = true ->
  ~ In (ch "@") d -> ~ In (ch "/") d -> ~ In (ch "<") d ->
  _from_section (mkSection (decl ++ c :: ws) d) h fn
  = Some (match join (lit " ") (words decl) with
          | [] => []
          | f =>
              [nl; nl] ++ times (lit "#") (h + 1) ++ lit " `" ++ f ++ lit "`"
              ++ match join (lit " ")
                         (concat (List.map (fun l => words (unstar l))
                                    (split_on nl d))) with
                 | [] => []
                 | p => [nl; nl] ++ p
                 end
          end).
Proof.
  intros Hc Hws Ha Hs Hl. unfold _from_section. cbn [line doc].
  rewrite (split_tags_none d Ha). cbn [hd tl _get_doc_tags flat_map].
  rewrite (field_declaration_terminated decl c ws Hc Hws).
  rewrite (description_join d Hs Hl).
  destruct (join (lit " ") (words decl)); [reflexivity|].
  destruct (join (lit " ") (concat _)).
  - rewrite !app_nil_r. reflexivity.
  - rewrite <- !app_assoc. reflexivity.
Qed.

Lemma plain_section_fragment_witness :
  _from_section (mkSection (lit "int   x" ++ ch ";" :: lit " ")
                   (lines ["* The  x."; " * Second line."])) 1 process_tags
  = Some ([nl; nl] ++ lit "## `int x`" ++ [nl; nl] ++ lit "The x. Second line.").
Proof.
  rewrite (plain_section_fragment (lit "int   x") (lit " ")
             (lines ["* The  x."; " * Second line."]) (ch ";") 1 process_tags);
    try reflexivity;
    vm_compute; intros H; repeat (destruct H as [H|H]; [discriminate|]);
    contradiction.
Defined.

(** ** Blanks *)

Lemma blank_cls (a : char) :
  cls_test (CSet false [IRange tab tab; IRange (ch " ") (ch " ")]) a = is_blank a.
Proof.
  unfold cls_test, item_test, is_blank. cbn [existsb xorb].
  rewrite orb_false_r. f_equal.
  - destruct (N.eqb_spec a tab) as [->|N]; [reflexivity|].
    destruct (N.leb_spec tab a), (N.leb_spec a tab); try reflexivity.
    exfalso. apply N. apply N.le_antisymm; assumption.
  - destruct (N.eqb_spec a (ch " ")) as [->|N]; [reflexivity|].
    destruct (N.leb_spec (ch " ") a), (N.leb_spec a (ch " ")); try reflexivity.
    exfalso. apply N. apply N.le_antisymm; assumption.
Qed.

(** The alternative [(?:\t| )] runs like the class of the two
    characters. *)
Lemma run_blank (st : state) (k : state -> option state) :
  run blank st k
  = run (Chr (CSet false [IRange tab tab; IRange (ch " ") (ch " ")])) st k.
Proof.
  unfold blank. rewrite run_Alt, !run_Chr.
  destruct (rest st) as [|a t]; [reflexivity|].
  rewrite blank_cls. unfold is_blank. cbn [cls_test].
  destruct (N.eqb_spec a tab) as [->|N1].
  - cbn [orb]. destruct (k _); reflexivity.
  - cbn [orb]. destruct (N.eqb a (ch " ")); reflexivity.
Qed.

Lemma rep_loop_blank (lo : nat) (hi : option nat) (g : bool)
    (k : state -> option state) (fuel : nat) :
  forall n st,
    rep_loop (run blank) lo hi g k fuel n st
    = rep_loop (run (Chr (CSet false [IRange tab tab; IRange (ch " ") (ch " ")])))
        lo hi g k fuel n st.
Proof.
  induction fuel as [|fuel IH]; intros n st; [reflexivity|].
  rewrite !rep_loop_S. cbv zeta. rewrite run_blank, !run_Chr.
  destruct (rest st) as [|a t]; [reflexivity|].
  destruct (cls_test _ a); [|reflexivity].
  rewrite IH. reflexivity.
Qed.

Lemma run_blanks (lo : nat) (hi : option nat) (g : bool) (st : state)
    (k : state -> option state) :
  run (Rep lo hi g blank) st k
  = run (Rep lo hi g (Chr (CSet false [IRange tab tab; IRange (ch " ") (ch " ")])))
      st k.
Proof. rewrite !run_Rep. apply rep_loop_blank. Qed.

Lemma blank_forall (w : str) :
  forallb is_blank w = true ->
  forallb (cls_test (CSet false [IRange tab tab; IRange (ch " ") (ch " ")])) w = true.
Proof.
  induction w as [|a w IH]; [reflexivity|]. cbn [forallb].
  intros H. apply andb_true_iff in H. destruct H as [Ha H].
  rewrite blank_cls, Ha, IH by exact H. reflexivity.
Qed.

Lemma blank_not (a : char) (c : ascii) :
  is_blank a = true -> is_blank (ch c) = false ->
  N.eqb (N_of_ascii c) a = false.
Proof.
  intros Ha Hc. destruct (N.eqb_spec (N_of_ascii c) a) as [E|]; [|reflexivity].
  unfold ch in Hc. rewrite E in Hc. congruence.
Qed.

Lemma skipn_blank_head (w : str) (j : nat) :
  forallb is_blank w = true -> j < List.length w ->
  exists a t, skipn j w = a :: t /\ is_blank a = true.
Proof.
  intros Hw Hj. destruct (skipn j w) as [|a t] eqn:Ej.
  { apply (f_equal (@List.length char)) in Ej. rewrite length_skipn in Ej.
    simpl in Ej. lia. }
  exists a, t. split; [reflexivity|].
  assert (In a w).
  { rewrite <- (firstn_skipn j w), Ej. apply in_or_app. right. left. reflexivity. }
  rewrite forallb_forall in Hw. auto.
Qed.

(** A lazy run of blanks goes on until the continuation accepts. *)
Lemma run_lazy_blanks (w r : str) (st : state) (k : state -> option state)
    (e : state) :
  rest st = w ++ r -> forallb is_blank w = true ->
  (forall j, j < List.length w -> k (steps j st) = None) ->
  k (steps (List.length w) st) = Some e ->
  run (star_lazy blank) st k = Some e.
Proof.
  intros Hr Hw Hnone Hk. unfold star_lazy. rewrite run_blanks.
  apply (run_lazy_cls _ w r st); [exact Hr|apply blank_forall; exact Hw| |exact Hk].
  exact Hnone.
Qed.

Lemma run_Look r st k :
  run (Look r) st k
  = match run r st (fun st' => Some st') with
    | Some st' => k (with_caps (caps st') st)
    | None => None
    end.
Proof. reflexivity. Qed.

Lemma with_caps_same (st : state) : with_caps (caps st) st = st.
Proof. destruct st. reflexivity. Qed.

Lemma run_Bol_ok (m : bool) (st : state) (k : state -> option state) :
  at_bol m st = true -> run (Bol m) st k = k st.
Proof. intros H. cbn [run]. rewrite H. reflexivity. Qed.

(** A match of the pattern that starts a tag: at the start of a line,
    blanks, a star and blanks before an [@]. *)
Lemma tag_start_match (b1 b2 t : str) (b : bool) (st : state) :
  at_bol true st = true ->
  rest st = b1 ++ ch "*" :: b2 ++ ch "@" :: t ->
  forallb is_blank b1 = true -> forallb is_blank b2 = true ->
  exists e,
    match_at re_tag_start b st = Some e
    /\ pos e = pos st + (List.length b1 + 1 + List.length b2).
Proof.
  intros Hbol Hr H1 H2.
  destruct (steps_app b1 (ch "*" :: b2 ++ ch "@" :: t) st Hr) as [R1 [P1 C1]].
  set (s1 := steps (List.length b1) st) in *.
  destruct (steps_app (lit "*") (b2 ++ ch "@" :: t) s1 R1) as [R2 [P2 C2]].
  change (List.length (lit "*")) with 1 in R2, P2, C2.
  set (s2 := steps 1 s1) in *.
  destruct (steps_app b2 (ch "@" :: t) s2 R2) as [R3 [P3 C3]].
  set (s3 := steps (List.length b2) s2) in *.
  exists s3. split.
  - unfold match_at, re_tag_start, cat. cbn [fold_right].
    rewrite run_Seq, run_Bol_ok by exact Hbol.
    rewrite run_Seq.
    apply (run_lazy_blanks b1 (ch "*" :: b2 ++ ch "@" :: t) st);
      [exact Hr|exact H1| | ].
    + intros j Hj. rewrite run_Seq. unfold lits. apply run_text_miss.
      destruct (steps_firstn b1 (ch "*" :: b2 ++ ch "@" :: t) st j Hr) as [-> _];
        [lia|].
      destruct (skipn_blank_head b1 j H1 Hj) as [a [u [-> Ha]]].
      unfold lit. cbn [list_ascii_of_string List.map app startswith].
      rewrite (blank_not a "*" Ha) by reflexivity. reflexivity.
    + fold s1. rewrite run_Seq. unfold lits.
      rewrite (run_text_hit (lit "*") (b2 ++ ch "@" :: t)) by exact R1.
      change (List.length (lit "*")) with 1. fold s2.
      rewrite run_Seq.
      apply (run_lazy_blanks b2 (ch "@" :: t) s2); [exact R2|exact H2| | ].
      * intros j Hj. rewrite run_Seq, run_Look. unfold lits.
        rewrite run_text_miss; [reflexivity|].
        destruct (steps_firstn b2 (ch "@" :: t) s2 j R2) as [-> _]; [lia|].
        destruct (skipn_blank_head b2 j H2 Hj) as [a [u [-> Ha]]].
        unfold lit. cbn [list_ascii_of_string List.map app startswith].
        rewrite (blank_not a "@" Ha) by reflexivity. reflexivity.
      * fold s3. rewrite run_Seq, run_Look. unfold lits.
        rewrite (run_text_hit (lit "@") t) by exact R3.
        rewrite steps_caps, with_caps_same, run_Eps.
        assert (Nat.eqb (pos s3) (pos st) = false) as ->.
        { apply Nat.eqb_neq. rewrite P3, P2, P1. lia. }
        rewrite andb_false_r. reflexivity.
  - rewrite P3, P2, P1. lia.
Qed.

(** ** What a match of the tag-start pattern looks like *)

Lemma Matches_Alt_inv r1 r2 st e :
  Matches (Alt r1 r2) st e -> Matches r1 st e \/ Matches r2 st e.
Proof. intros H. inversion H; subst; auto. Qed.

Lemma Matches_Bol_inv m st e :
  Matches (Bol m) st e -> e = st /\ at_bol m st = true.
Proof. intros H. inversion H; subst; auto. Qed.

Lemma iter_blank (n : nat) (st e : state) :
  iter (Matches blank) n st e ->
  exists w, rest st = w ++ rest e /\ forallb is_blank w = true.
Proof.
  induction 1 as [st|n st st1 st2 HM _ IH].
  - exists []. split; reflexivity.
  - destruct IH as [w [E Hw]].
    assert (exists a, rest st = a :: rest st1 /\ is_blank a = true) as [a [Ea Ha]].
    { unfold blank in HM. apply Matches_Alt_inv in HM.
      destruct HM as [HM|HM]; apply Matches_Chr_inv in HM;
        destruct HM as [a [t [Er [Hc ->]]]]; cbn [cls_test] in Hc;
        apply N.eqb_eq in Hc; subst a; eexists; (split; [exact Er|reflexivity]). }
    exists (a :: w). split; [rewrite Ea, E; reflexivity|].
    cbn [forallb]. rewrite Ha, Hw. reflexivity.
Qed.

(** A match starts at the start of a line and goes over blanks and one
    star up to an [@]. *)
Lemma tag_start_shape (st e : state) :
  Matches re_tag_start st e ->
  at_bol true st = true
  /\ exists w t, rest st = w ++ ch "@" :: t
                 /\ ~ In nl w /\ ~ In (ch "@") w.
Proof.
  unfold re_tag_start, cat, star_lazy. cbn [fold_right]. intros H.
  apply Matches_Seq_inv in H. destruct H as [s1 [M1 H]].
  apply Matches_Seq_inv in H. destruct H as [s2 [M2 H]].
  apply Matches_Seq_inv in H. destruct H as [s3 [M3 H]].
  apply Matches_Seq_inv in H. destruct H as [s4 [M4 H]].
  apply Matches_Seq_inv in H. destruct H as [s5 [M5 _]].
  apply Matches_Bol_inv in M1. destruct M1 as [-> Hbol].
  split; [exact Hbol|].
  apply Matches_Rep_inv in M2. destruct M2 as [n2 [M2 _]].
  apply iter_blank in M2. destruct M2 as [w1 [E1 H1]].
  unfold lits, cat in M3. cbn [fold_right List.map lit list_ascii_of_string] in M3.
  apply Matches_Seq_inv in M3. destruct M3 as [x [M3 Mx]].
  apply Matches_Eps_inv in Mx. subst x.
  apply Matches_Chr_inv in M3. destruct M3 as [a [t3 [E3 [Ha ->]]]].
  cbn [cls_test] in Ha. apply N.eqb_eq in Ha. subst a.
  apply Matches_Rep_inv in M4. destruct M4 as [n4 [M4 _]].
  apply iter_blank in M4. destruct M4 as [w2 [E4 H2]]. cbn [rest advance] in E4.
  apply Matches_Look_inv in M5. destruct M5 as [e' [M5 _]].
  unfold lits, cat in M5. cbn [fold_right List.map lit list_ascii_of_string] in M5.
  apply Matches_Seq_inv in M5. destruct M5 as [y [M5 _]].
  apply Matches_Chr_inv in M5. destruct M5 as [a [t5 [E5 [Ha _]]]].
  cbn [cls_test] in Ha. apply N.eqb_eq in Ha. subst a.
  exists (w1 ++ N_of_ascii "*" :: w2), t5. split; [|split].
  - rewrite E1, E3, E4, E5, <- app_assoc. reflexivity.
  - intros Hin. apply in_app_or in Hin.
    assert (B : forall w, forallb is_blank w = true -> ~ In nl w).
    { intros w Hw Hi. rewrite forallb_forall in Hw. apply Hw in Hi. discriminate. }
    destruct Hin as [Hin|[Hin|Hin]]; [apply (B w1 H1 Hin)|discriminate
                                    |apply (B w2 H2 Hin)].
  - intros Hin. apply in_app_or in Hin.
    assert (B : forall w, forallb is_blank w = true -> ~ In (ch "@") w).
    { intros w Hw Hi. rewrite forallb_forall in Hw. apply Hw in Hi. discriminate. }
    destruct Hin as [Hin|[Hin|Hin]]; [apply (B w1 H1 Hin)|discriminate
                                    |apply (B w2 H2 Hin)].
Qed.

Lemma tag_start_fail (st : state) :
  (at_bol true st = true ->
   forall w t, rest st = w ++ ch "@" :: t -> ~ In (ch "@") w -> In nl w) ->
  match_at re_tag_start false st = None.
Proof.
  intros H. unfold match_at.
  destruct (run re_tag_start st _) as [e|] eqn:E; [|reflexivity].
  apply run_sound in E. destruct E as [e' [M _]].
  apply tag_start_shape in M. destruct M as [Hbol [w [t [Er [Hn Ha]]]]].
  exfalso. apply Hn. apply (H Hbol w t Er Ha).
Qed.

(** ** A scan over a prefix, with the character before each position *)

Lemma prev_after_cons (c : char) (x : str) (pv : option char) :
  prev_after (c :: x) pv = prev_after x (Some c).
Proof.
  unfold prev_after. cbn [List.map]. revert c.
  induction x as [|a x IH]; intros c; [reflexivity|].
  cbn [List.map]. change (last (Some c :: Some a :: List.map Some x) pv)
    with (last (Some a :: List.map Some x) pv).
  rewrite IH. symmetry.
  change (last (Some a :: List.map Some x) (Some c))
    with (match List.map Some x with
          | [] => Some a
          | _ :: _ => last (List.map Some x) (Some c)
          end).
  destruct x as [|b x]; [reflexivity|].
  cbn [List.map]. clear. revert a b c.
  induction x as [|d x IH]; intros a b c; [reflexivity|].
  cbn [List.map] in *.
  change (last (Some b :: Some d :: List.map Some x) (Some a))
    with (last (Some d :: List.map Some x) (Some a)).
  change (last (Some b :: Some d :: List.map Some x) (Some c))
    with (last (Some d :: List.map Some x) (Some c)).
  apply IH.
Qed.

Lemma scan_prefix_prev (r : re) (d t : str) :
  forall pv,
    (forall x y p, d = x ++ y -> y <> [] ->
                   match_at r false (mkState p (prev_after x pv) (y ++ t) []) = None) ->
    forall p, scan r p pv (d ++ t) 0
              = scan r (p + List.length d) (prev_after d pv) t 0.
Proof.
  induction d as [|c d IH]; intros pv H p.
  - rewrite Nat.add_0_r. reflexivity.
  - cbn [app]. rewrite scan_0. unfold matches_here.
    pose proof (H [] (c :: d) p eq_refl ltac:(discriminate)) as H0.
    cbn [app] in H0. unfold prev_after in H0. cbn [List.map last] in H0.
    rewrite H0. cbn [fst snd app].
    rewrite (IH (Some c)).
    + rewrite prev_after_cons. cbn [List.length].
      replace (S p + List.length d) with (p + S (List.length d)) by lia.
      reflexivity.
    + intros x y q E Hy. rewrite <- (prev_after_cons c x pv).
      apply (H (c :: x) y q); [rewrite E; reflexivity|exact Hy].
Qed.

Lemma prev_after_nil (pv : option char) : prev_after [] pv = pv.
Proof. reflexivity. Qed.

Lemma prev_after_last (x : str) (pv : option char) (d : char) :
  x <> [] -> prev_after x pv = Some (last x d).
Proof.
  revert pv. induction x as [|c x IH]; intros pv H; [congruence|].
  rewrite prev_after_cons. destruct x as [|b x]; [reflexivity|].
  rewrite IH by discriminate. reflexivity.
Qed.

Lemma last_In (x : str) (d : char) : x <> [] -> In (last x d) x.
Proof.
  induction x as [|c x IH]; intros H; [congruence|].
  destruct x as [|b x]; [left; reflexivity|].
  right. apply IH. discriminate.
Qed.

Lemma last_suffix (x y : str) (d : char) : y <> [] -> last (x ++ y) d = last y d.
Proof.
  intros H. induction x as [|c x IH]; [reflexivity|].
  cbn [app]. destruct (x ++ y) as [|b z] eqn:E.
  - apply app_eq_nil in E. destruct E as [_ E]. congruence.
  - exact IH.
Qed.

Lemma first_at_prefix (a : char) (y s w t : str) :
  ~ In a y -> y ++ s = w ++ a :: t -> exists w', w = y ++ w'.
Proof.
  revert w. induction y as [|c y IH]; intros w Hy E.
  - exists w. reflexivity.
  - destruct w as [|b w].
    + cbn [app] in E. injection E as E1 _. exfalso. apply Hy. left. exact E1.
    + cbn [app] in E. injection E as E1 E2. subst b.
      destruct (IH w) as [w' ->]; [intros Hi; apply Hy; right; exact Hi|exact E2|].
      exists w'. reflexivity.
Qed.

Lemma scan_skip_prev (r : re) (a : str) :
  forall s p pv,
    scan r p pv (a ++ s) (List.length a)
    = scan r (p + List.length a) (prev_after a pv) s 0.
Proof.
  induction a as [|c a IH]; intros s p pv.
  - rewrite Nat.add_0_r. reflexivity.
  - cbn [app List.length scan fst snd]. rewrite IH, prev_after_cons.
    replace (S p + List.length a) with (p + S (List.length a)) by lia.
    reflexivity.
Qed.

(** No tag starts at the end of the text. *)
Lemma tag_start_fail_end (p : nat) (pv : option char) :
  match_at re_tag_start false (mkState p pv [] []) = None.
Proof.
  apply tag_start_fail. intros _ w t E. cbn [rest] in E.
  destruct w; discriminate.
Qed.

(** No tag starts inside a text without [@] that ends its line, or that
    is the last of the comment. *)
Lemma tag_start_fail_in (y s : str) (p : nat) (pv : option char) :
  y <> [] -> ~ In (ch "@") y ->
  (s = [] \/ last y nl = nl) ->
  match_at re_tag_start false (mkState p pv (y ++ s) []) = None.
Proof.
  intros Hy Ha Hl. apply tag_start_fail. intros _ w t E _. cbn [rest] in E.
  destruct (first_at_prefix _ _ _ _ _ Ha E) as [w' ->].
  destruct Hl as [->|Hl].
  - rewrite app_nil_r in E. exfalso. apply Ha. rewrite E.
    apply in_or_app. right. left. reflexivity.
  - apply in_or_app. left. rewrite <- Hl. apply last_In. exact Hy.
Qed.

Lemma blank_not_nl (w : str) : forallb is_blank w = true -> ~ In nl w.
Proof.
  intros Hw Hi. rewrite forallb_forall in Hw. apply Hw in Hi. discriminate.
Qed.

(** The pieces of a text [d] in which no tag starts, followed by tag
    lines. *)
Lemma split_tag_lines (ts : list tag_line) :
  forall (d : str) (p : nat) (pv : option char),
    tag_lines_ok ts ->
    (forall x y q, d = x ++ y -> y <> [] ->
       match_at re_tag_start false
         (mkState q (prev_after x pv) (y ++ lines_text ts) []) = None) ->
    (ts <> [] -> prev_after d pv = None \/ prev_after d pv = Some nl) ->
    split_pieces (scan re_tag_start p pv (d ++ lines_text ts) 0) p
                 (d ++ lines_text ts)
    = d :: List.map block ts.
Proof.
  induction ts as [|t ts IH]; intros d p pv Hok Hd Hpv.
  - unfold lines_text in *. cbn [List.map concat] in *.
    rewrite (scan_prefix_prev _ _ _ _ Hd), scan_0. unfold matches_here.
    rewrite tag_start_fail_end. cbn [fst snd app split_pieces List.map].
    rewrite app_nil_r. reflexivity.
  - destruct Hok as [H1 [H2 [[r [Eb Hr]] [Hlast Hok]]]].
    change (lines_text (t :: ts)) with (line_text t ++ lines_text ts) in *.
    rewrite (scan_prefix_prev _ _ _ _ Hd).
    remember (lead1 t ++ ch "*" :: lead2 t) as lead eqn:El.
    assert (Elt : line_text t ++ lines_text ts
                  = lead ++ block t ++ lines_text ts).
    { unfold line_text. rewrite El. rewrite <- !app_assoc. cbn [app].
      rewrite <- !app_assoc. reflexivity. }
    assert (Hlen : List.length lead
                   = List.length (lead1 t) + 1 + List.length (lead2 t)).
    { rewrite El, length_app. cbn [List.length]. lia. }
    assert (Hnl : ~ In nl lead).
    { rewrite El. intros Hi. apply in_app_or in Hi.
      destruct Hi as [Hi|[Hi|Hi]];
        [apply (blank_not_nl _ H1 Hi)|discriminate|apply (blank_not_nl _ H2 Hi)]. }
    set (st := mkState (p + List.length d) (prev_after d pv)
                       (line_text t ++ lines_text ts) []).
    destruct (tag_start_match (lead1 t) (lead2 t) (r ++ lines_text ts) false st)
      as [e [He Hpe]].
    + unfold at_bol. cbn [prev st].
      destruct Hpv as [-> | ->]; [discriminate|reflexivity|reflexivity].
    + cbn [rest st]. unfold line_text. rewrite Eb, <- !app_assoc. cbn [app].
      rewrite <- !app_assoc. reflexivity.
    + exact H1.
    + exact H2.
    + rewrite scan_0. fold st. unfold matches_here. rewrite He.
      assert (Nat.eqb (pos e) (pos st) = false) as ->.
      { apply Nat.eqb_neq. rewrite Hpe. lia. }
      cbn [fst snd app]. rewrite Elt.
      destruct lead as [|c a] eqn:Elead.
      { destruct (lead1 t); discriminate. }
      cbn [app].
      replace (pos e - pos st - 1) with (List.length a)
        by (rewrite Hpe; cbn [List.length] in Hlen; lia).
      rewrite scan_skip_prev. cbn [split_pieces mk_match m_start m_end].
      cbn [pos st]. f_equal.
      * replace (p + List.length d - p) with (List.length d) by lia.
        rewrite firstn_app, Nat.sub_diag, firstn_all. cbn [firstn].
        apply app_nil_r.
      * rewrite Hpe. cbn [pos st].
        replace (p + List.length d + (List.length (lead1 t) + 1 + List.length (lead2 t)) - p)
          with (List.length d + List.length (c :: a)) by lia.
        change (c :: a ++ block t ++ lines_text ts)
          with ((c :: a) ++ block t ++ lines_text ts).
        rewrite (app_assoc d), <- length_app, skipn_app, Nat.sub_diag, skipn_all.
        cbn [skipn app].
        replace (S (p + List.length d) + List.length a)
          with (p + List.length d + (List.length (lead1 t) + 1 + List.length (lead2 t)))
          by (cbn [List.length] in Hlen; lia).
        cbn [List.map]. 
        apply (IH (block t)).
        -- exact Hok.
        -- intros x y q Ex Hy.
           apply tag_start_fail. intros Hbol w t' Ew Hw. cbn [rest] in Ew.
           destruct x as [|x0 x].
           ++ exfalso. unfold at_bol in Hbol. cbn [prev] in Hbol.
              rewrite prev_after_nil in Hbol.
              rewrite <- (prev_after_cons c a pv) in Hbol.
              rewrite (prev_after_last (c :: a) _ nl) in Hbol by discriminate.
              cbn [andb] in Hbol. apply N.eqb_eq in Hbol.
              apply Hnl. change nl with 10%N. rewrite <- Hbol.
              apply last_In. discriminate.
           ++ rewrite Eb in Ex. cbn [app] in Ex. injection Ex as _ Ex.
              assert (Hay : ~ In (ch "@") y).
              { intros Hi. apply Hr. rewrite Ex. apply in_or_app. right. exact Hi. }
              destruct (first_at_prefix _ _ _ _ _ Hay Ew) as [w' ->].
              apply in_or_app. left.
              destruct Hlast as [-> | Hl].
              ** exfalso. unfold lines_text in Ew. cbn [List.map concat] in Ew.
                 rewrite app_nil_r in Ew. apply Hay. rewrite Ew.
                 apply in_or_app. right. left. reflexivity.
              ** assert (Ey : last y nl = nl).
                 { rewrite <- Hl at 2. rewrite Eb.
                   change (ch "@" :: r) with ([ch "@"] ++ r).
                   rewrite Ex, app_assoc. symmetry. apply last_suffix. exact Hy. }
                 rewrite <- Ey. apply last_In. exact Hy.
        -- intros Hts. right.
           destruct Hlast as [-> | Hl]; [congruence|].
           rewrite (prev_after_last (block t) _ nl), Hl; [reflexivity|].
           rewrite Eb. discriminate.
Qed.

Lemma split_tag_blocks (desc : str) (ts : list tag_line) :
  ~ In (ch "@") desc ->
  last desc nl = nl ->
  tag_lines_ok ts ->
  Re.split re_tag_start (desc ++ lines_text ts) 0 = desc :: List.map block ts.
Proof.
  intros Ha Hl Hok. unfold split, finditer.
  apply split_tag_lines.
  - exact Hok.
  - intros x y q E Hy.
    apply tag_start_fail_in; [exact Hy| |].
    + intros Hi. apply Ha. rewrite E. apply in_or_app. right. exact Hi.
    + right. rewrite <- Hl at 2. rewrite E. symmetry. apply last_suffix. exact Hy.
  - intros _. destruct desc as [|c desc]; [left; reflexivity|].
    right. rewrite (prev_after_last _ _ nl), Hl by discriminate. reflexivity.
Qed.

(** The text of a comment is cut at its tag lines: a description
    without [@] that ends its line, followed by lines of blanks, a
    star, blanks and a block that begins with its only [@], gives the
    description and the blocks, without the blanks and stars that lead
    the tag lines. *)
Theorem tag_blocks_split (desc : str) (ts : list tag_line) :
  ~ In (ch "@") desc ->
  last desc nl = nl ->
  tag_lines_ok ts ->
  Re.split re_tag_start (desc ++ lines_text ts) 0 = desc :: List.map block ts.
Proof. exact (split_tag_blocks desc ts). Qed.

Lemma tag_blocks_split_witness :
  Re.split re_tag_start
    (lines [""; " * Adds."; ""]
     ++ lines_text
          [mkTagLine (lit " ") (lit " ") (lines ["@param a first"; ""]);
           mkTagLine ([tab]) (lit "") (lines ["@return sum"; " "])]) 0
  = [lines [""; " * Adds."; ""]; lines ["@param a first"; ""];
     lines ["@return sum"; " "]].
Proof.
  assert (N : forall x (l : str),
             forallb (fun y => negb (N.eqb y x)) l = true -> ~ In x l).
  { intros x l Hf Hi. rewrite forallb_forall in Hf. apply Hf in Hi.
    rewrite N.eqb_refl in Hi. discriminate. }
  apply (tag_blocks_split (lines [""; " * Adds."; ""])
           [mkTagLine (lit " ") (lit " ") (lines ["@param a first"; ""]);
            mkTagLine ([tab]) (lit "") (lines ["@return sum"; " "])]).
  - apply N. vm_compute. reflexivity.
  - vm_compute. reflexivity.
  - cbn [tag_lines_ok lead1 lead2 block].
    split; [vm_compute; reflexivity|]. split; [vm_compute; reflexivity|].
    split; [eexists; split; [vm_compute; reflexivity|];
            apply N; vm_compute; reflexivity|].
    split; [right; vm_compute; reflexivity|].
    split; [vm_compute; reflexivity|]. split; [vm_compute; reflexivity|].
    split; [eexists; split; [vm_compute; reflexivity|];
            apply N; vm_compute; reflexivity|].
    split; [left; reflexivity|exact I].
Defined.

(** ** The tags of a comment *)

Lemma doc_tag_line (k r : str) :
  k <> [] -> forallb is_alpha k = true ->
  span (CSet false [IRange (ch "a") (ch "z"); IRange (ch "A") (ch "Z")]) r = 0 ->
  (forall a, In a (strip r) -> a <> cr /\ a <> nl) ->
  doc_tag (lit "@" ++ k ++ r) = Some (mkTag k (strip r)).
Proof.
  intros Hk Hal Hr Hl. unfold doc_tag, rmatch.
  destruct (tag_match k r Hk Hal Hr) as [e [-> Hc]].
  cbn [option_map]. unfold group, mk_match. cbn [m_caps]. rewrite Hc.
  cbn [lookup Nat.eqb].
  rewrite clean_single_line_alpha by exact Hal.
  assert ((match r with [] => [] | _ :: _ => strip r end) = strip r) as ->
    by (destruct r; reflexivity).
  rewrite sub_wrap_one_line; [reflexivity|exact Hl].
Qed.

Lemma firstn_span_all (c : cls) (s : str) :
  forallb (cls_test c) (firstn (span c s) s) = true.
Proof.
  induction s as [|a s IH]; [reflexivity|].
  cbn [span]. destruct (cls_test c a) eqn:E; [|reflexivity].
  cbn [firstn forallb]. rewrite E, IH. reflexivity.
Qed.

Lemma doc_tag_block (r : str) :
  one_line_block (ch "@" :: r) ->
  doc_tag (ch "@" :: r) = Some (tag_of_block (ch "@" :: r)).
Proof.
  intros [Hk Hl]. unfold tag_of_block, tag_key, tag_text in *. cbn [tl] in *.
  set (c := CSet false [IRange (ch "a") (ch "z"); IRange (ch "A") (ch "Z")]) in *.
  rewrite <- (firstn_skipn (span c r) r) at 1.
  apply (doc_tag_line (firstn (span c r) r) (skipn (span c r) r)).
  - exact Hk.
  - pose proof (firstn_span_all c r) as H.
    clear -H. induction (firstn (span c r) r) as [|a l IH]; [reflexivity|].
    cbn [forallb] in *. apply andb_true_iff in H. destruct H as [Ha H].
    unfold c in Ha. rewrite cls_alpha in Ha. rewrite Ha, IH by exact H. reflexivity.
  - apply span_skipn.
  - exact Hl.
Qed.

Lemma doc_tags_blocks (ts : list tag_line) :
  tag_lines_ok ts ->
  Forall (fun t => one_line_block (block t)) ts ->
  _get_doc_tags (List.map block ts) = List.map (fun t => tag_of_block (block t)) ts.
Proof.
  induction ts as [|t ts IH]; intros Hok Hall; [reflexivity|].
  destruct Hok as [_ [_ [[r [Eb _]] [_ Hok]]]].
  inversion Hall as [|? ? H1 H2]; subst.
  unfold _get_doc_tags in *. cbn [List.map flat_map].
  rewrite IH by assumption. rewrite Eb in *.
  rewrite (doc_tag_block r H1). reflexivity.
Qed.

Lemma section_fragment_lines (decl ws desc : str) (c : char)
    (ts : list tag_line) (h : Z) :
  is_terminator c = true -> forallb isspace ws = true ->
  ~ In (ch "@") desc -> ~ In (ch "/") desc -> ~ In (ch "<") desc ->
  last desc nl = nl ->
  tag_lines_ok ts ->
  Forall (fun t => one_line_block (block t)) ts ->
  _from_section (mkSection (decl ++ c :: ws) (desc ++ lines_text ts)) h
    process_tags
  = Some (match join (lit " ") (words decl) with
          | [] => []
          | f =>
              [nl; nl] ++ times (lit "#") (h + 1) ++ lit " `" ++ f ++ lit "`"
              ++ match join (lit " ")
                         (concat (List.map (fun l => words (unstar l))
                                    (split_on nl desc))) with
                 | [] => []
                 | p => [nl; nl] ++ p
                 end
              ++ match ts with
                 | [] => []
                 | _ :: _ =>
                     [nl]
                     ++ concat
                          (List.map (fun g => _from_tag_group (fst g) (snd g))
                             (grouped (contributions
                                (List.map (fun t => tag_of_block (block t)) ts))))
                 end
          end).
Proof.
  intros Hc Hws Ha Hs Hl Hn Hok Hall.
  unfold _from_section. cbn [line doc].
  rewrite (split_tag_blocks desc ts Ha Hn Hok). cbn [hd tl].
  rewrite (field_declaration_terminated decl c ws Hc Hws).
  rewrite (description_join desc Hs Hl).
  rewrite (doc_tags_blocks ts Hok Hall).
  destruct (join (lit " ") (words decl)) as [|f0 f]; [reflexivity|].
  destruct ts as [|t ts'].
  - cbn [List.map]. destruct (join (lit " ") (concat _)).
    + rewrite !app_nil_r. reflexivity.
    + rewrite app_nil_r, <- !app_assoc. reflexivity.
  - cbn [List.map].
    rewrite <- (map_cons (fun t => tag_of_block (block t))).
    rewrite add_tags_grouped. unfold render_groups.
    destruct (join (lit " ") (concat _)).
    + rewrite <- !app_assoc. reflexivity.
    + rewrite <- !app_assoc. reflexivity.
Qed.

(** A declaration that ends with a terminator, documented by a comment
    with a description and tag lines, each tag on one line: the
    fragment is the heading, the paragraph of the description when it
    has words, and, when there are tag lines, the groups of their
    tags, whose keys are the letters after each [@] and whose values
    are the trimmed rest of the line. *)
Theorem tagged_section_fragment (decl ws desc : str) (c : char)
    (ts : list tag_line) (h : Z) :
  is_terminator c = true -> forallb isspace ws = true ->
  ~ In (ch "@") desc -> ~ In (ch "/") desc -> ~ In (ch "<") desc ->
  last desc nl = nl ->
  tag_lines_ok ts ->
  Forall (fun t => one_line_block (block t)) ts ->
  _from_section (mkSection (decl ++ c :: ws) (desc ++ lines_text ts)) h
    process_tags
  = Some (match join (lit " ") (words decl) with
          | [] => []
          | f =>
              [nl; nl] ++ times (lit "#") (h + 1) ++ lit " `" ++ f ++ lit "`"
              ++ match join (lit " ")
                         (concat (List.map (fun l => words (unstar l))
                                    (split_on nl desc))) with
                 | [] => []
                 | p => [nl; nl] ++ p
                 end
              ++ match ts with
                 | [] => []
                 | _ :: _ =>
                     [nl]
                     ++ concat
                          (List.map (fun g => _from_tag_group (fst g) (snd g))
                             (grouped (contributions
                                (List.map (fun t => tag_of_block (block t)) ts))))
                 end
          end).
Proof. exact (section_fragment_lines decl ws desc c ts h). Qed.

Lemma tagged_section_fragment_witness :
  _from_section
    (mkSection (lit "int add(int a, int b)" ++ ch "{" :: [])
       (lines [""; " * Adds  two numbers."; ""]
        ++ lines_text
             [mkTagLine (lit " ") (lit " ") (lines ["@param a the first"; ""]);
              mkTagLine (lit " ") (lit " ") (lines ["@return the sum"; " "])]))
    1 process_tags
  = Some ([nl; nl] ++ lit "## `int add(int a, int b)`"
          ++ [nl; nl] ++ lit "Adds two numbers."
          ++ [nl; nl] ++ lit " * **Parameters:** `a` " ++ [emdash]
          ++ lit " the first"
          ++ [nl] ++ lit " * **Returns:** the sum").
Proof.
  rewrite tagged_section_fragment.
  - vm_compute. reflexivity.
  - reflexivity.
  - reflexivity.
  - vm_compute. intros H. repeat (destruct H as [H|H]; [discriminate|]). contradiction.
  - vm_compute. intros H. repeat (destruct H as [H|H]; [discriminate|]). contradiction.
  - vm_compute. intros H. repeat (destruct H as [H|H]; [discriminate|]). contradiction.
  - reflexivity.
  - cbn [tag_lines_ok]. repeat split; try reflexivity.
    + eexists. split; [reflexivity|]. vm_compute. intros H.
      repeat (destruct H as [H|H]; [discriminate|]). contradiction.
    + right. reflexivity.
    + eexists. split; [reflexivity|]. vm_compute. intros H.
      repeat (destruct H as [H|H]; [discriminate|]). contradiction.
    + left. reflexivity.
  - repeat constructor; try (vm_compute; discriminate);
      vm_compute in H; repeat (destruct H as [H|H]; [subst a; discriminate|]);
      contradiction.
Defined.

(** ** Documented declarations, one after the other *)

Lemma scan_skip_any (r : re) (a : str) :
  forall s p pv, exists pv',
    scan r p pv (a ++ s) (List.length a) = scan r (p + List.length a) pv' s 0.
Proof.
  intros s p pv. exists (prev_after a pv). apply scan_skip_prev.
Qed.

Lemma primary_documented (d : documented) (m : mtch) :
  documented_ok d ->
  m_caps m = [(2, declaration d ++ [terminator d]); (1, comment d)] ->
  primary_section m = Some (documented_section d).
Proof.
  intros [_ [Hne [_ [_ [Hsd [_ [Ht Hi]]]]]]] C.
  unfold primary_section, documented_section, group_or_empty, group.
  rewrite C. cbn [lookup Nat.eqb].
  destruct (comment d) as [|b0 body]; [congruence|].
  assert (is_empty (declaration d ++ [terminator d]) = false) as ->
    by (destruct (declaration d); reflexivity).
  cbn [is_empty orb]. rewrite strip_declaration by assumption. rewrite Hi.
  destruct (startswith (strip (b0 :: body)) (lit "*")); reflexivity.
Qed.

Lemma scan_documented (post : str) (ds : list documented) :
  Forall documented_ok ds ->
  has_sub (lit "/**") post = false ->
  forall p pv,
    collect primary_section
      (scan re_section p pv (concat (List.map documented_text ds) ++ post) 0)
    = List.map documented_section ds.
Proof.
  intros Hall Hpost. induction Hall as [|d ds Hd Hall IH]; intros p pv.
  - cbn [List.map concat app].
    rewrite (scan_nil re_section (fun s => has_sub (lit "/**") s = false)); auto.
    + intros a s. apply has_sub_tail.
    + intros st Hs. unfold match_at, re_section. unfold cat at 1. cbn [fold_right].
      apply opener_needed. apply has_sub_head. exact Hs.
  - pose proof Hd as [Hpre [Hne [Hb [Hws [Hsd [Hdc [Ht Hi]]]]]]].
    set (tail := concat (List.map documented_text ds) ++ post) in *.
    set (a := lit "**" ++ comment d ++ lit "*/" ++ gap d
              ++ declaration d ++ [terminator d]).
    assert (E : concat (List.map documented_text (d :: ds)) ++ post
                = before d ++ (ch "/" :: a) ++ tail).
    { cbn [List.map concat]. unfold documented_text at 1. unfold a, tail.
      rewrite <- !app_assoc. f_equal.
      change (lit "/**") with (ch "/" :: lit "**"). cbn [app]. f_equal.
      rewrite <- !app_assoc. reflexivity. }
    rewrite E.
    destruct (scan_prefix re_section (before d) ((ch "/" :: a) ++ tail)) with
      (p := p) (pv := pv) as [pv1 E1].
    { intros x y q pv' Ex Hy. unfold match_at, re_section. unfold cat at 1.
      cbn [fold_right]. apply opener_needed. cbn [rest].
      change ((ch "/" :: a) ++ tail) with (lit "/**" ++ (skipn 2 a ++ tail)).
      apply opener_absent; [exact Hy|].
      apply (has_sub_suffix _ x). rewrite <- Ex. exact Hpre. }
    rewrite E1. rewrite scan_0. unfold matches_here.
    set (st := mkState (p + List.length (before d)) pv1 ((ch "/" :: a) ++ tail) []).
    destruct (section_match (comment d) (gap d) (declaration d) tail
                (terminator d) false st) as [e [He [C P]]]; auto.
    { cbn [rest st]. unfold a.
      change (lit "/**") with (ch "/" :: lit "**"). cbn [app]. f_equal.
      rewrite <- !app_assoc. reflexivity. }
    rewrite He.
    assert (Nat.eqb (pos e) (pos st) = false) as ->.
    { apply Nat.eqb_neq. rewrite P. lia. }
    cbn [fst snd app].
    replace (pos e - pos st - 1) with (List.length a).
    2:{ rewrite P. unfold a. rewrite !length_app. simpl. lia. }
    destruct (scan_skip_any re_section a tail (S (p + List.length (before d)))
                (Some (ch "/"))) as [pv2 E2].
    rewrite E2. cbn [collect flat_map].
    rewrite (primary_documented d (mk_match st e) Hd) by exact C.
    cbn [app List.map]. f_equal. apply IH.
Qed.

Lemma sections_of_documented (post : str) (ds : list documented) :
  Forall documented_ok ds ->
  has_sub (lit "/**") post = false ->
  _get_sections (concat (List.map documented_text ds) ++ post)
  = List.map documented_section ds.
Proof.
  intros Hall Hpost. unfold _get_sections, finditer.
  rewrite (scan_documented post ds Hall Hpost).
  destruct ds as [|d ds]; [|reflexivity].
  cbn [List.map concat app].
  fold (finditer re_comment post).
  rewrite finditer_comment_nil by exact Hpost. reflexivity.
Qed.

(** Declarations documented one after the other, each ending with [{]
    or [;] and none an import, with no other comment opening between
    them or after the last: the extractor returns one section for each,
    in the order of the source. *)
Theorem documented_declarations_in_order (post : str) (ds : list documented) :
  Forall documented_ok ds ->
  has_sub (lit "/**") post = false ->
  _get_sections (concat (List.map documented_text ds) ++ post)
  = List.map documented_section ds.
Proof. exact (sections_of_documented post ds). Qed.

Lemma documented_declarations_in_order_witness :
  _get_sections
    (lit "class A { " ++ lit "/**" ++ lit " The x. " ++ lit "*/" ++ [nl]
     ++ lit "int x" ++ lit ";"
     ++ [nl] ++ lit "/**" ++ lit "* Gets x. " ++ lit "*/" ++ lit " "
     ++ lit "int getX()" ++ lit "{"
     ++ lit " return x; } }")
  = [mkSection (lit "int x;") (lit "* The x.");
     mkSection (lit "int getX(){") (lit "* Gets x. ")].
Proof.
  apply (documented_declarations_in_order (lit " return x; } }")
           [mkDocumented (lit "class A { ") (lit " The x. ") [nl] (lit "int x")
              (ch ";");
            mkDocumented [nl] (lit "* Gets x. ") (lit " ") (lit "int getX()")
              (ch "{")]).
  - repeat constructor; try reflexivity; discriminate.
  - reflexivity.
Defined.

(** ** From a source to its document *)

(** A source with one documented declaration, whose comment begins with
    a star after white space and holds a description and tag lines,
    each tag on one line: the document is the heading, the heading of
    the declaration, the paragraph of the description when it has
    words, the groups of the tags when there are tag lines, and a final
    newline. *)
Theorem javadoc_of_documented_declaration (d : documented) (desc post : str)
    (ts : list tag_line) (h : Z) :
  documented_ok d ->
  has_sub (lit "/**") post = false ->
  comment d = desc ++ lines_text ts ->
  startswith (strip (comment d)) (lit "*") = true ->
  ~ In (ch "@") desc -> ~ In (ch "/") desc -> ~ In (ch "<") desc ->
  last desc nl = nl ->
  tag_lines_ok ts ->
  Forall (fun t => one_line_block (block t)) ts ->
  from_javadoc (documented_text d ++ post) h
  = Some (times (lit "#") h ++ lit " Documentation"
          ++ match join (lit " ") (words (declaration d)) with
             | [] => []
             | f =>
                 [nl; nl] ++ times (lit "#") (h + 1) ++ lit " `" ++ f ++ lit "`"
                 ++ match join (lit " ")
                            (concat (List.map (fun l => words (unstar l))
                                       (split_on nl desc))) with
                    | [] => []
                    | p => [nl; nl] ++ p
                    end
                 ++ match ts with
                    | [] => []
                    | _ :: _ =>
                        [nl]
                        ++ concat
                             (List.map (fun g => _from_tag_group (fst g) (snd g))
                                (grouped (contributions
                                   (List.map (fun t => tag_of_block (block t))
                                      ts))))
                    end
             end
          ++ [nl]).
Proof.
  intros Hd Hpost Hc Hstar Ha Hs Hl Hn Hok Hall.
  unfold from_javadoc, _from_doc.
  replace (documented_text d ++ post)
    with (concat (List.map documented_text [d]) ++ post)
    by (cbn [List.map concat]; rewrite app_nil_r; reflexivity).
  rewrite (sections_of_documented post [d]) by (auto using Forall_cons).
  cbn [List.map from_sections]. unfold documented_section. rewrite Hstar, Hc.
  pose proof Hd as [_ [_ [_ [_ [_ [_ [Ht _]]]]]]].
  rewrite (section_fragment_lines (declaration d) [] desc (terminator d) ts h)
    by (assumption || reflexivity).
  cbn [option_map concat]. rewrite app_nil_r. reflexivity.
Qed.

Lemma javadoc_of_documented_declaration_witness :
  from_javadoc
    (documented_text
       (mkDocumented (lit "class A {")
          (lines [""; " * Adds  two numbers."; ""]
           ++ lines_text
                [mkTagLine (lit " ") (lit " ") (lines ["@param a the first"; ""]);
                 mkTagLine (lit " ") (lit " ") (lines ["@return the sum"; " "])])
          [nl] (lit "int add(int a, int b) ") (ch "{"))
     ++ lit " return a + b; } }") 1
  = Some (lit "# Documentation"
          ++ [nl; nl] ++ lit "## `int add(int a, int b)`"
          ++ [nl; nl] ++ lit "Adds two numbers."
          ++ [nl; nl] ++ lit " * **Parameters:** `a` " ++ [emdash]
          ++ lit " the first"
          ++ [nl] ++ lit " * **Returns:** the sum" ++ [nl]).
Proof.
  assert (N : forall x (l : str),
             forallb (fun y => negb (N.eqb y x)) l = true -> ~ In x l).
  { intros x l Hf Hi. rewrite forallb_forall in Hf. apply Hf in Hi.
    rewrite N.eqb_refl in Hi. discriminate. }
  rewrite (javadoc_of_documented_declaration
             (mkDocumented (lit "class A {")
                (lines [""; " * Adds  two numbers."; ""]
                 ++ lines_text
                      [mkTagLine (lit " ") (lit " ")
                         (lines ["@param a the first"; ""]);
                       mkTagLine (lit " ") (lit " ")
                         (lines ["@return the sum"; " "])])
                [nl] (lit "int add(int a, int b) ") (ch "{"))
             (lines [""; " * Adds  two numbers."; ""])
             (lit " return a + b; } }")
             [mkTagLine (lit " ") (lit " ") (lines ["@param a the first"; ""]);
              mkTagLine (lit " ") (lit " ") (lines ["@return the sum"; " "])]
             1).
  - vm_compute. reflexivity.
  - unfold documented_ok. cbn [before comment gap declaration terminator].
    repeat split; try (vm_compute; reflexivity). vm_compute. discriminate.
  - vm_compute. reflexivity.
  - reflexivity.
  - vm_compute. reflexivity.
  - apply N. vm_compute. reflexivity.
  - apply N. vm_compute. reflexivity.
  - apply N. vm_compute. reflexivity.
  - vm_compute. reflexivity.
  - cbn [tag_lines_ok lead1 lead2 block].
    split; [vm_compute; reflexivity|]. split; [vm_compute; reflexivity|].
    split; [eexists; split; [vm_compute; reflexivity|];
            apply N; vm_compute; reflexivity|].
    split; [right; vm_compute; reflexivity|].
    split; [vm_compute; reflexivity|]. split; [vm_compute; reflexivity|].
    split; [eexists; split; [vm_compute; reflexivity|];
            apply N; vm_compute; reflexivity|].
    split; [left; reflexivity|exact I].
  - assert (L : forall l : str,
               forallb (fun y => negb (N.eqb y cr) && negb (N.eqb y nl)) l = true ->
               forall x, In x l -> x <> cr /\ x <> nl).
    { intros l Hf x Hx. rewrite forallb_forall in Hf. apply Hf in Hx.
      apply andb_true_iff in Hx. destruct Hx as [H1 H2].
      split; intros ->; [rewrite N.eqb_refl in H1|rewrite N.eqb_refl in H2];
        discriminate. }
    constructor; [|constructor; [|constructor]]; cbn [block];
      (split; [vm_compute; discriminate|apply L; vm_compute; reflexivity]).
Defined.

(** ** Continuation lines in the value of a tag *)

Lemma break_cls (a : char) :
  cls_test (CSet false [IRange cr cr; IRange nl nl]) a = is_break a.
Proof.
  unfold cls_test, item_test, is_break. cbn [existsb xorb].
  rewrite orb_false_r. f_equal.
  - destruct (N.eqb_spec a cr) as [->|N]; [reflexivity|].
    destruct (N.leb_spec cr a), (N.leb_spec a cr); try reflexivity.
    exfalso. apply N. apply N.le_antisymm; assumption.
  - destruct (N.eqb_spec a nl) as [->|N]; [reflexivity|].
    destruct (N.leb_spec nl a), (N.leb_spec a nl); try reflexivity.
    exfalso. apply N. apply N.le_antisymm; assumption.
Qed.

(** The pattern matches only where a line breaks. *)
Lemma wrap_fail_head (st : state) :
  match rest st with
  | [] => True
  | a :: _ => is_break a = false
  end ->
  match_at re_wrap false st = None.
Proof.
  intros H. unfold match_at, re_wrap, cat. cbn [fold_right].
  rewrite run_Seq, run_Rep. cbn [Nat.add]. rewrite rep_loop_S, run_Chr. cbv zeta.
  cbn [below Nat.ltb Nat.leb].
  destruct (rest st) as [|a t]; [reflexivity|].
  rewrite break_cls, H. reflexivity.
Qed.

(** After the line break: the blanks, the star and all the blanks that
    follow it. *)
Lemma wrap_tail (b1 b2 t : str) (s1 e : state) (k : state -> option state) :
  rest s1 = b1 ++ ch "*" :: b2 ++ t ->
  forallb is_blank b1 = true -> forallb is_blank b2 = true ->
  span (CSet false [IRange tab tab; IRange (ch " ") (ch " ")]) t = 0 ->
  k (steps (List.length b2) (steps 1 (steps (List.length b1) s1))) = Some e ->
  run (cat [star_lazy blank; lits "*"; star blank]) s1 k = Some e.
Proof.
  intros Hr H1 H2 Ht Hk.
  destruct (steps_app b1 (ch "*" :: b2 ++ t) s1 Hr) as [R1 [P1 C1]].
  set (s2 := steps (List.length b1) s1) in *.
  destruct (steps_app (lit "*") (b2 ++ t) s2 R1) as [R2 [P2 C2]].
  change (List.length (lit "*")) with 1 in R2, P2, C2.
  set (s3 := steps 1 s2) in *.
  unfold cat. cbn [fold_right]. rewrite run_Seq.
  apply (run_lazy_blanks b1 (ch "*" :: b2 ++ t) s1); [exact Hr|exact H1| | ].
  - intros j Hj. rewrite run_Seq. unfold lits. apply run_text_miss.
    destruct (steps_firstn b1 (ch "*" :: b2 ++ t) s1 j Hr) as [-> _]; [lia|].
    destruct (skipn_blank_head b1 j H1 Hj) as [a [u [-> Ha]]].
    unfold lit. cbn [list_ascii_of_string List.map app startswith].
    rewrite (blank_not a "*" Ha) by reflexivity. reflexivity.
  - fold s2. rewrite run_Seq. unfold lits.
    rewrite (run_text_hit (lit "*") (b2 ++ t)) by exact R1.
    change (List.length (lit "*")) with 1. fold s3.
    rewrite run_Seq. unfold star. rewrite run_blanks.
    apply (run_greedy_cls _ 0 b2 t s3);
      [exact R2|apply blank_forall; exact H2|exact Ht|lia|].
    rewrite run_Eps. exact Hk.
Qed.

Lemma wrap_match (br b1 b2 t : str) (st : state) :
  rest st = br ++ b1 ++ ch "*" :: b2 ++ t ->
  List.length br = 1 \/ List.length br = 2 ->
  forallb is_break br = true ->
  forallb is_blank b1 = true -> forallb is_blank b2 = true ->
  span (CSet false [IRange tab tab; IRange (ch " ") (ch " ")]) t = 0 ->
  exists e,
    match_at re_wrap false st = Some e
    /\ pos e = pos st + (List.length br + List.length b1 + 1 + List.length b2).
Proof.
  intros Hr Hlen Hbr H1 H2 Ht.
  assert (Hnb : forall u, match b1 ++ ch "*" :: u with
                          | [] => True
                          | a :: _ => is_break a = false
                          end).
  { intros u. destruct b1 as [|a b1]; [reflexivity|].
    cbn [app forallb] in *. apply andb_true_iff in H1. destruct H1 as [Ha _].
    unfold is_blank in Ha. unfold is_break.
    apply orb_true_iff in Ha. destruct Ha as [Ha|Ha]; apply N.eqb_eq in Ha;
      subst a; reflexivity. }
  destruct (steps_app br (b1 ++ ch "*" :: b2 ++ t) st Hr) as [R1 [P1 C1]].
  set (s1 := steps (List.length br) st) in *.
  set (e := steps (List.length b2) (steps 1 (steps (List.length b1) s1))).
  assert (Pe : pos e = pos st + (List.length br + List.length b1 + 1 + List.length b2)).
  { unfold e. rewrite !steps_pos.
    - rewrite P1. lia.
    - rewrite R1, length_app. lia.
    - rewrite steps_rest, R1, skipn_app, Nat.sub_diag, skipn_all. cbn [skipn app].
      simpl. lia.
    - rewrite !steps_rest, R1, skipn_app, Nat.sub_diag, skipn_all.
      cbn [skipn app]. rewrite length_app. lia. }
  exists e. split; [|exact Pe].
  unfold match_at. set (k0 := fun e0 : state => _).
  assert (K0 : k0 e = Some e).
  { unfold k0. reflexivity. }
  unfold re_wrap. unfold cat at 1. cbn [fold_right]. rewrite run_Seq.
  set (K := fun st1 : state => run _ st1 k0).
  assert (HK : K s1 = Some e).
  { unfold K.
    change (Seq (star_lazy blank) (Seq (lits "*") (Seq (star blank) Eps)))
      with (cat [star_lazy blank; lits "*"; star blank]).
    apply (wrap_tail b1 b2 t s1 e k0 R1 H1 H2 Ht K0). }
  rewrite run_Rep. cbn [Nat.add].
  destruct br as [|a br]; [simpl in Hlen; lia|].
  cbn [forallb] in Hbr. apply andb_true_iff in Hbr. destruct Hbr as [Ha Hbr].
  cbn [app] in Hr.
  rewrite rep_loop_S, run_Chr, Hr. cbv zeta. cbn [below Nat.ltb Nat.leb orb].
  rewrite break_cls, Ha.
  destruct br as [|b br].
  - cbn [app] in *. cbn [List.length].
    assert (S1 : s1 = advance st a (b1 ++ ch "*" :: b2 ++ t)).
    { unfold s1. cbn [List.length steps]. unfold step. rewrite Hr. reflexivity. }
    rewrite S1 in HK.
    rewrite rep_loop_S, run_Chr. cbv zeta. cbn [below Nat.ltb Nat.leb rest advance].
    specialize (Hnb (b2 ++ t)).
    destruct (b1 ++ ch "*" :: b2 ++ t) as [|c u] eqn:Eu.
    + destruct b1; discriminate.
    + rewrite break_cls, Hnb. exact HK.
  - destruct br as [|c br]; [|simpl in Hlen; lia].
    cbn [forallb] in Hbr. apply andb_true_iff in Hbr. destruct Hbr as [Hb _].
    cbn [app] in *. cbn [List.length].
    assert (S1 : s1 = advance (advance st a (b :: b1 ++ ch "*" :: b2 ++ t)) b
                        (b1 ++ ch "*" :: b2 ++ t)).
    { unfold s1. cbn [List.length steps]. unfold step at 2. rewrite Hr.
      unfold step. cbn [rest advance]. reflexivity. }
    rewrite S1 in HK.
    rewrite rep_loop_S, run_Chr. cbv zeta. cbn [below Nat.ltb Nat.leb rest advance].
    rewrite break_cls, Hb.
    set (s2 := advance (advance st a (b :: b1 ++ ch "*" :: b2 ++ t)) b
                 (b1 ++ ch "*" :: b2 ++ t)) in *.
    assert (match pos s2 with
            | 0 => false
            | S m' => Nat.leb (pos (advance st a (b :: b1 ++ ch "*" :: b2 ++ t))) m'
            end = true) as ->.
    { unfold s2. cbn [pos advance]. apply Nat.leb_refl. }
    cbn [orb]. rewrite rep_loop_S. cbv zeta.
    cbn [below Nat.ltb Nat.leb].
    rewrite HK. reflexivity.
Qed.

Lemma continuation_ok_parts (c : continuation) :
  continuation_ok c = true ->
  (List.length (cbreak c) = 1 \/ List.length (cbreak c) = 2)
  /\ forallb is_break (cbreak c) = true
  /\ forallb is_blank (cindent c) = true
  /\ forallb is_blank (cmargin c) = true
  /\ forallb (fun a => negb (is_break a)) (ctext c) = true
  /\ match ctext c with
     | [] => True
     | a :: _ => is_blank a = false
     end.
Proof.
  unfold continuation_ok. intros H.
  repeat (apply andb_true_iff in H; destruct H as [H ?]).
  repeat split; try assumption.
  - apply orb_true_iff in H. destruct H as [H|H]; apply Nat.eqb_eq in H; auto.
  - destruct (ctext c); [exact I|]. apply negb_true_iff. assumption.
Qed.

Lemma break_not_blank (a : char) : is_break a = true -> is_blank a = false.
Proof.
  unfold is_break, is_blank. intros H. apply orb_true_iff in H.
  destruct H as [H|H]; apply N.eqb_eq in H; subst a; reflexivity.
Qed.

Lemma continuations_head (cs : list continuation) :
  forallb continuation_ok cs = true ->
  span (CSet false [IRange tab tab; IRange (ch " ") (ch " ")])
    (concat (List.map continuation_text cs)) = 0.
Proof.
  destruct cs as [|c cs]; [reflexivity|]. cbn [forallb List.map concat].
  intros H. apply andb_true_iff in H. destruct H as [H _].
  apply continuation_ok_parts in H. destruct H as [Hl [Hb _]].
  unfold continuation_text. destruct (cbreak c) as [|a br]; [simpl in Hl; lia|].
  cbn [forallb] in Hb. apply andb_true_iff in Hb. destruct Hb as [Ha _].
  cbn [app span]. rewrite blank_cls, (break_not_blank a Ha). reflexivity.
Qed.

Lemma sub_wrap_lines (cs : list continuation) :
  forall (d : str) (p : nat) (pv : option char),
    forallb (fun a => negb (is_break a)) d = true ->
    forallb continuation_ok cs = true ->
    sub_pieces [TLit ([nl; nl] ++ lit "     ")]
      (scan re_wrap p pv (d ++ concat (List.map continuation_text cs)) 0) p
      (d ++ concat (List.map continuation_text cs))
    = d ++ concat (List.map (fun c => [nl; nl] ++ lit "     " ++ ctext c) cs).
Proof.
  assert (Hfail : forall (d t : str) x y q pv,
             forallb (fun a => negb (is_break a)) d = true ->
             d = x ++ y -> y <> [] ->
             match_at re_wrap false (mkState q pv (y ++ t) []) = None).
  { intros d t x y q pv Hd E Hy. apply wrap_fail_head. cbn [rest].
    destruct y as [|a y]; [congruence|]. cbn [app].
    rewrite forallb_forall in Hd. apply negb_true_iff. apply Hd.
    rewrite E. apply in_or_app. right. left. reflexivity. }
  induction cs as [|c cs IH]; intros d p pv Hd Hcs.
  - cbn [List.map concat].
    destruct (scan_prefix re_wrap d [] (fun x y q pv' => Hfail d [] x y q pv' Hd)
                p pv) as [pv1 E].
    rewrite E, scan_0. unfold matches_here.
    rewrite wrap_fail_head by exact I. reflexivity.
  - cbn [forallb] in Hcs. apply andb_true_iff in Hcs. destruct Hcs as [Hc Hcs].
    destruct (continuation_ok_parts c Hc) as [Hl [Hb [H1 [H2 [Ht Hh]]]]].
    cbn [List.map concat].
    set (tail := concat (List.map continuation_text cs)) in *.
    set (tail' := concat (List.map (fun c => [nl; nl] ++ lit "     " ++ ctext c) cs))
      in *.
    set (w := cbreak c ++ cindent c ++ ch "*" :: cmargin c).
    assert (Ew : continuation_text c ++ tail = w ++ ctext c ++ tail).
    { unfold continuation_text, w. rewrite <- !app_assoc. cbn [app].
      rewrite <- !app_assoc. reflexivity. }
    assert (Lw : List.length w
                 = List.length (cbreak c) + List.length (cindent c) + 1
                   + List.length (cmargin c)).
    { unfold w. rewrite !length_app. cbn [List.length]. lia. }
    rewrite Ew.
    destruct (scan_prefix re_wrap d (w ++ ctext c ++ tail)
                (fun x y q pv' => Hfail d _ x y q pv' Hd) p pv) as [pv1 E].
    rewrite E, scan_0. unfold matches_here.
    set (st := mkState (p + List.length d) pv1 (w ++ ctext c ++ tail) []).
    destruct (wrap_match (cbreak c) (cindent c) (cmargin c) (ctext c ++ tail) st)
      as [e [He Pe]]; auto.
    { cbn [rest st]. unfold w. rewrite <- !app_assoc. cbn [app].
      rewrite <- ?app_assoc. reflexivity. }
    { destruct (ctext c) as [|a u].
      - apply continuations_head. exact Hcs.
      - cbn [app span]. rewrite blank_cls, Hh. reflexivity. }
    rewrite He.
    assert (Nat.eqb (pos e) (pos st) = false) as ->.
    { apply Nat.eqb_neq. rewrite Pe. lia. }
    cbn [fst snd app].
    destruct w as [|a0 w'] eqn:W.
    { simpl in Lw. lia. }
    cbn [app].
    replace (pos e - pos st - 1) with (List.length w')
      by (rewrite Pe; cbn [List.length] in Lw; lia).
    rewrite scan_skip_prev. cbn [sub_pieces mk_match m_start m_end pos st].
    replace (p + List.length d - p) with (List.length d) by lia.
    rewrite firstn_app, Nat.sub_diag, firstn_all. cbn [firstn].
    rewrite app_nil_r. f_equal.
    unfold expand. cbn [List.map concat]. rewrite app_nil_r.
    rewrite <- !app_assoc. f_equal. cbn [app]. do 7 f_equal.
    rewrite Pe. cbn [pos st].
    replace (p + List.length d
             + (List.length (cbreak c) + List.length (cindent c) + 1
                + List.length (cmargin c)) - p)
      with (List.length d + List.length (a0 :: w')) by lia.
    change (a0 :: w' ++ ctext c ++ tail) with ((a0 :: w') ++ ctext c ++ tail).
    rewrite (app_assoc d), <- (length_app d (a0 :: w')), skipn_app, Nat.sub_diag,
      skipn_all.
    cbn [skipn app].
    replace (S (p + List.length d) + List.length w')
      with (p + List.length d
            + (List.length (cbreak c) + List.length (cindent c) + 1
               + List.length (cmargin c)))
      by (cbn [List.length] in Lw; lia).
    apply IH; assumption.
Qed.

Lemma doc_tag_wrapped (k r l0 : str) (cs : list continuation) :
  k <> [] -> forallb is_alpha k = true ->
  span (CSet false [IRange (ch "a") (ch "z"); IRange (ch "A") (ch "Z")]) r = 0 ->
  strip r = l0 ++ concat (List.map continuation_text cs) ->
  forallb (fun a => negb (is_break a)) l0 = true ->
  forallb continuation_ok cs = true ->
  doc_tag (lit "@" ++ k ++ r)
  = Some (mkTag k
            (l0 ++ concat (List.map (fun c => [nl; nl] ++ lit "     " ++ ctext c)
                             cs))).
Proof.
  intros Hk Hal Hr Hs Hl Hcs. unfold doc_tag, rmatch.
  destruct (tag_match k r Hk Hal Hr) as [e [-> Hc]].
  cbn [option_map]. unfold group, mk_match. cbn [m_caps]. rewrite Hc.
  cbn [lookup Nat.eqb].
  rewrite clean_single_line_alpha by exact Hal.
  assert ((match r with [] => [] | _ :: _ => strip r end) = strip r) as ->
    by (destruct r; reflexivity).
  rewrite Hs. unfold Re.sub, finditer.
  rewrite (sub_wrap_lines cs l0 0 None Hl Hcs). reflexivity.
Qed.

(** A tag whose value runs over several lines: each line break with
    the blanks and the star that lead the next line becomes a blank
    line and an indentation of five spaces. *)
Theorem doc_tag_continuation_lines (k r l0 : str) (cs : list continuation) :
  k <> [] -> forallb is_alpha k = true ->
  span (CSet false [IRange (ch "a") (ch "z"); IRange (ch "A") (ch "Z")]) r = 0 ->
  strip r = l0 ++ concat (List.map continuation_text cs) ->
  forallb (fun a => negb (is_break a)) l0 = true ->
  forallb continuation_ok cs = true ->
  doc_tag (lit "@" ++ k ++ r)
  = Some (mkTag k
            (l0 ++ concat (List.map (fun c => [nl; nl] ++ lit "     " ++ ctext c)
                             cs))).
Proof. exact (doc_tag_wrapped k r l0 cs). Qed.

Lemma doc_tag_continuation_lines_witness :
  doc_tag (lit "@" ++ lit "param"
           ++ (lit " a the first" ++ [nl] ++ lit "   *  and more" ++ [cr; nl]
               ++ lit " * last" ++ [nl]))
  = Some (mkTag (lit "param")
            (lit "a the first" ++ [nl; nl] ++ lit "     and more"
             ++ [nl; nl] ++ lit "     last")).
Proof.
  apply (doc_tag_continuation_lines (lit "param")
           (lit " a the first" ++ [nl] ++ lit "   *  and more" ++ [cr; nl]
            ++ lit " * last" ++ [nl])
           (lit "a the first")
           [mkContinuation [nl] (lit "   ") (lit "  ") (lit "and more");
            mkContinuation [cr; nl] (lit " ") (lit " ") (lit "last")]).
  - discriminate.
  - reflexivity.
  - reflexivity.
  - vm_compute. reflexivity.
  - reflexivity.
  - reflexivity.
Defined.

(** ** Cleaning a clean line *)

Lemma words_word (w : str) :
  w <> [] -> forallb (fun a => negb (isspace a)) w = true -> words w = [w].
Proof.
  induction w as [|c w IH]; intros Hne H; [congruence|].
  cbn [forallb] in H. apply andb_true_iff in H. destruct H as [Hc H].
  apply negb_true_iff in Hc. cbn [words]. rewrite Hc.
  destruct w as [|d w]; [reflexivity|].
  pose proof H as H'. cbn [forallb] in H'. apply andb_true_iff in H'.
  destruct H' as [Hd _]. apply negb_true_iff in Hd. rewrite Hd.
  rewrite IH by (discriminate || exact H). reflexivity.
Qed.

Lemma words_each_nonempty (s w : str) : In w (words s) -> w <> [].
Proof.
  revert w. induction s as [|c s IH]; intros w Hw; [contradiction|].
  cbn [words] in Hw. destruct (isspace c); [auto|].
  destruct s as [|d s].
  - destruct Hw as [<-|[]]. discriminate.
  - destruct (isspace d).
    + destruct Hw as [<-|Hw]; [discriminate|auto].
    + destruct (words (d :: s)) as [|w0 ws].
      * destruct Hw as [<-|[]]. discriminate.
      * destruct Hw as [<-|Hw]; [discriminate|]. apply IH. right. exact Hw.
Qed.

Lemma words_words (s : str) : concat (List.map words (words s)) = words s.
Proof.
  assert (G : forall l : list str,
             (forall w, In w l -> words w = [w]) ->
             concat (List.map words l) = l).
  { induction l as [|w l IH]; intros H; [reflexivity|].
    cbn [List.map concat]. rewrite (H w) by (left; reflexivity).
    rewrite IH by (intros v Hv; apply H; right; exact Hv). reflexivity. }
  apply G. intros w Hw. apply words_word.
  - apply (words_each_nonempty s w Hw).
  - apply forallb_forall. intros a Ha. apply negb_true_iff.
    apply (words_chars s w a Hw Ha).
Qed.

Lemma clean_line_fixed (s : str) :
  join (lit " ") (words (join (lit " ") (words s))) = join (lit " ") (words s).
Proof. rewrite words_join, words_words. reflexivity. Qed.

(** Cleaning is idempotent: a cleaned line is left as it is by both
    cleaning functions. *)
Theorem clean_line_idempotent (s : str) :
  _clean_line (_clean_line s) = _clean_line s
  /\ _clean_single_line (_clean_single_line s) = _clean_single_line s.
Proof.
  split.
  - rewrite !clean_line_words. apply clean_line_fixed.
  - rewrite !clean_single_line_join. apply clean_line_fixed.
Qed.
